(** * A shallow embedding of [fcapi_client.py]

    The module is a thin client of the FoodData Central API.  It is made of
    - [parse_json], which reshapes one decoded JSON food record,
    - the dataclass [FoodEntry],
    - the class [FCAPI], whose three lookup methods are wrapped by
      [functools.cache], and
    - [check_response], which classifies an HTTP status code.

    Python objects are modelled by the type [value], exceptions by [exn],
    a call that may raise by [result], and a call that may also send
    requests or touch a memoization table by the monad [M] over [world]. *)

From Stdlib Require Import ZArith List String Ascii Bool Lia.
From Stdlib Require Import PrimFloat FloatOps SpecFloat.
From Stdlib Require Import DecimalString.
From Stdlib Require DecimalZ.
Import ListNotations.

#[local] Set Warnings "-inexact-float".

Open Scope string_scope.
Open Scope Z_scope.

(** Induction on a type nested in [list] and [prod] goes through these. *)
Scheme All for list.
Scheme All for prod.

(** ** Exceptions and fallible computations *)

(** The exception classes the module raises or lets through.  [KeyError]
    carries the missing key; the others carry their message. *)
Inductive exn : Type :=
| TypeError (msg : string)
| ValueError (msg : string)
| KeyError (key : string)
| AttributeError (msg : string)
| OverflowError (msg : string)
| RuntimeError (msg : string)
| RequestException (msg : string).

Inductive result (A : Type) : Type :=
| Ok (a : A)
| Err (e : exn).

Arguments Ok {A} a.
Arguments Err {A} e.

Definition rbind {A B : Type} (r : result A) (k : A -> result B) : result B :=
  match r with
  | Ok a => k a
  | Err e => Err e
  end.

Declare Scope result_scope.
Delimit Scope result_scope with result.
Notation "x <- r ;; k" := (rbind r (fun x => k))
  (at level 61, r at next level, right associativity) : result_scope.

Definition is_ok {A : Type} (r : result A) : bool :=
  match r with
  | Ok _ => true
  | Err _ => false
  end.

(** ** Python values *)

(** The objects that [json.loads] produces, plus tuples.  A [dict] is kept
    as an association list in insertion order; its keys are strings, as
    they are in decoded JSON and in keyword arguments. *)
Inductive value : Type :=
| VNone
| VBool (b : bool)
| VInt (z : Z)
| VFloat (f : float)
| VStr (s : string)
| VList (items : list value)
| VTuple (items : list value)
| VDict (items : list (string * value)).

Definition dict : Type := list (string * value).

Definition type_name (v : value) : string :=
  match v with
  | VNone => "NoneType"
  | VBool _ => "bool"
  | VInt _ => "int"
  | VFloat _ => "float"
  | VStr _ => "str"
  | VList _ => "list"
  | VTuple _ => "tuple"
  | VDict _ => "dict"
  end.

(** *** Dictionaries *)

Fixpoint dict_get (k : string) (d : dict) : option value :=
  match d with
  | [] => None
  | (k', v) :: rest => if String.eqb k' k then Some v else dict_get k rest
  end.

(** [d[k] = v]: an existing key keeps its place, a new one goes last. *)
Fixpoint dict_set (k : string) (v : value) (d : dict) : dict :=
  match d with
  | [] => [(k, v)]
  | (k', v') :: rest =>
      if String.eqb k' k then (k', v) :: rest else (k', v') :: dict_set k v rest
  end.

(** [d.update(other)] *)
Definition dict_update (d other : dict) : dict :=
  fold_left (fun acc kv => dict_set (fst kv) (snd kv) acc) other d.

Definition dict_keys (d : dict) : list string := map fst d.

(** *** Strings *)

(** A [str] is kept as a [string].  ASCII text is kept character by
    character, one byte each; text with other characters is kept in an
    encoding that gives them bytes from 128 on, UTF-8 in the examples. *)
Fixpoint is_ascii (s : string) : bool :=
  match s with
  | EmptyString => true
  | String c rest => (N.ltb (N_of_ascii c) 128 && is_ascii rest)%bool
  end.

(** One character of ASCII text in lower case. *)
Definition lower_ascii (c : ascii) : ascii :=
  let n := N_of_ascii c in
  if (N.leb 65 n && N.leb n 90)%bool then ascii_of_N (n + 32) else c.

(** [str.lower] on ASCII text. *)
Fixpoint ascii_lower (s : string) : string :=
  match s with
  | EmptyString => EmptyString
  | String c rest => String (lower_ascii c) (ascii_lower rest)
  end.

(** [v[k]] for a string [k] *)
Definition getitem (v : value) (k : string) : result value :=
  match v with
  | VDict d =>
      match dict_get k d with
      | Some x => Ok x
      | None => Err (KeyError k)
      end
  | VList _ => Err (TypeError "list indices must be integers or slices, not str")
  | VTuple _ => Err (TypeError "tuple indices must be integers or slices, not str")
  | VStr _ => Err (TypeError "string indices must be integers, not 'str'")
  | _ => Err (TypeError ("'" ++ type_name v ++ "' object is not subscriptable"))
  end.

(** The items of a string, one for each byte.  That is one for each
    character of ASCII text; for other text the loops of the module only
    depend on whether there is an item, since they raise on the first. *)
Fixpoint chars (s : string) : list value :=
  match s with
  | EmptyString => []
  | String c rest => VStr (String c EmptyString) :: chars rest
  end.

(** The items a [for] loop over [v] visits. *)
Definition iterate (v : value) : result (list value) :=
  match v with
  | VList l => Ok l
  | VTuple l => Ok l
  | VStr s => Ok (chars s)
  | VDict d => Ok (map (fun kv => VStr (fst kv)) d)
  | _ => Err (TypeError ("'" ++ type_name v ++ "' object is not iterable"))
  end.

(** *** Numbers *)

(** [int(f)] for a float: the integer part, towards zero.  A finite float
    is [(-1)^s * m * 2^e]. *)
Definition float_to_int (f : float) : result Z :=
  match Prim2SF f with
  | S754_zero _ => Ok 0
  | S754_finite s m e =>
      let mag := if 0 <=? e then Z.pos m * 2 ^ e else Z.pos m / 2 ^ (- e) in
      Ok (if s then - mag else mag)
  | S754_infinity _ => Err (OverflowError "cannot convert float infinity to integer")
  | S754_nan => Err (ValueError "cannot convert float NaN to integer")
  end.

(** [str(z)] for an integer *)
Definition str_of_int (z : Z) : string := NilZero.string_of_int (Z.to_int z).

(** ** What the module imports *)

Record request : Type := mk_request {
  url : string;
  params : dict
}.

Record response : Type := mk_response {
  status_code : Z;
  text : string
}.

(** The library functions the module calls and this development leaves
    abstract: [int] on a string, [str] on anything but an integer, a
    boolean, a string or [None], [str.lower] on text that is not all
    ASCII, which follows the Unicode tables of the interpreter,
    [json.loads], and [requests.get].  The answer of [requests_get] may
    depend on the requests sent before. *)
Record runtime : Type := mk_runtime {
  int_of_str : string -> result Z;
  str_of_other : value -> string;
  do_lower : string -> string;
  json_loads : string -> result value;
  requests_get : list request -> request -> result response
}.

(** [int(v)] *)
Definition py_int (rt : runtime) (v : value) : result Z :=
  match v with
  | VInt z => Ok z
  | VBool b => Ok (if b then 1 else 0)
  | VFloat f => float_to_int f
  | VStr s => int_of_str rt s
  | _ =>
      Err (TypeError
             ("int() argument must be a string, a bytes-like object or a real number, not '"
                ++ type_name v ++ "'"))
  end.

(** [str(v)] *)
Definition py_str (rt : runtime) (v : value) : string :=
  match v with
  | VInt z => str_of_int z
  | VBool b => if b then "True" else "False"
  | VStr s => s
  | VNone => "None"
  | _ => str_of_other rt v
  end.

(** [s.lower()], as the interpreter does it: ASCII text is lowered
    character by character, any other text as a whole through the
    Unicode tables. *)
Definition lower (rt : runtime) (s : string) : string :=
  if is_ascii s then ascii_lower s else do_lower rt s.

(** [v.lower()] *)
Definition call_lower (rt : runtime) (v : value) : result string :=
  match v with
  | VStr s => Ok (lower rt s)
  | _ => Err (AttributeError ("'" ++ type_name v ++ "' object has no attribute 'lower'"))
  end.

(** ** [parse_json] *)

Section ParseJson.

Variable rt : runtime.

Local Open Scope result_scope.

(** The dict comprehension of lines 24-26: one entry per item, the key
    before the value, a repeated name overwritten by the later item. *)
Fixpoint nutrition_of (xs : list value) (acc : dict) : result dict :=
  match xs with
  | [] => Ok acc
  | x :: rest =>
      nutrient <- getitem x "nutrient" ;;
      name <- getitem nutrient "name" ;;
      key <- call_lower rt name ;;
      amount <- getitem x "amount" ;;
      nutrition_of rest (dict_set key amount acc)
  end.

Definition parse_json (data : value) : result dict :=
  let output := [] in
  fdcId <- getitem data "fdcId" ;;
  let output := dict_set "food_id" fdcId output in
  description <- getitem data "description" ;;
  name <- call_lower rt description ;;
  let output := dict_set "name" (VStr name) output in
  foodNutrients <- getitem data "foodNutrients" ;;
  xs <- iterate foodNutrients ;;
  nutrition <- nutrition_of xs [] ;;
  energy <- getitem (VDict nutrition) "energy" ;;
  calories <- py_int rt energy ;;
  let output := dict_set "calories" (VInt calories) output in
  fat <- getitem (VDict nutrition) "total lipid (fat)" ;;
  carbs <- getitem (VDict nutrition) "carbohydrate, by difference" ;;
  protein <- getitem (VDict nutrition) "protein" ;;
  let output :=
    dict_set "macronutrients"
      (VDict [("fat", fat); ("carbs", carbs); ("protein", protein)]) output in
  servingSize <- getitem data "servingSize" ;;
  servingSizeUnit <- getitem data "servingSizeUnit" ;;
  unit <- call_lower rt servingSizeUnit ;;
  let output :=
    dict_set "serving" (VDict [("value", servingSize); ("unit", VStr unit)]) output in
  labelNutrients <- getitem data "labelNutrients" ;;
  l_calories <- getitem labelNutrients "calories" ;;
  v_calories <- getitem l_calories "value" ;;
  labelNutrients <- getitem data "labelNutrients" ;;
  l_fat <- getitem labelNutrients "fat" ;;
  v_fat <- getitem l_fat "value" ;;
  labelNutrients <- getitem data "labelNutrients" ;;
  l_carbs <- getitem labelNutrients "carbohydrates" ;;
  v_carbs <- getitem l_carbs "value" ;;
  labelNutrients <- getitem data "labelNutrients" ;;
  l_protein <- getitem labelNutrients "protein" ;;
  v_protein <- getitem l_protein "value" ;;
  let output :=
    dict_set "nutrition_per_serving"
      (VDict [("calories", v_calories); ("fat", v_fat);
              ("carbs", v_carbs); ("protein", v_protein)]) output in
  Ok output.

End ParseJson.

(** ** Calls *)

(** A signature, without [self]: the parameters that have no default, the
    parameters that have one, and whether a [**kwargs] collects the
    keywords that name no parameter. *)
Record signature : Type := mk_signature {
  qualname : string;
  required : list string;
  defaults : dict;
  var_keyword : bool
}.

Definition parameters (sg : signature) : list string :=
  required sg ++ dict_keys (defaults sg).

(** The parameters with the argument each has received so far. *)
Definition slots : Type := list (string * option value).

Fixpoint bind_positional (names : list string) (args : list value) : slots :=
  match names, args with
  | [], _ => []
  | n :: names', [] => (n, None) :: bind_positional names' []
  | n :: names', a :: args' => (n, Some a) :: bind_positional names' args'
  end.

(** [None] when [k] names no parameter. *)
Fixpoint bind_keyword (sg : signature) (k : string) (v : value) (sl : slots)
  : option (result slots) :=
  match sl with
  | [] => None
  | (n, b) :: rest =>
      if String.eqb n k then
        match b with
        | Some _ =>
            Some (Err (TypeError
                         (qualname sg ++ "() got multiple values for argument '" ++ k ++ "'")))
        | None => Some (Ok ((n, Some v) :: rest))
        end
      else
        match bind_keyword sg k v rest with
        | Some (Ok rest') => Some (Ok ((n, b) :: rest'))
        | other => other
        end
  end.

Fixpoint bind_keywords (sg : signature) (kwds : dict) (sl : slots) (extra : dict)
  : result (slots * dict) :=
  match kwds with
  | [] => Ok (sl, extra)
  | (k, v) :: rest =>
      if String.eqb k "self" then
        Err (TypeError (qualname sg ++ "() got multiple values for argument 'self'"))
      else
        match bind_keyword sg k v sl with
        | Some (Ok sl') => bind_keywords sg rest sl' extra
        | Some (Err e) => Err e
        | None =>
            if var_keyword sg then bind_keywords sg rest sl (extra ++ [(k, v)])%list
            else
              Err (TypeError
                     (qualname sg ++ "() got an unexpected keyword argument '" ++ k ++ "'"))
        end
  end.

Fixpoint fill_defaults (sg : signature) (sl : slots) : result dict :=
  match sl with
  | [] => Ok []
  | (n, b) :: rest =>
      match (match b with Some v => Some v | None => dict_get n (defaults sg) end) with
      | Some v =>
          match fill_defaults sg rest with
          | Ok bound => Ok ((n, v) :: bound)
          | Err e => Err e
          end
      | None =>
          Err (TypeError
                 (qualname sg ++ "() missing 1 required positional argument: '" ++ n ++ "'"))
      end
  end.

(** The message for too many positional arguments; both counts include
    [self]. *)
Definition too_many_positional (sg : signature) (given : nat) : string :=
  let most := str_of_int (Z.of_nat (S (List.length (parameters sg)))) in
  let least := str_of_int (Z.of_nat (S (List.length (required sg)))) in
  qualname sg ++ "() takes "
    ++ (if String.eqb least most then most else "from " ++ least ++ " to " ++ most)
    ++ " positional arguments but " ++ str_of_int (Z.of_nat (S given)) ++ " were given".

(** How the interpreter binds [f(self, *args, **kwds)]: positional
    arguments first, then keywords, then the count of positional
    arguments, then what is missing (the first missing parameter is the
    one reported).  The result maps each parameter to
    its argument and gives the content of [**kwargs]. *)
Definition bind_arguments (sg : signature) (args : list value) (kwds : dict)
  : result (dict * dict) :=
  match bind_keywords sg kwds (bind_positional (parameters sg) args) [] with
  | Err e => Err e
  | Ok (sl, extra) =>
      if (List.length (parameters sg) <? List.length args)%nat then
        Err (TypeError (too_many_positional sg (List.length args)))
      else
        match fill_defaults sg sl with
        | Ok bound => Ok (bound, extra)
        | Err e => Err e
        end
  end.

(** The argument bound to parameter [n]. *)
Definition argument (n : string) (bound : dict) : value :=
  match dict_get n bound with
  | Some v => v
  | None => VNone
  end.

(** ** [FoodEntry] *)

Record FoodEntry : Type := mk_FoodEntry {
  food_id : value;
  name : value;
  calories : value;
  macronutrients : value;
  serving : value;
  nutrition_per_serving : value
}.

(** The [__init__] that [@dataclass] generates. *)
Definition FoodEntry_signature : signature :=
  mk_signature "FoodEntry.__init__"
    ["food_id"; "name"; "calories"; "macronutrients"; "serving"; "nutrition_per_serving"]
    [] false.

(** A call of the class [FoodEntry] with the given arguments. *)
Definition FoodEntry_new (args : list value) (kwds : dict) : result FoodEntry :=
  match bind_arguments FoodEntry_signature args kwds with
  | Err e => Err e
  | Ok (bound, _) =>
      Ok (mk_FoodEntry (argument "food_id" bound) (argument "name" bound)
            (argument "calories" bound) (argument "macronutrients" bound)
            (argument "serving" bound) (argument "nutrition_per_serving" bound))
  end.

(** [FoodEntry.__str__]: its body is [pass], so it returns [None]. *)
Definition FoodEntry_str (self : FoodEntry) : value := VNone.

(** [str(entry)]: the interpreter calls [__str__] and refuses a result
    that is not a string. *)
Definition str_FoodEntry (entry : FoodEntry) : result string :=
  match FoodEntry_str entry with
  | VStr s => Ok s
  | other =>
      Err (TypeError ("__str__ returned non-string (type " ++ type_name other ++ ")"))
  end.

(** [FoodEntry.from_json] *)
Definition from_json (rt : runtime) (json : value) : result FoodEntry :=
  match parse_json rt json with
  | Err e => Err e
  | Ok output => FoodEntry_new [] output
  end.

(** ** [check_response] *)

Definition check_response (r : response) : result bool :=
  if status_code r =? 200 then Ok true
  else if status_code r =? 400 then
    Err (ValueError "Apparently this request used an invalid parameter.")
  else if status_code r =? 404 then
    Err (ValueError "The status code indicates that the food item was not found.")
  else Err (RuntimeError "The status code indicates an unknown error.").

(** ** Memoization keys *)

(** [functools.cache] builds its key from the positional arguments, [self]
    first, followed by the keyword arguments in the order of the call.
    An instance of [FCAPI] hashes and compares by identity, so the key
    keeps the identity of [self]. *)
Record key : Type := mk_key {
  key_self : nat;
  key_args : list value;
  key_kwds : dict
}.

(** The type that makes [hash(v)] raise, if any: the first list or dict
    met, also inside tuples. *)
Fixpoint unhashable (v : value) : option string :=
  match v with
  | VList _ => Some "list"
  | VDict _ => Some "dict"
  | VTuple items =>
      (fix first (l : list value) : option string :=
         match l with
         | [] => None
         | x :: rest =>
             match unhashable x with
             | Some t => Some t
             | None => first rest
             end
         end) items
  | _ => None
  end.

Fixpoint first_unhashable (l : list value) : option string :=
  match l with
  | [] => None
  | x :: rest =>
      match unhashable x with
      | Some t => Some t
      | None => first_unhashable rest
      end
  end.

Definition key_unhashable (k : key) : option string :=
  first_unhashable (key_args k ++ map snd (key_kwds k))%list.

(** Numbers compare by their exact value whatever their type: [1 == 1.0
    == True].  A finite number is kept as [m * 2^e] with [m] odd, or as
    [0 * 2^0]. *)
Inductive number : Type :=
| NFinite (m e : Z)
| NInfinity (negative : bool)
| NNaN.

Fixpoint odd_part (p : positive) (e : Z) : positive * Z :=
  match p with
  | xO q => odd_part q (e + 1)
  | _ => (p, e)
  end.

Definition number_of_Z (z : Z) : number :=
  match z with
  | Z0 => NFinite 0 0
  | Zpos p => let (m, e) := odd_part p 0 in NFinite (Zpos m) e
  | Zneg p => let (m, e) := odd_part p 0 in NFinite (Zneg m) e
  end.

Definition number_of_float (f : float) : number :=
  match Prim2SF f with
  | S754_zero _ => NFinite 0 0
  | S754_finite s m e =>
      let (m', e') := odd_part m e in
      NFinite (if s then Zneg m' else Zpos m') e'
  | S754_infinity s => NInfinity s
  | S754_nan => NNaN
  end.

Definition number_of (v : value) : option number :=
  match v with
  | VBool b => Some (number_of_Z (if b then 1 else 0))
  | VInt z => Some (number_of_Z z)
  | VFloat f => Some (number_of_float f)
  | _ => None
  end.

Definition number_eqb (a b : number) : bool :=
  match a, b with
  | NFinite m e, NFinite m' e' => (m =? m') && (e =? e')
  | NInfinity s, NInfinity s' => Bool.eqb s s'
  | _, _ => false
  end.

(** [v == w] between two components of a key.  Only hashable values reach
    this comparison, so nothing is said of lists and dicts; two NaN
    arguments are taken to be two objects, which never compare equal. *)
Fixpoint component_eqb (v w : value) : bool :=
  match v, w with
  | VNone, VNone => true
  | VStr s, VStr t => String.eqb s t
  | VTuple l, VTuple l' =>
      (fix all2 (l l' : list value) : bool :=
         match l, l' with
         | [], [] => true
         | x :: r, y :: r' => component_eqb x y && all2 r r'
         | _, _ => false
         end) l l'
  | VBool _, _ | VInt _, _ | VFloat _, _ =>
      match number_of v, number_of w with
      | Some a, Some b => number_eqb a b
      | _, _ => false
      end
  | _, _ => false
  end.

Fixpoint components_eqb (l l' : list value) : bool :=
  match l, l' with
  | [], [] => true
  | x :: r, y :: r' => component_eqb x y && components_eqb r r'
  | _, _ => false
  end.

Fixpoint kwds_eqb (d d' : dict) : bool :=
  match d, d' with
  | [], [] => true
  | (k, v) :: r, (k', v') :: r' =>
      String.eqb k k' && component_eqb v v' && kwds_eqb r r'
  | _, _ => false
  end.

(** Equality of two keys, as the dict behind the cache decides it. *)
Definition key_eqb (a b : key) : bool :=
  Nat.eqb (key_self a) (key_self b)
  && components_eqb (key_args a) (key_args b)
  && kwds_eqb (key_kwds a) (key_kwds b).

Fixpoint cache_find {A : Type} (k : key) (table : list (key * A)) : option A :=
  match table with
  | [] => None
  | (k', r) :: rest => if key_eqb k' k then Some r else cache_find k rest
  end.

(** ** The state of a run *)

(** The requests sent so far and the table of each memoized method. *)
Record world : Type := mk_world {
  sent : list request;
  food_by_id_cache : list (key * FoodEntry);
  foods_by_id_cache : list (key * list FoodEntry);
  search_food_by_query_cache : list (key * list FoodEntry)
}.

Definition fresh : world := mk_world [] [] [] [].

Definition M (A : Type) : Type := world -> result A * world.

Definition ret {A : Type} (a : A) : M A := fun w => (Ok a, w).

Definition raise {A : Type} (e : exn) : M A := fun w => (Err e, w).

Definition bind {A B : Type} (m : M A) (k : A -> M B) : M B :=
  fun w =>
    match m w with
    | (Ok a, w') => k a w'
    | (Err e, w') => (Err e, w')
    end.

Definition lift {A : Type} (r : result A) : M A := fun w => (r, w).

Declare Scope monad_scope.
Delimit Scope monad_scope with monad.
Notation "x <- m ;; k" := (bind m (fun x => k))
  (at level 61, m at next level, right associativity) : monad_scope.

(** [requests.get(url, params=params)] *)
Definition get (rt : runtime) (r : request) : M response :=
  fun w =>
    (requests_get rt (sent w) r,
     mk_world (sent w ++ [r])%list (food_by_id_cache w) (foods_by_id_cache w)
       (search_food_by_query_cache w)).

Fixpoint map_result {A B : Type} (f : A -> result B) (l : list A) : result (list B) :=
  match l with
  | [] => Ok []
  | x :: rest =>
      match f x with
      | Err e => Err e
      | Ok y =>
          match map_result f rest with
          | Err e => Err e
          | Ok ys => Ok (y :: ys)
          end
      end
  end.

(** [functools.cache] around a method [f] whose table is read by [table]
    and written by [store]: hash the key, look it up, and only on a miss
    run [f] and keep what it returns.  A call that raises stores
    nothing. *)
Definition cached {A : Type}
  (table : world -> list (key * A)) (store : list (key * A) -> world -> world)
  (f : list value -> dict -> M A) (self : nat) (args : list value) (kwds : dict) : M A :=
  fun w =>
    let k := mk_key self args kwds in
    match key_unhashable k with
    | Some t => (Err (TypeError ("unhashable type: '" ++ t ++ "'")), w)
    | None =>
        match cache_find k (table w) with
        | Some r => (Ok r, w)
        | None =>
            match f args kwds w with
            | (Ok r, w') => (Ok r, store (table w' ++ [(k, r)])%list w')
            | (Err e, w') => (Err e, w')
            end
        end
    end.

(** ** The class [FCAPI] *)

(** An instance: its identity and the [api_key] given to [__init__]. *)
Record FCAPI : Type := mk_FCAPI {
  instance : nat;
  api_key : value
}.

Definition base_url : string := "https://api.nal.usda.gov/fdc/v1/".

(** [urljoin] of a base that ends in a slash and one of the relative
    paths the methods build, which have no scheme, no leading slash and
    no dot segment: the path is appended. *)
Definition urljoin (base rel : string) : string := base ++ rel.

(** [isinstance(v, int)]; [bool] is a subclass of [int]. *)
Definition isinstance_int (v : value) : bool :=
  match v with
  | VInt _ | VBool _ => true
  | _ => false
  end.

Definition food_by_id_signature : signature :=
  mk_signature "FCAPI.food_by_id" ["food_id"] [] true.

Definition foods_by_id_signature : signature :=
  mk_signature "FCAPI.foods_by_id" ["food_ids"] [] true.

Definition search_food_by_query_signature : signature :=
  mk_signature "FCAPI.search_food_by_query" ["query"] [("brand", VNone)] true.

Section Methods.

Variable rt : runtime.
Variable self : FCAPI.

Local Open Scope monad_scope.

(** The function under [@cache] at line 90. *)
Definition food_by_id_body (args : list value) (kwds : dict) : M FoodEntry :=
  bound <- lift (bind_arguments food_by_id_signature args kwds) ;;
  let food_id := argument "food_id" (fst bound) in
  let kwargs := snd bound in
  if negb (isinstance_int food_id) then
    raise (TypeError "food_id must be an integer. for a list use foods_by_id")
  else
    let url := urljoin base_url ("food/" ++ py_str rt food_id) in
    let params := [("api_key", api_key self)] in
    let params := dict_update params kwargs in
    response <- get rt (mk_request url params) ;;
    _ <- lift (check_response response) ;;
    data <- lift (json_loads rt (text response)) ;;
    lift (from_json rt data).

(** The function under [@cache] at line 111. *)
Definition foods_by_id_body (args : list value) (kwds : dict) : M (list FoodEntry) :=
  bound <- lift (bind_arguments foods_by_id_signature args kwds) ;;
  let food_ids := argument "food_ids" (fst bound) in
  let kwargs := snd bound in
  match food_ids with
  | VList ids =>
      if (20 <? List.length ids)%nat then
        raise (ValueError "food_ids must be a list of length <= 20")
      else
        let url := urljoin base_url "foods" in
        let params :=
          [("api_key", api_key self);
           ("fdcIds", VStr (String.concat "," (map (py_str rt) ids)))] in
        let params := dict_update params kwargs in
        response <- get rt (mk_request url params) ;;
        _ <- lift (check_response response) ;;
        data <- lift (json_loads rt (text response)) ;;
        foods <- lift (getitem data "foods") ;;
        xs <- lift (iterate foods) ;;
        lift (map_result (from_json rt) xs)
  | _ => raise (TypeError "food_ids must be a list. for a single id use food_by_id")
  end.

(** The function under [@cache] at line 136.  [query] and [brand] are
    bound and not read again. *)
Definition search_food_by_query_body (args : list value) (kwds : dict)
  : M (list FoodEntry) :=
  bound <- lift (bind_arguments search_food_by_query_signature args kwds) ;;
  let kwargs := snd bound in
  let url := urljoin base_url "foods/search" in
  let params := [("api_key", api_key self)] in
  let params := dict_update params kwargs in
  response <- get rt (mk_request url params) ;;
  _ <- lift (check_response response) ;;
  data <- lift (json_loads rt (text response)) ;;
  foods <- lift (getitem data "foods") ;;
  xs <- lift (iterate foods) ;;
  lift (map_result (from_json rt) xs).

(** The public methods: the bodies behind [functools.cache]. *)
Definition food_by_id : list value -> dict -> M FoodEntry :=
  cached food_by_id_cache
    (fun t w =>
       mk_world (sent w) t (foods_by_id_cache w) (search_food_by_query_cache w))
    food_by_id_body (instance self).

Definition foods_by_id : list value -> dict -> M (list FoodEntry) :=
  cached foods_by_id_cache
    (fun t w =>
       mk_world (sent w) (food_by_id_cache w) t (search_food_by_query_cache w))
    foods_by_id_body (instance self).

Definition search_food_by_query : list value -> dict -> M (list FoodEntry) :=
  cached search_food_by_query_cache
    (fun t w => mk_world (sent w) (food_by_id_cache w) (foods_by_id_cache w) t)
    search_food_by_query_body (instance self).

End Methods.

(** ** Runs of a program that uses the client *)

Inductive method : Type :=
| Food_by_id
| Foods_by_id
| Search_food_by_query.

(** What a memoized method returns. *)
Inductive outcome : Type :=
| Entry (e : FoodEntry)
| Entries (l : list FoodEntry).

Definition outcome_of {A : Type} (wrap : A -> outcome) (r : result A * world)
  : result outcome * world :=
  match r with
  | (Ok a, w) => (Ok (wrap a), w)
  | (Err e, w) => (Err e, w)
  end.

(** A call of method [m] of [self], as a function of the state. *)
Definition call (rt : runtime) (m : method) (self : FCAPI)
  (args : list value) (kwds : dict) (w : world) : result outcome * world :=
  match m with
  | Food_by_id => outcome_of Entry (food_by_id rt self args kwds w)
  | Foods_by_id => outcome_of Entries (foods_by_id rt self args kwds w)
  | Search_food_by_query =>
      outcome_of Entries (search_food_by_query rt self args kwds w)
  end.

Record invocation : Type := mk_invocation {
  inv_method : method;
  inv_self : FCAPI;
  inv_args : list value;
  inv_kwds : dict
}.

(** The state after a sequence of calls, whatever each returns or raises. *)
Fixpoint run (rt : runtime) (calls : list invocation) (w : world) : world :=
  match calls with
  | [] => w
  | c :: rest =>
      run rt rest
        (snd (call rt (inv_method c) (inv_self c) (inv_args c) (inv_kwds c) w))
  end.

(** ** Records and runs used as examples *)

Definition nutrient (n : string) (amount : value) : value :=
  VDict [("nutrient", VDict [("name", VStr n)]); ("amount", amount)].

Definition label (v : value) : value := VDict [("value", v)].

Definition apple_nutrients : list value :=
  [nutrient "Energy" (VInt 52);
   nutrient "Total lipid (fat)" (VFloat 0.2);
   nutrient "Carbohydrate, by difference" (VInt 14);
   nutrient "Protein" (VFloat 0.3)].

Definition apple_labels : value :=
  VDict
    [("calories", label (VInt 52));
     ("fat", label (VFloat 0.2));
     ("carbohydrates", label (VInt 14));
     ("protein", label (VFloat 0.3))].

Definition apple_fields : dict :=
  [("fdcId", VInt 123);
   ("description", VStr "Apple");
   ("foodNutrients", VList apple_nutrients);
   ("servingSize", VInt 100);
   ("servingSizeUnit", VStr "G");
   ("labelNutrients", apple_labels)].

(** The example record of the specification. *)
Definition apple : value := VDict apple_fields.

Definition apple_parsed : dict :=
  [("food_id", VInt 123);
   ("name", VStr "apple");
   ("calories", VInt 52);
   ("macronutrients",
    VDict [("fat", VFloat 0.2); ("carbs", VInt 14); ("protein", VFloat 0.3)]);
   ("serving", VDict [("value", VInt 100); ("unit", VStr "g")]);
   ("nutrition_per_serving",
    VDict
      [("calories", VInt 52); ("fat", VFloat 0.2);
       ("carbs", VInt 14); ("protein", VFloat 0.3)])].

Definition apple_entry : FoodEntry :=
  mk_FoodEntry (VInt 123) (VStr "apple") (VInt 52)
    (VDict [("fat", VFloat 0.2); ("carbs", VInt 14); ("protein", VFloat 0.3)])
    (VDict [("value", VInt 100); ("unit", VStr "g")])
    (VDict
       [("calories", VInt 52); ("fat", VFloat 0.2);
        ("carbs", VInt 14); ("protein", VFloat 0.3)]).

(** The apple without its protein entry, and with some more energy. *)
Definition poor_apple_nutrients : list value :=
  [nutrient "Energy" (VFloat 52.7);
   nutrient "Total lipid (fat)" (VFloat 0.2);
   nutrient "Carbohydrate, by difference" (VInt 14)].

Definition poor_apple_fields : dict :=
  [("fdcId", VInt 123);
   ("description", VStr "Apple");
   ("foodNutrients", VList poor_apple_nutrients);
   ("servingSize", VInt 100);
   ("servingSizeUnit", VStr "G");
   ("labelNutrients", apple_labels)].

Definition apple_without_protein : value := VDict poor_apple_fields.

(** [str.lower] on UTF-8 text made of ASCII characters and of the
    characters of Latin-1, which take the two bytes [195], [b]: the
    capital letters are those with [b] from 128 to 158, but for the
    multiplication sign at 151, and their small letters are 32 further. *)
Fixpoint latin1_lower (s : string) : string :=
  match s with
  | EmptyString => EmptyString
  | String c rest =>
      if (N_of_ascii c =? 195)%N then
        match rest with
        | EmptyString => String c EmptyString
        | String b rest' =>
            let n := N_of_ascii b in
            let small :=
              if (N.leb 128 n && N.leb n 158 && negb (n =? 151)%N)%bool
              then ascii_of_N (n + 32) else b in
            String c (String small (latin1_lower rest'))
        end
      else String (lower_ascii c) (latin1_lower rest)
  end.

(** A runtime whose server knows one food, number 123, and answers a
    search with that food alone.  It lowers the text of Latin-1. *)
Definition demo_runtime : runtime :=
  mk_runtime
    (fun s => Err (ValueError ("invalid literal for int() with base 10: '" ++ s ++ "'")))
    (fun _ => "<object>")
    latin1_lower
    (fun s =>
       if String.eqb s "apple" then Ok apple
       else if String.eqb s "foods" then Ok (VDict [("foods", VList [apple])])
       else Err (ValueError "Expecting value: line 1 column 1 (char 0)"))
    (fun _ r =>
       if String.eqb (url r) (base_url ++ "food/123") then Ok (mk_response 200 "apple")
       else if String.eqb (url r) (base_url ++ "foods/search") then
         Ok (mk_response 200 "foods")
       else Ok (mk_response 404 "")).

Definition demo_client : FCAPI := mk_FCAPI 0 (VStr "DEMO_KEY").

Definition twenty_one_ids : list value :=
  map VInt [1; 2; 3; 4; 5; 6; 7; 8; 9; 10; 11; 12; 13; 14; 15; 16; 17; 18; 19; 20; 21].

(** ** Notions used in the statements *)

(** *** Calls and requests *)

Definition is_parameter (names : list string) (kv : string * value) : bool :=
  existsb (String.eqb (fst kv)) names.

(** The request [search_food_by_query] builds from the content of
    [**kwargs]. *)
Definition search_request (self : FCAPI) (kwargs : dict) : request :=
  mk_request (base_url ++ "foods/search")
    (dict_update [("api_key", api_key self)] kwargs).

(** *** Memoization tables *)

(** The wrapped functions send requests and leave the tables alone. *)
Definition same_tables (w w' : world) : Prop :=
  food_by_id_cache w' = food_by_id_cache w
  /\ foods_by_id_cache w' = foods_by_id_cache w
  /\ search_food_by_query_cache w' = search_food_by_query_cache w.

Definition keeps_tables {A : Type} (m : M A) : Prop :=
  forall w, same_tables w (snd (m w)).

(** Every entry of [w] is an entry of [w']. *)
Definition grows (w w' : world) : Prop :=
  (forall k r, cache_find k (food_by_id_cache w) = Some r ->
               cache_find k (food_by_id_cache w') = Some r)
  /\ (forall k r, cache_find k (foods_by_id_cache w) = Some r ->
                  cache_find k (foods_by_id_cache w') = Some r)
  /\ (forall k r, cache_find k (search_food_by_query_cache w) = Some r ->
                  cache_find k (search_food_by_query_cache w') = Some r).

(** Whether [d] holds the option [kv], up to the equality of values. *)
Definition has_option (d : dict) (kv : string * value) : bool :=
  existsb
    (fun kv' => String.eqb (fst kv) (fst kv') && component_eqb (snd kv) (snd kv')) d.

(** Whether two calls carry the same set of keyword arguments. *)
Definition same_options (d d' : dict) : bool :=
  forallb (has_option d') d && forallb (has_option d) d'.

(** Whether a NaN is among the components of a value. *)
Fixpoint has_nan (v : value) : bool :=
  match v with
  | VFloat f =>
      match Prim2SF f with
      | S754_nan => true
      | _ => false
      end
  | VTuple items => existsb has_nan items
  | _ => false
  end.

(** *** Raw food records *)

(** One item of [foodNutrients] in the shape the API gives it,
    [{nutrient: {name}, amount}], read as the lowercased name and the
    amount. *)
Definition nutrient_entry (rt : runtime) (x : value) : option (string * value) :=
  match x with
  | VDict d =>
      match dict_get "nutrient" d, dict_get "amount" d with
      | Some (VDict n), Some amount =>
          match dict_get "name" n with
          | Some (VStr s) => Some (lower rt s, amount)
          | _ => None
          end
      | _, _ => None
      end
  | _ => None
  end.

Fixpoint nutrient_entries (rt : runtime) (xs : list value) : option dict :=
  match xs with
  | [] => Some []
  | x :: rest =>
      match nutrient_entry rt x, nutrient_entries rt rest with
      | Some e, Some es => Some (e :: es)
      | _, _ => None
      end
  end.

(** The amount a record gives for a nutrient: that of the last item of
    that name. *)
Definition amount_of (n : string) (entries : dict) : option value :=
  dict_get n (rev entries).

Definition required_nutrients : list string :=
  ["energy"; "total lipid (fat)"; "carbohydrate, by difference"; "protein"].

(** [labels[k]["value"]] where every step is a dict that has the key. *)
Definition label_value (labels : value) (k : string) : option value :=
  match labels with
  | VDict d =>
      match dict_get k d with
      | Some (VDict l) => dict_get "value" l
      | _ => None
      end
  | _ => None
  end.

(** *** Lower case *)

(** [string.ascii_uppercase] and [string.ascii_lowercase] *)
Definition ascii_uppercase : string := "ABCDEFGHIJKLMNOPQRSTUVWXYZ".

Definition ascii_lowercase : string := "abcdefghijklmnopqrstuvwxyz".

(** The character of [to] at the place [c] has in [from], and [c]
    itself when it is not in [from]. *)
Fixpoint translate (from to : string) (c : ascii) : ascii :=
  match from, to with
  | String a from', String b to' =>
      if Ascii.eqb a c then b else translate from' to' c
  | _, _ => c
  end.

(** [s] with each of the letters [A] to [Z] replaced by its small letter
    and every other character kept. *)
Fixpoint in_lower_case (s : string) : string :=
  match s with
  | EmptyString => EmptyString
  | String c rest =>
      String (translate ascii_uppercase ascii_lowercase c) (in_lower_case rest)
  end.

(** *** Numbers *)

(** An integer or a finite float. *)
Definition is_number (v : value) : bool :=
  match v with
  | VInt _ => true
  | VFloat f =>
      match Prim2SF f with
      | S754_zero _ | S754_finite _ _ _ => true
      | _ => false
      end
  | _ => false
  end.

(** [t] is the number [v] without its fractional part.  For the float
    [(-1)^s * m * 2^e], written as the fraction of [m * 2^max(e,0)] over
    [2^max(-e,0)], it is the [q] with [q <= fraction < q + 1], negated
    when the float is negative. *)
Definition is_truncation (v : value) (t : Z) : Prop :=
  match v with
  | VInt z => t = z
  | VFloat f =>
      match Prim2SF f with
      | S754_zero _ => t = 0
      | S754_finite s m e =>
          exists q,
            0 <= q
            /\ q * 2 ^ Z.max 0 (- e) <= Z.pos m * 2 ^ Z.max 0 e
               < (q + 1) * 2 ^ Z.max 0 (- e)
            /\ t = (if s then - q else q)
      | _ => False
      end
  | _ => False
  end.

(** *** States of the example client *)



(** The state after [food_by_id(123)] on a new client. *)
Definition demo_cached : world :=
  mk_world
    [mk_request "https://api.nal.usda.gov/fdc/v1/food/123" [("api_key", VStr "DEMO_KEY")]]
    [(mk_key 0 [VInt 123] [], apple_entry)] [] [].

(** ** The cached properties [json_spec] and [yaml_spec] *)

(** [functools.cached_property] keeps the value it computed in the
    [__dict__] of the instance, under the name of the property.  A
    session is a run state together with what the instances hold for
    the two properties. *)
Record session : Type := mk_session {
  net : world;
  json_spec_store : list (nat * value);
  yaml_spec_store : list (nat * string)
}.

Definition new_session : session := mk_session fresh [] [].

Fixpoint attr_find {A : Type} (i : nat) (store : list (nat * A)) : option A :=
  match store with
  | [] => None
  | (j, v) :: rest => if Nat.eqb j i then Some v else attr_find i rest
  end.

Section Specs.

Variable rt : runtime.
Variable self : FCAPI.

Local Open Scope monad_scope.

(** The function under [@cached_property] at line 154. *)
Definition json_spec_body : M value :=
  let url := urljoin base_url "json-spec" in
  let params := [("api_key", api_key self)] in
  response <- get rt (mk_request url params) ;;
  _ <- lift (check_response response) ;;
  lift (json_loads rt (text response)).

(** The function under [@cached_property] at line 165. *)
Definition yaml_spec_body : M string :=
  let url := urljoin base_url "yaml-spec" in
  let params := [("api_key", api_key self)] in
  response <- get rt (mk_request url params) ;;
  _ <- lift (check_response response) ;;
  ret (text response).

(** [cached_property.__get__]: the value the instance holds, or else the
    value the function returns, which the instance then holds.  A call
    that raises leaves nothing behind. *)
Definition cached_property {A : Type}
  (store : session -> list (nat * A)) (put : list (nat * A) -> session -> session)
  (f : M A) : session -> result A * session :=
  fun s =>
    match attr_find (instance self) (store s) with
    | Some v => (Ok v, s)
    | None =>
        match f (net s) with
        | (Ok v, w) =>
            let s' := mk_session w (json_spec_store s) (yaml_spec_store s) in
            (Ok v, put (store s' ++ [(instance self, v)])%list s')
        | (Err e, w) => (Err e, mk_session w (json_spec_store s) (yaml_spec_store s))
        end
    end.

Definition json_spec : session -> result value * session :=
  cached_property json_spec_store
    (fun t s => mk_session (net s) t (yaml_spec_store s)) json_spec_body.

Definition yaml_spec : session -> result string * session :=
  cached_property yaml_spec_store
    (fun t s => mk_session (net s) (json_spec_store s) t) yaml_spec_body.

End Specs.

(** What a program does with a client: it calls a memoized method or
    reads one of the two properties. *)
Inductive action : Type :=
| Invoke (c : invocation)
| Read_json_spec (self : FCAPI)
| Read_yaml_spec (self : FCAPI).

Definition step (rt : runtime) (a : action) (s : session) : session :=
  match a with
  | Invoke c =>
      mk_session
        (snd (call rt (inv_method c) (inv_self c) (inv_args c) (inv_kwds c) (net s)))
        (json_spec_store s) (yaml_spec_store s)
  | Read_json_spec self => snd (json_spec rt self s)
  | Read_yaml_spec self => snd (yaml_spec rt self s)
  end.

Fixpoint run_session (rt : runtime) (actions : list action) (s : session) : session :=
  match actions with
  | [] => s
  | a :: rest => run_session rt rest (step rt a s)
  end.

(** *** Requests *)

(** The request [food_by_id] builds for an id and the content of
    [**kwargs]. *)
Definition food_request (rt : runtime) (self : FCAPI) (food_id : value) (kwargs : dict)
  : request :=
  mk_request (base_url ++ "food/" ++ py_str rt food_id)
    (dict_update [("api_key", api_key self)] kwargs).

(** The request the function under [foods_by_id] builds. *)
Definition foods_request (rt : runtime) (self : FCAPI) (ids : list value) (kwargs : dict)
  : request :=
  mk_request (base_url ++ "foods")
    (dict_update
       [("api_key", api_key self);
        ("fdcIds", VStr (String.concat "," (map (py_str rt) ids)))]
       kwargs).

(** A request goes to a path under [base_url] and carries an [api_key]
    parameter. *)
Definition well_addressed (r : request) : Prop :=
  String.prefix base_url (url r) = true /\ dict_get "api_key" (params r) <> None.

(** *** The tables as one *)

Definition method_eqb (m m' : method) : bool :=
  match m, m' with
  | Food_by_id, Food_by_id => true
  | Foods_by_id, Foods_by_id => true
  | Search_food_by_query, Search_food_by_query => true
  | _, _ => false
  end.

(** The table of a method, its results seen as outcomes. *)
Definition table_of (m : method) (w : world) : list (key * outcome) :=
  match m with
  | Food_by_id => map (fun kr => (fst kr, Entry (snd kr))) (food_by_id_cache w)
  | Foods_by_id => map (fun kr => (fst kr, Entries (snd kr))) (foods_by_id_cache w)
  | Search_food_by_query =>
      map (fun kr => (fst kr, Entries (snd kr))) (search_food_by_query_cache w)
  end.


(** *** Decoding of [fdcIds] *)

(** The pieces of [s] between the occurrences of [sep]. *)
Fixpoint split_on (sep : ascii) (s : string) : list string :=
  match s with
  | EmptyString => [EmptyString]
  | String c rest =>
      if Ascii.eqb c sep then EmptyString :: split_on sep rest
      else
        match split_on sep rest with
        | piece :: pieces => String c piece :: pieces
        | [] => [String c EmptyString]
        end
  end.

(** The integer a decimal numeral denotes. *)
Definition int_of_decimal (s : string) : option Z :=
  option_map Z.of_int (NilZero.int_of_string s).

Fixpoint all_some {A : Type} (l : list (option A)) : option (list A) :=
  match l with
  | [] => Some []
  | Some x :: rest => option_map (cons x) (all_some rest)
  | None :: _ => None
  end.

(** The ids a server reads in an [fdcIds] parameter. *)
Definition ids_of_fdcIds (s : string) : option (list Z) :=
  match s with
  | EmptyString => Some []
  | _ => all_some (map int_of_decimal (split_on "," s))
  end.

(** *** Effects on the log of requests *)

(** The request for the JSON specification and the one for the YAML
    specification. *)
Definition json_spec_request (self : FCAPI) : request :=
  mk_request (base_url ++ "json-spec") [("api_key", api_key self)].

Definition yaml_spec_request (self : FCAPI) : request :=
  mk_request (base_url ++ "yaml-spec") [("api_key", api_key self)].

(** What a function does to the state: nothing, or one well-addressed
    request more. *)
Definition one_request_at_most (w w' : world) : Prop :=
  w' = w
  \/ exists req,
       well_addressed req
       /\ w' = mk_world (sent w ++ [req])%list (food_by_id_cache w) (foods_by_id_cache w)
                (search_food_by_query_cache w).

(** The log of requests is left as it was or gets one well-addressed
    request more. *)
Definition sends_at_most_one (l l' : list request) : Prop :=
  l' = l \/ exists req, well_addressed req /\ l' = (l ++ [req])%list.

(** The server did not answer [req] with a response of status 200: the
    transport raised, or the status is another one. *)
Definition not_answered (rt : runtime) (history : list request) (req : request) : Prop :=
  match requests_get rt history req with
  | Ok resp => status_code resp <> 200
  | Err _ => True
  end.

(** The exception an exchange fails with: the one the transport raised,
    or the one [check_response] raises for the status of the answer. *)
Definition failure (rt : runtime) (history : list request) (req : request) : option exn :=
  match requests_get rt history req with
  | Err e => Some e
  | Ok resp =>
      match check_response resp with
      | Err e => Some e
      | Ok _ => None
      end
  end.

(** The exception a call raised, if it raised. *)
Definition error_of {A : Type} (r : result A) : option exn :=
  match r with
  | Ok _ => None
  | Err e => Some e
  end.

(** The exception an action ends in, if it raises. *)
Definition raised (rt : runtime) (a : action) (s : session) : option exn :=
  match a with
  | Invoke c =>
      error_of (fst (call rt (inv_method c) (inv_self c) (inv_args c) (inv_kwds c) (net s)))
  | Read_json_spec self => error_of (fst (json_spec rt self s))
  | Read_yaml_spec self => error_of (fst (yaml_spec rt self s))
  end.

(** The runtime [rt] with another [json.loads] in the place of its
    own. *)
Definition with_json_loads (rt : runtime) (decode : string -> result value) : runtime :=
  mk_runtime (int_of_str rt) (str_of_other rt) (do_lower rt) decode (requests_get rt).

(** *** Invariants of a session *)

(** The client an action is about. *)
Definition client_of (a : action) : FCAPI :=
  match a with
  | Invoke c => inv_self c
  | Read_json_spec self => self
  | Read_yaml_spec self => self
  end.

(** No entry of the tables and no document belongs to instance [i]. *)
Definition unknown_to (i : nat) (s : session) : Prop :=
  (forall m, Forall (fun kr => key_self (fst kr) <> i) (table_of m (net s)))
  /\ Forall (fun jv => fst jv <> i) (json_spec_store s)
  /\ Forall (fun jv => fst jv <> i) (yaml_spec_store s).

(** The keys of a table can all be hashed and no two of them are
    equal. *)
Definition each_key_once {A : Type} (table : list (key * A)) : Prop :=
  Forall (fun kr => key_unhashable (fst kr) = None) table
  /\ ForallOrdPairs (fun a b => key_eqb (fst a) (fst b) = false) table.

(** The three tables keep every key once, and every instance holds at
    most one document of each kind. *)
Definition tidy (s : session) : Prop :=
  each_key_once (food_by_id_cache (net s))
  /\ each_key_once (foods_by_id_cache (net s))
  /\ each_key_once (search_food_by_query_cache (net s))
  /\ NoDup (map fst (json_spec_store s))
  /\ NoDup (map fst (yaml_spec_store s)).

(** *** Commas *)

Fixpoint comma_free (s : string) : bool :=
  match s with
  | EmptyString => true
  | String c rest => negb (Ascii.eqb c ",") && comma_free rest
  end.

(** *** A server with the specifications *)

(** A runtime whose server has both specifications. *)
Definition spec_runtime : runtime :=
  mk_runtime
    (fun s => Err (ValueError ("invalid literal for int() with base 10: '" ++ s ++ "'")))
    (fun _ => "<object>")
    latin1_lower
    (fun s =>
       if String.eqb s "{'openapi': '3.0.0'}" then Ok (VDict [("openapi", VStr "3.0.0")])
       else Err (ValueError "Expecting value: line 1 column 1 (char 0)"))
    (fun _ r =>
       if String.eqb (url r) (base_url ++ "json-spec") then
         Ok (mk_response 200 "{'openapi': '3.0.0'}")
       else if String.eqb (url r) (base_url ++ "yaml-spec") then
         Ok (mk_response 200 "openapi: 3.0.0")
       else Ok (mk_response 404 "")).

(** What a program does after its first read of a specification. *)
Definition spec_later : list action :=
  [Read_yaml_spec demo_client;
   Invoke (mk_invocation Food_by_id demo_client [VInt 123] []);
   Read_json_spec (mk_FCAPI 1 (VStr "OTHER_KEY"));
   Read_json_spec demo_client].

(** * Theorems *)

(** ** The example record *)

(** C8: [parse_json] maps the specification's example record, the apple,
    to exactly the dict the specification gives, and [FoodEntry.from_json]
    builds the entry with those six fields. *)
Theorem parse_json_apple : forall rt : runtime,
  parse_json rt apple = Ok apple_parsed /\ from_json rt apple = Ok apple_entry.
Proof.
  intro rt. split; reflexivity.
Qed.

(** ** [FoodEntry.__str__] *)

(** C10: [str] of any [FoodEntry] raises a [TypeError], because
    [__str__] returns [None]. *)
Theorem str_FoodEntry_fails : forall entry : FoodEntry,
  FoodEntry_str entry = VNone
  /\ str_FoodEntry entry = Err (TypeError "__str__ returned non-string (type NoneType)").
Proof.
  intro entry. split; reflexivity.
Qed.

(** ** [check_response] *)

Local Open Scope result_scope.

(** C4: [check_response] classifies every status code: 200 passes, 400
    raises the invalid-parameter error, 404 the not-found error, and any
    other code the unknown error.  In [food_by_id] the check is a gate:
    the body of the response is decoded and parsed after the check has
    passed, and not otherwise. *)
Theorem check_response_classifies : forall r : response,
  ((status_code r = 200 /\ check_response r = Ok true)
   \/ (status_code r = 400
       /\ check_response r
          = Err (ValueError "Apparently this request used an invalid parameter."))
   \/ (status_code r = 404
       /\ check_response r
          = Err (ValueError "The status code indicates that the food item was not found."))
   \/ (status_code r <> 200 /\ status_code r <> 400 /\ status_code r <> 404
       /\ check_response r
          = Err (RuntimeError "The status code indicates an unknown error.")))
  /\ forall (rt : runtime) (self : FCAPI) (n : Z) (w : world),
       fst (food_by_id_body rt self [VInt n] [] w)
       = (resp <- requests_get rt (sent w)
                    (mk_request (base_url ++ "food/" ++ str_of_int n)
                       [("api_key", api_key self)]) ;;
          _ <- check_response resp ;;
          data <- json_loads rt (text resp) ;;
          from_json rt data).
Proof.
  intro r. split.
  - unfold check_response.
    destruct (Z.eqb_spec (status_code r) 200) as [H200 | H200]; [left; auto |].
    destruct (Z.eqb_spec (status_code r) 400) as [H400 | H400]; [right; left; auto |].
    destruct (Z.eqb_spec (status_code r) 404) as [H404 | H404]; [right; right; left; auto |].
    right; right; right; auto.
  - intros rt self n w.
    unfold food_by_id_body, bind, lift, get; cbn.
    destruct (requests_get rt (sent w) _) as [resp | e]; cbn; [| reflexivity].
    destruct (check_response resp); cbn; [| reflexivity].
    destruct (json_loads rt (text resp)); reflexivity.
Qed.

Local Close Scope result_scope.

(** ** Binding of arguments *)

Lemma bind_positional_names : forall names args,
  map fst (bind_positional names args) = names.
Proof.
  induction names as [| n names IH]; intros args; [reflexivity |].
  destruct args; cbn; now rewrite IH.
Qed.

Lemma bind_positional_In : forall names args n v,
  In (n, Some v) (bind_positional names args) -> In v args.
Proof.
  induction names as [| n0 names IH]; intros args n v Hin; [contradiction |].
  destruct args as [| a args]; cbn in Hin.
  - destruct Hin as [Heq | Hin]; [discriminate | now apply IH in Hin].
  - destruct Hin as [Heq | Hin].
    + inversion Heq; subst. now left.
    + right. eauto.
Qed.

Lemma bind_keyword_None : forall sg k v sl,
  bind_keyword sg k v sl = None <-> existsb (String.eqb k) (map fst sl) = false.
Proof.
  intros sg k v. induction sl as [| [n b] rest IH]; cbn; [tauto |].
  rewrite (String.eqb_sym k n).
  destruct (String.eqb n k); cbn.
  - destruct b; split; discriminate.
  - rewrite <- IH. destruct (bind_keyword sg k v rest) as [[] |]; split; congruence.
Qed.

Lemma bind_keyword_Ok : forall sg k v sl sl',
  bind_keyword sg k v sl = Some (Ok sl') ->
  map fst sl' = map fst sl
  /\ forall n x, In (n, Some x) sl' -> In (n, Some x) sl \/ (n = k /\ x = v).
Proof.
  intros sg k v. induction sl as [| [n b] rest IH]; intros sl' H; cbn in H; [discriminate |].
  destruct (String.eqb_spec n k) as [-> | Hne].
  - destruct b; inversion H; subst; clear H. split; [reflexivity |].
    intros n x [Heq | Hin]; [inversion Heq; subst; auto | left; now right].
  - destruct (bind_keyword sg k v rest) as [[rest' | e] |]; inversion H; subst; clear H.
    destruct (IH rest' eq_refl) as [Hnames Hsrc]. split; [cbn; now rewrite Hnames |].
    intros n0 x [Heq | Hin]; [left; now left |].
    destruct (Hsrc _ _ Hin) as [? | ?]; [left; now right | now right].
Qed.

(** With a [**kwargs], the keywords that name no parameter are collected
    in the order of the call, and a bound argument was passed by the
    caller, by position or by keyword. *)
Lemma bind_keywords_Ok : forall sg kwds sl extra sl' extra',
  var_keyword sg = true ->
  bind_keywords sg kwds sl extra = Ok (sl', extra') ->
  map fst sl' = map fst sl
  /\ extra' = (extra ++ filter (fun kv => negb (is_parameter (map fst sl) kv)) kwds)%list
  /\ forall n x, In (n, Some x) sl' -> In (n, Some x) sl \/ In (n, x) kwds.
Proof.
  intros sg kwds. induction kwds as [| [k v] rest IH]; intros sl extra sl' extra' Hvar H.
  - cbn in H. inversion H; subst. rewrite app_nil_r. auto.
  - cbn in H. destruct (String.eqb k "self"); [discriminate |].
    destruct (bind_keyword sg k v sl) as [[sl1 | e] |] eqn:Hk; [| discriminate |].
    + destruct (bind_keyword_Ok _ _ _ _ _ Hk) as [Hnames Hsrc].
      destruct (IH _ _ _ _ Hvar H) as (Hnames' & Hextra & Hsrc').
      assert (Hpar : is_parameter (map fst sl) (k, v) = true).
      { unfold is_parameter; cbn.
        destruct (existsb (String.eqb k) (map fst sl)) eqn:E; [reflexivity |].
        apply bind_keyword_None with (sg := sg) (v := v) in E. congruence. }
      repeat split.
      * congruence.
      * cbn [filter]. rewrite Hpar. cbn. now rewrite Hextra, Hnames.
      * intros n x Hin. destruct (Hsrc' _ _ Hin) as [Hin' | Hin']; [| right; now right].
        destruct (Hsrc _ _ Hin') as [? | [-> ->]]; [now left | right; now left].
    + rewrite Hvar in H.
      destruct (IH _ _ _ _ Hvar H) as (Hnames' & Hextra & Hsrc').
      assert (Hpar : is_parameter (map fst sl) (k, v) = false).
      { unfold is_parameter; cbn. now apply (bind_keyword_None sg k v). }
      repeat split.
      * assumption.
      * cbn [filter]. rewrite Hpar. cbn. now rewrite Hextra, <- app_assoc.
      * intros n x Hin. destruct (Hsrc' _ _ Hin); [now left | right; now right].
Qed.

(** Keywords cannot rebind parameters that all came by position. *)
Lemma bind_keyword_full : forall sg k v sl sl',
  Forall (fun s => snd s <> None) sl ->
  bind_keyword sg k v sl <> Some (Ok sl').
Proof.
  intros sg k v sl. induction sl as [| [n b] rest IH]; intros sl' Hfull; cbn; [discriminate |].
  inversion Hfull as [| ? ? Hb Hrest]; subst. cbn in Hb.
  destruct (String.eqb n k).
  - destruct b; [discriminate | contradiction].
  - destruct (bind_keyword sg k v rest) as [[rest' | e] |] eqn:Hk; try discriminate.
    exfalso. now apply (IH rest').
Qed.

Lemma bind_keywords_full : forall sg kwds sl extra sl' extra',
  Forall (fun s => snd s <> None) sl ->
  bind_keywords sg kwds sl extra = Ok (sl', extra') ->
  sl' = sl.
Proof.
  intros sg kwds. induction kwds as [| [k v] rest IH]; intros sl extra sl' extra' Hfull H.
  - cbn in H. now inversion H.
  - cbn in H. destruct (String.eqb k "self"); [discriminate |].
    destruct (bind_keyword sg k v sl) as [[sl1 | e] |] eqn:Hk; [| discriminate |].
    + exfalso. now apply (bind_keyword_full sg k v sl sl1).
    + destruct (var_keyword sg); [eauto | discriminate].
Qed.

Lemma fill_defaults_In : forall sg sl bound n v,
  defaults sg = [] ->
  fill_defaults sg sl = Ok bound ->
  dict_get n bound = Some v ->
  In (n, Some v) sl.
Proof.
  intros sg sl. induction sl as [| [n0 b] rest IH]; intros bound n v Hdef H Hget.
  - cbn in H. inversion H; subst. discriminate.
  - cbn in H. rewrite Hdef in H. cbn in H.
    destruct b as [x |]; [| discriminate].
    destruct (fill_defaults sg rest) as [bound' | e] eqn:Hrest; [| discriminate].
    inversion H; subst; clear H. cbn in Hget.
    destruct (String.eqb_spec n0 n) as [-> | Hne].
    + inversion Hget; subst. now left.
    + right. eauto.
Qed.

(** An argument bound by a signature without defaults is one of the
    values of the call. *)
Lemma bind_arguments_passed : forall sg args kwds bound kwargs n v,
  var_keyword sg = true ->
  defaults sg = [] ->
  bind_arguments sg args kwds = Ok (bound, kwargs) ->
  dict_get n bound = Some v ->
  In v (args ++ map snd kwds)%list.
Proof.
  intros sg args kwds bound kwargs n v Hvar Hdef H Hget.
  unfold bind_arguments in H.
  destruct (bind_keywords sg kwds _ []) as [[sl extra] | e] eqn:Hk; [| discriminate].
  destruct (_ <? _)%nat; [discriminate |].
  destruct (fill_defaults sg sl) as [bound' | e] eqn:Hfill; [| discriminate].
  inversion H; subst; clear H.
  pose proof (fill_defaults_In _ _ _ _ _ Hdef Hfill Hget) as Hin.
  destruct (bind_keywords_Ok _ _ _ _ _ _ Hvar Hk) as (_ & _ & Hsrc).
  apply in_or_app. destruct (Hsrc _ _ Hin) as [Hpos | Hkw].
  - left. eapply bind_positional_In; eauto.
  - right. change v with (snd (n, v)). now apply in_map.
Qed.

(** The content of [**kwargs]: the keywords of the call that name no
    parameter, in the order of the call. *)
Lemma bind_arguments_kwargs : forall sg args kwds bound kwargs,
  var_keyword sg = true ->
  bind_arguments sg args kwds = Ok (bound, kwargs) ->
  kwargs = filter (fun kv => negb (is_parameter (parameters sg) kv)) kwds.
Proof.
  intros sg args kwds bound kwargs Hvar H.
  unfold bind_arguments in H.
  destruct (bind_keywords sg kwds _ []) as [[sl extra] | e] eqn:Hk; [| discriminate].
  destruct (_ <? _)%nat; [discriminate |].
  destruct (fill_defaults sg sl) as [bound' | e] eqn:Hfill; [| discriminate].
  inversion H; subst; clear H.
  destruct (bind_keywords_Ok _ _ _ _ _ _ Hvar Hk) as (_ & Hextra & _).
  now rewrite bind_positional_names in Hextra.
Qed.

(** A call that cannot be bound raises a [TypeError]. *)
Lemma bind_keyword_Err : forall sg k v sl e,
  bind_keyword sg k v sl = Some (Err e) -> exists msg, e = TypeError msg.
Proof.
  intros sg k v. induction sl as [| [n b] rest IH]; intros e H; cbn in H; [discriminate |].
  destruct (String.eqb n k).
  - destruct b; inversion H; eauto.
  - destruct (bind_keyword sg k v rest) as [[rest' | e'] |]; inversion H; subst; eauto.
Qed.

Lemma bind_arguments_Err : forall sg args kwds e,
  bind_arguments sg args kwds = Err e -> exists msg, e = TypeError msg.
Proof.
  intros sg args kwds e H. unfold bind_arguments in H.
  destruct (bind_keywords sg kwds _ []) as [[sl extra] | e'] eqn:Hk.
  - destruct (_ <? _)%nat; [inversion H; eauto |].
    destruct (fill_defaults sg sl) as [bound | e''] eqn:Hfill; [discriminate |].
    inversion H; subst; clear H Hk. revert e Hfill.
    induction sl as [| [n b] rest IH]; intros e Hfill; cbn in Hfill; [discriminate |].
    destruct (match b with Some v => Some v | None => dict_get n (defaults sg) end);
      [| inversion Hfill; eauto].
    destruct (fill_defaults sg rest); [discriminate | inversion Hfill; subst; eauto].
  - inversion H; subst; clear H. revert Hk.
    generalize (bind_positional (parameters sg) args) as sl.
    generalize (@nil (string * value)) as extra.
    induction kwds as [| [k v] rest IH]; intros extra sl Hk; cbn in Hk; [discriminate |].
    destruct (String.eqb k "self"); [inversion Hk; eauto |].
    destruct (bind_keyword sg k v sl) as [[sl1 | e1] |] eqn:Hb.
    + eauto.
    + inversion Hk; subst. eapply bind_keyword_Err; eauto.
    + destruct (var_keyword sg); [eauto | inversion Hk; eauto].
Qed.

(** ** Hashing of keys *)

Lemma first_unhashable_In : forall l v t,
  In v l -> unhashable v = Some t -> exists t', first_unhashable l = Some t'.
Proof.
  induction l as [| x rest IH]; intros v t Hin Hv; [contradiction |].
  cbn. destruct Hin as [-> | Hin].
  - rewrite Hv. eauto.
  - destruct (unhashable x); eauto.
Qed.

(** A call whose key cannot be hashed raises before the table is read
    and before the wrapped function runs, whatever that function is. *)
Lemma cached_unhashable :
  forall (A : Type) table store (f : list value -> dict -> M A) self args kwds w t,
  key_unhashable (mk_key self args kwds) = Some t ->
  cached table store f self args kwds w
  = (Err (TypeError ("unhashable type: '" ++ t ++ "'")), w).
Proof.
  intros A table store f self args kwds w t H. unfold cached. now rewrite H.
Qed.

(** ** [foods_by_id] *)

(** The function under the decorator does refuse a list of more than
    twenty ids, with a [ValueError] and without sending anything. *)
Lemma foods_by_id_body_too_long : forall rt self ids kwds w,
  (20 < List.length ids)%nat ->
  is_ok (bind_arguments foods_by_id_signature [VList ids] kwds) = true ->
  foods_by_id_body rt self [VList ids] kwds w
  = (Err (ValueError "food_ids must be a list of length <= 20"), w).
Proof.
  intros rt self ids kwds w Hlen Hbind.
  destruct (bind_arguments foods_by_id_signature [VList ids] kwds)
    as [[bound kwargs] | e] eqn:Hb; [| discriminate].
  assert (Hids : argument "food_ids" bound = VList ids).
  { unfold bind_arguments in Hb.
    destruct (bind_keywords _ kwds _ []) as [[sl extra] |] eqn:Hk; [| discriminate].
    apply bind_keywords_full in Hk; [| repeat constructor; discriminate].
    subst sl. cbn in Hb. inversion Hb; subst. reflexivity. }
  unfold foods_by_id_body, bind, lift, raise. rewrite Hb. cbn [fst snd].
  rewrite Hids. apply Nat.ltb_lt in Hlen. now rewrite Hlen.
Qed.

(** With a key that can be hashed, the function under the decorator gets
    no list, raises a [TypeError] and sends nothing. *)
Lemma foods_by_id_body_hashable : forall rt self args kwds w,
  key_unhashable (mk_key (instance self) args kwds) = None ->
  exists msg, foods_by_id_body rt self args kwds w = (Err (TypeError msg), w).
Proof.
  intros rt self args kwds w Hhash.
  unfold foods_by_id_body, bind, lift, raise.
  destruct (bind_arguments foods_by_id_signature args kwds) as [[bound kwargs] | e] eqn:Hb.
  - cbn [fst snd]. unfold argument.
    destruct (dict_get "food_ids" bound) as [v |] eqn:Hget; [| eauto].
    destruct v; eauto. exfalso.
    assert (Hin : In (VList items) (args ++ map snd kwds)%list).
    { apply (bind_arguments_passed foods_by_id_signature args kwds bound kwargs "food_ids");
        auto. }
    destruct (first_unhashable_In _ _ "list" Hin eq_refl) as [t Ht].
    unfold key_unhashable in Hhash. cbn in Hhash. congruence.
  - destruct (bind_arguments_Err _ _ _ _ Hb) as [msg ->]. eauto.
Qed.

(** The public [foods_by_id] never sends a request, and unless its table
    already holds the key, which no call can bring about from an empty
    table, it raises a [TypeError]. *)
Lemma foods_by_id_sends_nothing : forall rt self args kwds w,
  snd (foods_by_id rt self args kwds w) = w
  /\ (cache_find (mk_key (instance self) args kwds) (foods_by_id_cache w) = None ->
      exists msg, fst (foods_by_id rt self args kwds w) = Err (TypeError msg)).
Proof.
  intros rt self args kwds w. unfold foods_by_id, cached. cbv zeta.
  destruct (key_unhashable _) as [t |] eqn:Hhash.
  - split; [reflexivity |]. intros _. cbn. eauto.
  - destruct (foods_by_id_body_hashable rt self args kwds w Hhash) as [msg Hbody].
    rewrite Hbody.
    destruct (cache_find (mk_key (instance self) args kwds) (foods_by_id_cache w)).
    + split; [reflexivity | discriminate].
    + split; [reflexivity |]. intros _. cbn. eauto.
Qed.

(** C1: the public [foods_by_id], called on a list of twenty-one ids,
    raises the [TypeError] of the memoization wrapper, not the
    [ValueError] of the length check, which only the undecorated function
    reaches.  No request is sent either way. *)
Theorem foods_by_id_twenty_one_ids : forall (rt : runtime) (self : FCAPI) (w : world),
  foods_by_id rt self [VList twenty_one_ids] [] w
  = (Err (TypeError "unhashable type: 'list'"), w)
  /\ foods_by_id_body rt self [VList twenty_one_ids] [] w
     = (Err (ValueError "food_ids must be a list of length <= 20"), w).
Proof.
  intros rt self w. split.
  - unfold foods_by_id.
    apply (cached_unhashable _ _ _ _ _ [VList twenty_one_ids] [] w "list"). reflexivity.
  - apply foods_by_id_body_too_long; [cbn; lia | reflexivity].
Qed.

(** C2: whenever a call of the public [foods_by_id] binds [food_ids] to a
    list, by position or by keyword, the memoization wrapper raises the
    [TypeError] of an unhashable argument and leaves the state as it
    was: nothing is sent and nothing is stored.  The wrapper raises it
    whatever function it wraps, so neither check of the body runs; for a
    list passed by position the unhashable type named is [list].  No call
    of the public method, on any arguments, ends in the [ValueError] of
    the length check. *)
Theorem foods_by_id_list_unhashable :
  forall (rt : runtime) (self : FCAPI) (args : list value) (kwds : dict) (w : world)
         (bound kwargs : dict) (ids : list value),
  bind_arguments foods_by_id_signature args kwds = Ok (bound, kwargs) ->
  argument "food_ids" bound = VList ids ->
  (exists t,
     foods_by_id rt self args kwds w
     = (Err (TypeError ("unhashable type: '" ++ t ++ "'")), w)
     /\ forall f : list value -> dict -> M (list FoodEntry),
          cached foods_by_id_cache
            (fun t w =>
               mk_world (sent w) (food_by_id_cache w) t (search_food_by_query_cache w))
            f (instance self) args kwds w
          = (Err (TypeError ("unhashable type: '" ++ t ++ "'")), w))
  /\ (args = [VList ids] ->
      foods_by_id rt self args kwds w = (Err (TypeError "unhashable type: 'list'"), w))
  /\ (forall args0 kwds0 w0,
        fst (foods_by_id rt self args0 kwds0 w0)
        <> Err (ValueError "food_ids must be a list of length <= 20")).
Proof.
  intros rt self args kwds w bound kwargs ids Hbind Hids. split; [| split].
  - assert (Hget : dict_get "food_ids" bound = Some (VList ids)).
    { unfold argument in Hids. destruct (dict_get "food_ids" bound); [congruence | discriminate]. }
    assert (Hin : In (VList ids) (args ++ map snd kwds)%list).
    { apply (bind_arguments_passed foods_by_id_signature args kwds bound kwargs "food_ids");
        auto. }
    destruct (first_unhashable_In _ _ "list" Hin eq_refl) as [t Ht].
    exists t. split; [unfold foods_by_id |]; intros; now apply cached_unhashable.
  - intros ->. unfold foods_by_id.
    apply (cached_unhashable _ _ _ _ _ [VList ids] kwds w "list"). reflexivity.
  - intros args0 kwds0 w0. unfold foods_by_id, cached. cbv zeta.
    destruct (key_unhashable _) as [t |] eqn:Hhash; [discriminate |].
    destruct (foods_by_id_body_hashable rt self args0 kwds0 w0 Hhash) as [msg Hbody].
    rewrite Hbody.
    destruct (cache_find (mk_key (instance self) args0 kwds0) (foods_by_id_cache w0));
      discriminate.
Qed.

(** A call by position and a call by keyword, both on a list of three
    ids. *)
Lemma foods_by_id_list_unhashable_witness :
  (exists t,
     foods_by_id demo_runtime demo_client [VList [VInt 1; VInt 2; VInt 3]] [] fresh
     = (Err (TypeError ("unhashable type: '" ++ t ++ "'")), fresh)
     /\ forall f : list value -> dict -> M (list FoodEntry),
          cached foods_by_id_cache
            (fun t w =>
               mk_world (sent w) (food_by_id_cache w) t (search_food_by_query_cache w))
            f (instance demo_client) [VList [VInt 1; VInt 2; VInt 3]] [] fresh
          = (Err (TypeError ("unhashable type: '" ++ t ++ "'")), fresh))
  /\ ([VList [VInt 1; VInt 2; VInt 3]] = [VList [VInt 1; VInt 2; VInt 3]] ->
      foods_by_id demo_runtime demo_client [VList [VInt 1; VInt 2; VInt 3]] [] fresh
      = (Err (TypeError "unhashable type: 'list'"), fresh))
  /\ (forall args0 kwds0 w0,
        fst (foods_by_id demo_runtime demo_client args0 kwds0 w0)
        <> Err (ValueError "food_ids must be a list of length <= 20")).
Proof.
  apply (foods_by_id_list_unhashable demo_runtime demo_client
           [VList [VInt 1; VInt 2; VInt 3]] [] fresh
           [("food_ids", VList [VInt 1; VInt 2; VInt 3])] []
           [VInt 1; VInt 2; VInt 3]); reflexivity.
Defined.

(** ** Dictionaries *)

Lemma dict_get_set : forall k k' v d,
  dict_get k (dict_set k' v d)
  = if String.eqb k' k then Some v else dict_get k d.
Proof.
  intros k k' v. induction d as [| [k0 v0] rest IH]; cbn.
  - reflexivity.
  - destruct (String.eqb_spec k0 k') as [-> | Hne]; cbn.
    + now destruct (String.eqb k' k).
    + rewrite IH. destruct (String.eqb_spec k0 k) as [-> | Hne'].
      * destruct (String.eqb_spec k' k) as [-> | ?]; [contradiction | reflexivity].
      * reflexivity.
Qed.

Lemma dict_get_app : forall k d d',
  dict_get k (d ++ d')%list
  = match dict_get k d with
    | Some v => Some v
    | None => dict_get k d'
    end.
Proof.
  intros k. induction d as [| [k0 v0] rest IH]; intros d'; cbn; [reflexivity |].
  destruct (String.eqb k0 k); auto.
Qed.

(** After [d.update(other)] a key has the value [other] gave it last, and
    otherwise the value it had in [d]. *)
Lemma dict_get_update : forall k other d,
  dict_get k (dict_update d other)
  = match dict_get k (rev other) with
    | Some v => Some v
    | None => dict_get k d
    end.
Proof.
  intros k. unfold dict_update.
  induction other as [| [k0 v0] rest IH]; intros d; cbn; [reflexivity |].
  rewrite IH, dict_get_app, dict_get_set. cbn.
  destruct (dict_get k (rev rest)); [reflexivity |].
  now destruct (String.eqb k0 k).
Qed.

Lemma dict_set_keys_NoDup : forall k v d,
  NoDup (dict_keys d) -> NoDup (dict_keys (dict_set k v d)).
Proof.
  intros k v. unfold dict_keys.
  assert (Hin : forall d x, In x (map fst (dict_set k v d)) -> x = k \/ In x (map fst d)).
  { induction d as [| [k0 v0] rest IH]; cbn; intros x Hx.
    - destruct Hx as [<- | []]. now left.
    - destruct (String.eqb_spec k0 k) as [-> | Hne]; cbn in Hx.
      + destruct Hx; auto.
      + destruct Hx as [<- | Hx]; [auto | destruct (IH _ Hx); auto]. }
  induction d as [| [k0 v0] rest IH]; cbn; intros Hnd.
  - repeat constructor. intros [].
  - inversion Hnd as [| ? ? Hnotin Hnd']; subst.
    destruct (String.eqb_spec k0 k) as [-> | Hne]; cbn.
    + now constructor.
    + constructor; [| auto]. intros Hx. destruct (Hin _ _ Hx); congruence.
Qed.

Lemma dict_update_keys_NoDup : forall other d,
  NoDup (dict_keys d) -> NoDup (dict_keys (dict_update d other)).
Proof.
  unfold dict_update. induction other as [| [k v] rest IH]; intros d Hnd; cbn; [assumption |].
  apply IH. now apply dict_set_keys_NoDup.
Qed.

Lemma dict_get_filter_None : forall k (keep : string * value -> bool) d,
  (forall v, keep (k, v) = false) ->
  dict_get k (rev (filter keep d)) = None.
Proof.
  intros k keep d Hk.
  destruct (dict_get k (rev (filter keep d))) as [v |] eqn:Hget; [| reflexivity].
  exfalso.
  assert (Hin : In (k, v) (rev (filter keep d))).
  { revert Hget. generalize (rev (filter keep d)) as l.
    induction l as [| [k0 v0] rest IH]; cbn; [discriminate |].
    destruct (String.eqb_spec k0 k) as [-> | ?]; intros H.
    - inversion H; subst. now left.
    - right. auto. }
  apply in_rev, filter_In in Hin. rewrite Hk in Hin. destruct Hin; discriminate.
Qed.

(** ** [search_food_by_query] *)

Lemma search_food_by_query_body_sent : forall rt self args kwds w bound kwargs,
  bind_arguments search_food_by_query_signature args kwds = Ok (bound, kwargs) ->
  exists r,
    search_food_by_query_body rt self args kwds w
    = (r, mk_world (sent w ++ [search_request self kwargs])%list (food_by_id_cache w)
            (foods_by_id_cache w) (search_food_by_query_cache w)).
Proof.
  intros rt self args kwds w bound kwargs Hbind.
  unfold search_food_by_query_body, bind, lift, get. rewrite Hbind. cbn.
  fold (search_request self kwargs).
  destruct (requests_get rt (sent w) _) as [resp | e]; cbn; [| eauto].
  destruct (check_response resp); cbn; [| eauto].
  destruct (json_loads rt (text resp)) as [data | e]; cbn; [| eauto].
  destruct (getitem data "foods") as [foods | e]; cbn; [| eauto].
  destruct (iterate foods) as [xs | e]; cbn; eauto.
Qed.

(** C3: whenever a call of [search_food_by_query] binds its arguments, the
    only request it can send is the one to [foods/search] whose parameters
    are the dict holding [api_key] updated with the extra keyword options;
    it does send it when the key is hashable and not in the table.  The
    extra options are the keywords other than [query] and [brand], so the
    parameters have neither key, hold every extra option and otherwise
    only [api_key], and a call with other values of [query] and [brand]
    builds the same request. *)
Theorem search_food_by_query_request :
  forall (rt : runtime) (self : FCAPI) (args : list value) (kwds : dict) (w : world)
         (bound kwargs : dict),
  bind_arguments search_food_by_query_signature args kwds = Ok (bound, kwargs) ->
  let req :=
    mk_request (base_url ++ "foods/search")
      (dict_update [("api_key", api_key self)] kwargs) in
  let sent_by := fun args kwds w => sent (snd (search_food_by_query rt self args kwds w)) in
  (sent_by args kwds w = sent w \/ sent_by args kwds w = (sent w ++ [req])%list)
  /\ (key_unhashable (mk_key (instance self) args kwds) = None ->
      cache_find (mk_key (instance self) args kwds) (search_food_by_query_cache w) = None ->
      sent_by args kwds w = (sent w ++ [req])%list)
  /\ kwargs = filter (fun kv => negb (is_parameter ["query"; "brand"] kv)) kwds
  /\ dict_get "query" (params req) = None
  /\ dict_get "brand" (params req) = None
  /\ NoDup (dict_keys (params req))
  /\ (forall k,
        dict_get k (params req)
        = match dict_get k (rev kwargs) with
          | Some v => Some v
          | None => if String.eqb k "api_key" then Some (api_key self) else None
          end)
  /\ (forall args' kwds' bound' kwargs' w0,
        bind_arguments search_food_by_query_signature args' kwds' = Ok (bound', kwargs') ->
        filter (fun kv => negb (is_parameter ["query"; "brand"] kv)) kwds'
        = filter (fun kv => negb (is_parameter ["query"; "brand"] kv)) kwds ->
        sent_by args' kwds' w0 = sent w0
        \/ sent_by args' kwds' w0 = (sent w0 ++ [req])%list).
Proof.
  intros rt self args kwds w bound kwargs Hbind req sent_by.
  assert (Hsent : forall args kwds w bound,
            bind_arguments search_food_by_query_signature args kwds = Ok (bound, kwargs) ->
            (sent_by args kwds w = sent w \/ sent_by args kwds w = (sent w ++ [req])%list)
            /\ (key_unhashable (mk_key (instance self) args kwds) = None ->
                cache_find (mk_key (instance self) args kwds)
                  (search_food_by_query_cache w) = None ->
                sent_by args kwds w = (sent w ++ [req])%list)).
  { clear. intros args kwds w bound Hbind.
    destruct (search_food_by_query_body_sent rt self args kwds w bound kwargs Hbind)
      as [r Hbody].
    unfold sent_by, search_food_by_query, cached. rewrite Hbody.
    destruct (key_unhashable _) as [t |]; [split; [auto | discriminate] |].
    destruct (cache_find _ _) as [hit |]; [split; [auto | discriminate] |].
    destruct r; cbn; auto. }
  pose proof (bind_arguments_kwargs search_food_by_query_signature _ _ _ _ eq_refl Hbind)
    as Hkw.
  change (parameters search_food_by_query_signature) with ["query"; "brand"] in Hkw.
  assert (Hget : forall k,
            dict_get k (params req)
            = match dict_get k (rev kwargs) with
              | Some v => Some v
              | None => if String.eqb k "api_key" then Some (api_key self) else None
              end).
  { intro k. unfold req. cbn [params]. rewrite dict_get_update. cbn.
    now rewrite (String.eqb_sym k). }
  destruct (Hsent args kwds w bound Hbind) as [H1 H2].
  repeat split; auto.
  - rewrite Hget, Hkw, dict_get_filter_None; reflexivity.
  - rewrite Hget, Hkw, dict_get_filter_None; reflexivity.
  - unfold req. cbn [params]. apply dict_update_keys_NoDup. repeat constructor; intros [].
  - intros args' kwds' bound' kwargs' w0 Hbind' Hsame.
    pose proof (bind_arguments_kwargs search_food_by_query_signature _ _ _ _ eq_refl Hbind')
      as Hkw'.
    change (parameters search_food_by_query_signature) with ["query"; "brand"] in Hkw'.
    assert (Heq : kwargs' = kwargs) by congruence.
    rewrite Heq in Hbind'.
    now destruct (Hsent args' kwds' w0 bound' Hbind').
Qed.

(** ** Equality of keys *)

Lemma number_eqb_sym : forall a b, number_eqb a b = number_eqb b a.
Proof.
  intros [m e | s |] [m' e' | s' |]; cbn; try reflexivity.
  - now rewrite (Z.eqb_sym m), (Z.eqb_sym e).
  - now destruct s, s'.
Qed.

Lemma number_eqb_trans : forall a b c,
  number_eqb a b = true -> number_eqb b c = true -> number_eqb a c = true.
Proof.
  intros [m e | s |] [m' e' | s' |] [m'' e'' | s'' |]; cbn; try discriminate.
  - rewrite !andb_true_iff, !Z.eqb_eq. intros [-> ->] [-> ->]. auto.
  - destruct s, s', s''; auto.
Qed.

Lemma component_eqb_tuple : forall l l',
  component_eqb (VTuple l) (VTuple l') = components_eqb l l'.
Proof.
  intros l l'. destruct l, l'; reflexivity.
Qed.

Lemma unhashable_tuple : forall l, unhashable (VTuple l) = first_unhashable l.
Proof.
  intros l. destruct l; reflexivity.
Qed.

(** A number compares through its exact value, against anything. *)
Lemma component_eqb_number_l : forall v w a,
  number_of v = Some a ->
  component_eqb v w
  = match number_of w with
    | Some b => number_eqb a b
    | None => false
    end.
Proof.
  intros v w a Hv. destruct v; try discriminate; cbn in Hv; inversion Hv; subst;
    destruct w; reflexivity.
Qed.

Lemma component_eqb_number_r : forall v w b,
  number_of w = Some b ->
  component_eqb v w
  = match number_of v with
    | Some a => number_eqb a b
    | None => false
    end.
Proof.
  intros v w b Hw. destruct w; try discriminate; cbn in Hw; inversion Hw; subst;
    destruct v; reflexivity.
Qed.

Lemma component_eqb_sym : forall v w, component_eqb v w = component_eqb w v.
Proof.
  induction v as [| b | z | f | s | items IH | items IH | items IH]; intros w.
  - destruct w; reflexivity.
  - rewrite (component_eqb_number_l (VBool b) w _ eq_refl),
      (component_eqb_number_r w (VBool b) _ eq_refl).
    destruct (number_of w); [apply number_eqb_sym | reflexivity].
  - rewrite (component_eqb_number_l (VInt z) w _ eq_refl),
      (component_eqb_number_r w (VInt z) _ eq_refl).
    destruct (number_of w); [apply number_eqb_sym | reflexivity].
  - rewrite (component_eqb_number_l (VFloat f) w _ eq_refl),
      (component_eqb_number_r w (VFloat f) _ eq_refl).
    destruct (number_of w); [apply number_eqb_sym | reflexivity].
  - destruct w; try reflexivity. cbn. apply String.eqb_sym.
  - destruct w; reflexivity.
  - destruct w as [| | | | | | items' |]; try reflexivity.
    rewrite !component_eqb_tuple. revert items'.
    induction IH as [| x Hx r Hr IHr]; intros [| y r']; try reflexivity.
    cbn. now rewrite Hx, IHr.
  - destruct w; reflexivity.
Qed.

Lemma component_eqb_trans : forall u v w,
  component_eqb u v = true -> component_eqb v w = true -> component_eqb u w = true.
Proof.
  induction u as [| b | z | f | s | items IH | items IH | items IH]; intros v w Huv Hvw.
  - destruct v; try discriminate. assumption.
  - rewrite (component_eqb_number_l (VBool b) v _ eq_refl) in Huv.
    rewrite (component_eqb_number_l (VBool b) w _ eq_refl).
    destruct (number_of v) as [n |] eqn:Hn; [| discriminate].
    rewrite (component_eqb_number_l v w _ Hn) in Hvw.
    destruct (number_of w); [eapply number_eqb_trans; eauto | discriminate].
  - rewrite (component_eqb_number_l (VInt z) v _ eq_refl) in Huv.
    rewrite (component_eqb_number_l (VInt z) w _ eq_refl).
    destruct (number_of v) as [n |] eqn:Hn; [| discriminate].
    rewrite (component_eqb_number_l v w _ Hn) in Hvw.
    destruct (number_of w); [eapply number_eqb_trans; eauto | discriminate].
  - rewrite (component_eqb_number_l (VFloat f) v _ eq_refl) in Huv.
    rewrite (component_eqb_number_l (VFloat f) w _ eq_refl).
    destruct (number_of v) as [n |] eqn:Hn; [| discriminate].
    rewrite (component_eqb_number_l v w _ Hn) in Hvw.
    destruct (number_of w); [eapply number_eqb_trans; eauto | discriminate].
  - destruct v; try discriminate. cbn in Huv. apply String.eqb_eq in Huv. now subst.
  - discriminate.
  - destruct v as [| | | | | | items' |]; try discriminate.
    destruct w as [| | | | | | items'' |]; try discriminate.
    rewrite !component_eqb_tuple in *. revert items' items'' Huv Hvw.
    induction IH as [| x Hx r Hr IHr]; intros [| y r'] [| z r'']; cbn; try discriminate; auto.
    rewrite !andb_true_iff. intros [H1 H2] [H3 H4]. split; eauto.
  - discriminate.
Qed.


Lemma components_eqb_sym : forall l l', components_eqb l l' = components_eqb l' l.
Proof.
  induction l as [| x r IH]; intros [| y r']; try reflexivity.
  cbn. now rewrite component_eqb_sym, IH.
Qed.

Lemma components_eqb_trans : forall l l' l'',
  components_eqb l l' = true -> components_eqb l' l'' = true ->
  components_eqb l l'' = true.
Proof.
  induction l as [| x r IH]; intros [| y r'] [| z r'']; cbn; try discriminate; auto.
  rewrite !andb_true_iff. intros [H1 H2] [H3 H4].
  split; [eapply component_eqb_trans | eapply IH]; eauto.
Qed.


Lemma kwds_eqb_sym : forall d d', kwds_eqb d d' = kwds_eqb d' d.
Proof.
  induction d as [| [k v] r IH]; intros [| [k' v'] r']; try reflexivity.
  cbn. now rewrite String.eqb_sym, component_eqb_sym, IH.
Qed.

Lemma kwds_eqb_trans : forall d d' d'',
  kwds_eqb d d' = true -> kwds_eqb d' d'' = true -> kwds_eqb d d'' = true.
Proof.
  induction d as [| [k v] r IH]; intros [| [k' v'] r'] [| [k'' v''] r''];
    cbn; try discriminate; auto.
  rewrite !andb_true_iff, !String.eqb_eq. intros [[-> H1] H2] [[-> H3] H4].
  repeat split; [eapply component_eqb_trans | eapply IH]; eauto.
Qed.


Lemma key_eqb_sym : forall a b, key_eqb a b = key_eqb b a.
Proof.
  intros a b. unfold key_eqb.
  now rewrite Nat.eqb_sym, components_eqb_sym, kwds_eqb_sym.
Qed.

Lemma key_eqb_trans : forall a b c,
  key_eqb a b = true -> key_eqb b c = true -> key_eqb a c = true.
Proof.
  intros a b c. unfold key_eqb. rewrite !andb_true_iff, !Nat.eqb_eq.
  intros [[-> H1] H2] [[-> H3] H4].
  repeat split; [eapply components_eqb_trans | eapply kwds_eqb_trans]; eauto.
Qed.



(** Two keys that compare equal find the same entry of a table. *)
Lemma cache_find_congruent : forall (A : Type) (a b : key) (table : list (key * A)),
  key_eqb a b = true -> cache_find a table = cache_find b table.
Proof.
  intros A a b table Hab. induction table as [| [k r] rest IH]; [reflexivity |].
  cbn. rewrite IH.
  assert (Hk : key_eqb k a = key_eqb k b).
  { destruct (key_eqb k a) eqn:Ha, (key_eqb k b) eqn:Hb; try reflexivity.
    - rewrite (key_eqb_trans _ _ _ Ha Hab) in Hb. discriminate.
    - rewrite key_eqb_sym in Hab. rewrite (key_eqb_trans _ _ _ Hb Hab) in Ha. discriminate. }
  now rewrite Hk.
Qed.

Lemma cache_find_app : forall (A : Type) (k : key) (table more : list (key * A)) r,
  cache_find k table = Some r -> cache_find k (table ++ more)%list = Some r.
Proof.
  intros A k table more r. induction table as [| [k' r'] rest IH]; cbn; [discriminate |].
  destruct (key_eqb k' k); auto.
Qed.


Lemma cache_find_map : forall (A B : Type) (g : A -> B) k (table : list (key * A)),
  cache_find k (map (fun kr => (fst kr, g (snd kr))) table)
  = option_map g (cache_find k table).
Proof.
  intros A B g k. induction table as [| [k' r] rest IH]; [reflexivity |].
  cbn. destruct (key_eqb k' k); [reflexivity | exact IH].
Qed.


(** ** The memoization tables *)

Lemma keeps_tables_lift : forall (A : Type) (r : result A), keeps_tables (lift r).
Proof. intros A r w. repeat split. Qed.

Lemma keeps_tables_raise : forall (A : Type) (e : exn), keeps_tables (@raise A e).
Proof. intros A e w. repeat split. Qed.

Lemma keeps_tables_get : forall rt r, keeps_tables (get rt r).
Proof. intros rt r w. repeat split. Qed.

Lemma keeps_tables_bind : forall (A B : Type) (m : M A) (k : A -> M B),
  keeps_tables m -> (forall a, keeps_tables (k a)) -> keeps_tables (bind m k).
Proof.
  intros A B m k Hm Hk w. unfold bind. specialize (Hm w).
  destruct (m w) as [[a | e] w1]; cbn in *; [| assumption].
  specialize (Hk a w1). destruct Hm as (H1 & H2 & H3), Hk as (H4 & H5 & H6).
  repeat split; congruence.
Qed.

Ltac keeps_tables :=
  repeat first
    [ apply keeps_tables_lift
    | apply keeps_tables_raise
    | apply keeps_tables_get
    | apply keeps_tables_bind; [| intro]
    | match goal with
      | |- keeps_tables (if ?b then _ else _) => destruct b
      | |- keeps_tables (match ?v with _ => _ end) => destruct v
      end ].

Lemma food_by_id_body_keeps_tables : forall rt self args kwds,
  keeps_tables (food_by_id_body rt self args kwds).
Proof. intros. unfold food_by_id_body. cbv zeta. keeps_tables. Qed.

Lemma foods_by_id_body_keeps_tables : forall rt self args kwds,
  keeps_tables (foods_by_id_body rt self args kwds).
Proof. intros. unfold foods_by_id_body. cbv zeta. keeps_tables. Qed.

Lemma search_food_by_query_body_keeps_tables : forall rt self args kwds,
  keeps_tables (search_food_by_query_body rt self args kwds).
Proof. intros. unfold search_food_by_query_body. cbv zeta. keeps_tables. Qed.

Section Cached.

Variable A : Type.
Variable table : world -> list (key * A).
Variable store : list (key * A) -> world -> world.
Variable f : list value -> dict -> M A.

Hypothesis table_store : forall t w, table (store t w) = t.
Hypothesis f_keeps : forall args kwds w, table (snd (f args kwds w)) = table w.



(** No call removes or replaces an entry. *)
Lemma cached_keeps_entries : forall self args kwds w k r,
  cache_find k (table w) = Some r ->
  cache_find k (table (snd (cached table store f self args kwds w))) = Some r.
Proof.
  intros self args kwds w k r Hfind. unfold cached. cbv zeta.
  destruct (key_unhashable _); [assumption |].
  destruct (cache_find (mk_key self args kwds) (table w)); [assumption |].
  pose proof (f_keeps args kwds w) as Hkeep.
  destruct (f args kwds w) as [[r' | e] w']; cbn in *.
  - rewrite table_store, Hkeep. now apply cache_find_app.
  - now rewrite Hkeep.
Qed.

(** What the wrapper does not store it leaves as the function left it. *)
Lemma cached_other : forall (B : Type) (other : world -> B) self args kwds w,
  (forall t w, other (store t w) = other w) ->
  (forall args kwds w, other (snd (f args kwds w)) = other w) ->
  other (snd (cached table store f self args kwds w)) = other w.
Proof.
  intros B other self args kwds w Hstore Hf. unfold cached.
  destruct (key_unhashable _); [reflexivity |].
  destruct (cache_find _ (table w)); [reflexivity |].
  specialize (Hf args kwds w).
  destruct (f args kwds w) as [[r' | e] w']; cbn in *; [now rewrite Hstore | assumption].
Qed.



End Cached.

Lemma grows_refl : forall w, grows w w.
Proof. intros w. repeat split; auto. Qed.

Lemma grows_trans : forall w1 w2 w3, grows w1 w2 -> grows w2 w3 -> grows w1 w3.
Proof.
  intros w1 w2 w3 (H1 & H2 & H3) (H4 & H5 & H6). repeat split; auto.
Qed.

Lemma snd_outcome_of : forall (A : Type) (wrap : A -> outcome) (r : result A * world),
  snd (outcome_of wrap r) = snd r.
Proof. intros A wrap [[a | e] w]; reflexivity. Qed.

Lemma fst_outcome_of : forall (A : Type) (wrap : A -> outcome) (r : result A * world),
  fst (outcome_of wrap r)
  = match fst r with
    | Ok a => Ok (wrap a)
    | Err e => Err e
    end.
Proof. intros A wrap [[a | e] w]; reflexivity. Qed.

Lemma call_grows : forall rt m self args kwds w,
  grows w (snd (call rt m self args kwds w)).
Proof.
  intros rt m self args kwds w.
  pose proof (food_by_id_body_keeps_tables rt self) as K1.
  pose proof (foods_by_id_body_keeps_tables rt self) as K2.
  pose proof (search_food_by_query_body_keeps_tables rt self) as K3.
  destruct m; cbn [call]; rewrite snd_outcome_of;
    unfold food_by_id, foods_by_id, search_food_by_query;
    repeat split; intros k r Hfind.
  - apply cached_keeps_entries; auto. intros; apply K1.
  - rewrite (cached_other _ _ _ _ _ foods_by_id_cache); auto. intros; apply K1.
  - rewrite (cached_other _ _ _ _ _ search_food_by_query_cache); auto. intros; apply K1.
  - rewrite (cached_other _ _ _ _ _ food_by_id_cache); auto. intros; apply K2.
  - apply cached_keeps_entries; auto. intros; apply K2.
  - rewrite (cached_other _ _ _ _ _ search_food_by_query_cache); auto. intros; apply K2.
  - rewrite (cached_other _ _ _ _ _ food_by_id_cache); auto. intros; apply K3.
  - rewrite (cached_other _ _ _ _ _ foods_by_id_cache); auto. intros; apply K3.
  - apply cached_keeps_entries; auto. intros; apply K3.
Qed.


(** ** Memoization *)



Lemma number_of_Z_eqb : forall z, number_eqb (number_of_Z z) (number_of_Z z) = true.
Proof.
  intros [| p | p]; cbn; [reflexivity | |]; destruct (odd_part p 0) as [m e]; cbn;
    now rewrite Pos.eqb_refl, Z.eqb_refl.
Qed.

(** A hashable value without NaN is equal to itself. *)
Lemma component_eqb_refl : forall v,
  unhashable v = None -> has_nan v = false -> component_eqb v v = true.
Proof.
  induction v as [| b | z | f | s | items IH | items IH | items IH]; intros Hh Hn;
    try discriminate; try reflexivity.
  - cbn. apply number_of_Z_eqb.
  - cbn. apply number_of_Z_eqb.
  - cbn in *. unfold number_of_float. destruct (Prim2SF f) as [s | s | | s m e]; cbn.
    + reflexivity.
    + now destruct s.
    + discriminate.
    + destruct (odd_part m e) as [m' e']. unfold number_eqb.
      now rewrite !Z.eqb_refl.
  - cbn. apply String.eqb_refl.
  - rewrite component_eqb_tuple. rewrite unhashable_tuple in Hh. cbn in Hn.
    induction IH as [| x Hx r Hr IHr]; [reflexivity |].
    cbn in *. apply orb_false_iff in Hn. destruct Hn as [Hn1 Hn2].
    destruct (unhashable x); [discriminate |]. rewrite Hx; auto.
Qed.



(** A hashable key without NaN is equal to itself. *)
Lemma key_eqb_refl : forall k,
  key_unhashable k = None ->
  existsb has_nan (key_args k ++ map snd (key_kwds k))%list = false ->
  key_eqb k k = true.
Proof.
  intros [self args kwds]. unfold key_unhashable, key_eqb. cbn.
  rewrite Nat.eqb_refl. cbn. intros Hh Hn.
  assert (Hsplit : forall l l',
            first_unhashable (l ++ l')%list = None ->
            first_unhashable l = None /\ first_unhashable l' = None).
  { induction l as [| x r IH]; intros l' H; cbn in *; [auto |].
    destruct (unhashable x); [discriminate | auto]. }
  apply Hsplit in Hh. destruct Hh as [Ha Hk].
  rewrite existsb_app in Hn. apply orb_false_iff in Hn. destruct Hn as [Na Nk].
  apply andb_true_iff. split.
  - clear Hk Nk. induction args as [| x r IH]; [reflexivity |].
    cbn in *. apply orb_false_iff in Na. destruct Na as [N1 N2].
    destruct (unhashable x) eqn:Hx; [discriminate |].
    rewrite component_eqb_refl; auto.
  - clear Ha Na. induction kwds as [| [k v] r IH]; [reflexivity |].
    cbn in *. apply orb_false_iff in Nk. destruct Nk as [N1 N2].
    destruct (unhashable v) eqn:Hv; [discriminate |].
    rewrite String.eqb_refl, component_eqb_refl; auto.
Qed.



(** The same keyword arguments in another order make another key. *)
Example keyword_order_makes_another_key :
  key_eqb (mk_key 0 [VInt 123] [("format", VStr "full"); ("nutrients", VInt 203)])
    (mk_key 0 [VInt 123] [("nutrients", VInt 203); ("format", VStr "full")])
  = false
  /\ same_options [("format", VStr "full"); ("nutrients", VInt 203)]
       [("nutrients", VInt 203); ("format", VStr "full")]
     = true.
Proof. split; reflexivity. Qed.

(** A call that raises stores nothing: food 7 is not found, twice. *)
Example failed_call_is_repeated :
  fst (food_by_id demo_runtime demo_client [VInt 7] [] fresh)
  = Err (ValueError "The status code indicates that the food item was not found.")
  /\ sent (run demo_runtime
             [mk_invocation Food_by_id demo_client [VInt 7] [];
              mk_invocation Food_by_id demo_client [VInt 7] []]
             fresh)
     = [mk_request "https://api.nal.usda.gov/fdc/v1/food/7" [("api_key", VStr "DEMO_KEY")];
        mk_request "https://api.nal.usda.gov/fdc/v1/food/7" [("api_key", VStr "DEMO_KEY")]].
Proof. split; reflexivity. Qed.

(** A search for cheddar of one brand, five results a page. *)
Lemma search_food_by_query_request_witness :
  sent (snd (search_food_by_query demo_runtime demo_client
               [VStr "cheddar"; VStr "acme"] [("pageSize", VInt 5)] fresh))
  = [mk_request "https://api.nal.usda.gov/fdc/v1/foods/search"
       [("api_key", VStr "DEMO_KEY"); ("pageSize", VInt 5)]].
Proof.
  apply (search_food_by_query_request demo_runtime demo_client
           [VStr "cheddar"; VStr "acme"] [("pageSize", VInt 5)] fresh
           [("query", VStr "cheddar"); ("brand", VStr "acme")] [("pageSize", VInt 5)]);
    reflexivity.
Defined.

(** ** [food_by_id] *)

(** The function under the decorator refuses what is not an integer, and
    sends nothing. *)
Lemma food_by_id_body_not_int : forall rt self args kwds w bound kwargs,
  bind_arguments food_by_id_signature args kwds = Ok (bound, kwargs) ->
  isinstance_int (argument "food_id" bound) = false ->
  food_by_id_body rt self args kwds w
  = (Err (TypeError "food_id must be an integer. for a list use foods_by_id"), w).
Proof.
  intros rt self args kwds w bound kwargs Hbind Hint.
  unfold food_by_id_body, bind, lift, raise. rewrite Hbind. cbn [fst snd].
  now rewrite Hint.
Qed.

(** What the public [food_by_id] does with an argument that is not an
    integer: it sends nothing, and it raises one of two [TypeError]s or
    returns an entry of its table. *)
Lemma food_by_id_not_int : forall rt self args kwds w bound kwargs,
  bind_arguments food_by_id_signature args kwds = Ok (bound, kwargs) ->
  isinstance_int (argument "food_id" bound) = false ->
  snd (food_by_id rt self args kwds w) = w
  /\ ((exists t,
         fst (food_by_id rt self args kwds w)
         = Err (TypeError ("unhashable type: '" ++ t ++ "'")))
      \/ (exists entry,
            cache_find (mk_key (instance self) args kwds) (food_by_id_cache w)
            = Some entry
            /\ fst (food_by_id rt self args kwds w) = Ok entry)
      \/ fst (food_by_id rt self args kwds w)
         = Err (TypeError "food_id must be an integer. for a list use foods_by_id")).
Proof.
  intros rt self args kwds w bound kwargs Hbind Hint.
  unfold food_by_id, cached. cbv zeta.
  rewrite (food_by_id_body_not_int rt self args kwds w bound kwargs Hbind Hint).
  destruct (key_unhashable _) as [t |].
  - split; [reflexivity | left; exists t; reflexivity].
  - destruct (cache_find (mk_key (instance self) args kwds) (food_by_id_cache w))
      as [entry |].
    + split; [reflexivity | right; left; exists entry; split; reflexivity].
    + split; [reflexivity | right; right; reflexivity].
Qed.

(** A string where the id should be, on a new client. *)
Lemma food_by_id_not_int_witness :
  snd (food_by_id demo_runtime demo_client [VStr "123"] [] fresh) = fresh
  /\ ((exists t,
         fst (food_by_id demo_runtime demo_client [VStr "123"] [] fresh)
         = Err (TypeError ("unhashable type: '" ++ t ++ "'")))
      \/ (exists entry,
            cache_find (mk_key (instance demo_client) [VStr "123"] [])
              (food_by_id_cache fresh)
            = Some entry
            /\ fst (food_by_id demo_runtime demo_client [VStr "123"] [] fresh) = Ok entry)
      \/ fst (food_by_id demo_runtime demo_client [VStr "123"] [] fresh)
         = Err (TypeError "food_id must be an integer. for a list use foods_by_id")).
Proof.
  apply (food_by_id_not_int demo_runtime demo_client [VStr "123"] [] fresh
           [("food_id", VStr "123")] []); reflexivity.
Defined.

(** Two calls that differ in their keyword arguments are two misses: each
    sends its request. *)
Example food_by_id_options_are_distinct_keys :
  sent (run demo_runtime
          [mk_invocation Food_by_id demo_client [VInt 123] [];
           mk_invocation Food_by_id demo_client [VInt 123] [("format", VStr "full")];
           mk_invocation Food_by_id demo_client [VInt 123] []]
          fresh)
  = [mk_request "https://api.nal.usda.gov/fdc/v1/food/123" [("api_key", VStr "DEMO_KEY")];
     mk_request "https://api.nal.usda.gov/fdc/v1/food/123"
       [("api_key", VStr "DEMO_KEY"); ("format", VStr "full")]].
Proof. reflexivity. Qed.

(** C9: [food_by_id(123.0)] after [food_by_id(123)] returns the entry of
    the first call and raises nothing, because the memoization wrapper
    answers before the check of the type runs; the function under the
    decorator does raise the [TypeError] on the same state.  A list as
    argument raises the [TypeError] of the wrapper, which is not the
    message that advises [foods_by_id]. *)
Theorem food_by_id_float_after_int :
  food_by_id demo_runtime demo_client [VInt 123] [] fresh = (Ok apple_entry, demo_cached)
  /\ isinstance_int (VFloat 123) = false
  /\ food_by_id demo_runtime demo_client [VFloat 123] [] demo_cached
     = (Ok apple_entry, demo_cached)
  /\ food_by_id_body demo_runtime demo_client [VFloat 123] [] demo_cached
     = (Err (TypeError "food_id must be an integer. for a list use foods_by_id"),
        demo_cached)
  /\ food_by_id demo_runtime demo_client [VList [VInt 1; VInt 2]] [] fresh
     = (Err (TypeError "unhashable type: 'list'"), fresh).
Proof.
  repeat split; reflexivity.
Qed.

(** ** Truncation and the shape of records *)

Lemma py_int_truncates : forall rt v,
  is_number v = true -> exists t, py_int rt v = Ok t /\ is_truncation v t.
Proof.
  intros rt v Hnum. destruct v as [| | z | f | | | |]; try discriminate.
  - exists z. split; reflexivity.
  - cbn [py_int is_truncation is_number] in *. unfold float_to_int.
    destruct (Prim2SF f) as [s | s | | s m e]; try discriminate.
    + exists 0. split; reflexivity.
    + destruct (Z.leb_spec 0 e) as [Hle | Hlt].
      * exists (if s then - (Z.pos m * 2 ^ e) else Z.pos m * 2 ^ e). split; [reflexivity |].
        exists (Z.pos m * 2 ^ e).
        rewrite (Z.max_l 0 (- e)) by lia. rewrite (Z.max_r 0 e) by lia.
        change (2 ^ 0) with 1.
        assert (0 < 2 ^ e) by (apply Z.pow_pos_nonneg; lia).
        repeat split; try reflexivity; lia.
      * exists (if s then - (Z.pos m / 2 ^ (- e)) else Z.pos m / 2 ^ (- e)).
        split; [reflexivity |].
        exists (Z.pos m / 2 ^ (- e)).
        rewrite (Z.max_r 0 (- e)) by lia. rewrite (Z.max_l 0 e) by lia.
        change (2 ^ 0) with 1.
        assert (Hpow : 0 < 2 ^ (- e)) by (apply Z.pow_pos_nonneg; lia).
        pose proof (Z.div_pos (Z.pos m) (2 ^ (- e)) ltac:(lia) Hpow).
        pose proof (Z.mul_div_le (Z.pos m) (2 ^ (- e)) Hpow).
        pose proof (Z.mul_succ_div_gt (Z.pos m) (2 ^ (- e)) Hpow).
        repeat split; try reflexivity; lia.
Qed.

(** The comprehension of [parse_json] on well-shaped items is an update
    with their entries. *)
Lemma nutrition_of_entries : forall rt xs es acc,
  nutrient_entries rt xs = Some es -> nutrition_of rt xs acc = Ok (dict_update acc es).
Proof.
  intros rt. induction xs as [| x rest IH]; intros es acc H; cbn in H.
  - inversion H; subst. reflexivity.
  - destruct (nutrient_entry rt x) as [[k amount] |] eqn:Hx; [| discriminate].
    destruct (nutrient_entries rt rest) as [es' |] eqn:Hrest; [| discriminate].
    inversion H; subst; clear H.
    unfold nutrient_entry in Hx.
    destruct x as [| | | | | | | d]; try discriminate.
    destruct (dict_get "nutrient" d) as [[| | | | | | | n] |] eqn:Hn; try discriminate.
    destruct (dict_get "amount" d) as [a |] eqn:Ha; [| discriminate].
    destruct (dict_get "name" n) as [[| | | | s | | |] |] eqn:Hs; try discriminate.
    inversion Hx; subst; clear Hx.
    cbn [nutrition_of getitem rbind]. rewrite Hn. cbn [getitem rbind]. rewrite Hs, Ha.
    cbn [call_lower rbind]. now rewrite (IH es' _ eq_refl).
Qed.

Lemma getitem_nutrition : forall es n,
  getitem (VDict (dict_update [] es)) n
  = match amount_of n es with
    | Some v => Ok v
    | None => Err (KeyError n)
    end.
Proof.
  intros es n. cbn [getitem]. rewrite dict_get_update. unfold amount_of.
  destruct (dict_get n (rev es)); reflexivity.
Qed.

Lemma getitem_dict : forall d k v, dict_get k d = Some v -> getitem (VDict d) k = Ok v.
Proof. intros d k v H. cbn. now rewrite H. Qed.

Lemma label_value_steps : forall labels k v,
  label_value labels k = Some v ->
  exists l, getitem labels k = Ok l /\ getitem l "value" = Ok v.
Proof.
  intros labels k v H. unfold label_value in H.
  destruct labels as [| | | | | | | ld]; try discriminate.
  destruct (dict_get k ld) as [[| | | | | | | l] |] eqn:Hk; try discriminate.
  exists (VDict l). split; apply getitem_dict; assumption.
Qed.

(** ** [parse_json] on valid records *)

(** C6: on a record that has the required keys in the shape the API
    gives them and an amount for each of the four required nutrients, the
    energy being a number, [parse_json] returns the six fields below:
    [calories] is the energy without its fractional part, as an integer,
    and every other number of the output is the value found in the
    record, unchanged. *)
Theorem parse_json_valid_record :
  forall (rt : runtime) (d : dict) (fdcId : value) (description : string)
         (xs : list value) (es : dict) (servingSize : value) (unit : string)
         (labels energy fat carbs protein l_calories l_fat l_carbs l_protein : value),
  dict_get "fdcId" d = Some fdcId ->
  dict_get "description" d = Some (VStr description) ->
  dict_get "foodNutrients" d = Some (VList xs) ->
  nutrient_entries rt xs = Some es ->
  amount_of "energy" es = Some energy ->
  is_number energy = true ->
  amount_of "total lipid (fat)" es = Some fat ->
  amount_of "carbohydrate, by difference" es = Some carbs ->
  amount_of "protein" es = Some protein ->
  dict_get "servingSize" d = Some servingSize ->
  dict_get "servingSizeUnit" d = Some (VStr unit) ->
  dict_get "labelNutrients" d = Some labels ->
  label_value labels "calories" = Some l_calories ->
  label_value labels "fat" = Some l_fat ->
  label_value labels "carbohydrates" = Some l_carbs ->
  label_value labels "protein" = Some l_protein ->
  exists t : Z,
    is_truncation energy t
    /\ parse_json rt (VDict d)
       = Ok [("food_id", fdcId);
             ("name", VStr (lower rt description));
             ("calories", VInt t);
             ("macronutrients", VDict [("fat", fat); ("carbs", carbs); ("protein", protein)]);
             ("serving", VDict [("value", servingSize); ("unit", VStr (lower rt unit))]);
             ("nutrition_per_serving",
              VDict [("calories", l_calories); ("fat", l_fat);
                     ("carbs", l_carbs); ("protein", l_protein)])]
    /\ from_json rt (VDict d)
       = Ok (mk_FoodEntry fdcId (VStr (lower rt description)) (VInt t)
               (VDict [("fat", fat); ("carbs", carbs); ("protein", protein)])
               (VDict [("value", servingSize); ("unit", VStr (lower rt unit))])
               (VDict [("calories", l_calories); ("fat", l_fat);
                       ("carbs", l_carbs); ("protein", l_protein)])).
Proof.
  intros rt d fdcId description xs es servingSize unit labels energy fat carbs protein
    l_calories l_fat l_carbs l_protein
    Hid Hdesc Hfn Hes Henergy Hnum Hfat Hcarbs Hprotein Hsize Hunit Hlabels
    Hlc Hlf Hlcarb Hlp.
  destruct (py_int_truncates rt energy Hnum) as (t & Hint & Htrunc).
  destruct (label_value_steps _ _ _ Hlc) as (x1 & Hx1 & Hv1).
  destruct (label_value_steps _ _ _ Hlf) as (x2 & Hx2 & Hv2).
  destruct (label_value_steps _ _ _ Hlcarb) as (x3 & Hx3 & Hv3).
  destruct (label_value_steps _ _ _ Hlp) as (x4 & Hx4 & Hv4).
  assert (Hparse :
    parse_json rt (VDict d)
    = Ok [("food_id", fdcId);
          ("name", VStr (lower rt description));
          ("calories", VInt t);
          ("macronutrients", VDict [("fat", fat); ("carbs", carbs); ("protein", protein)]);
          ("serving", VDict [("value", servingSize); ("unit", VStr (lower rt unit))]);
          ("nutrition_per_serving",
           VDict [("calories", l_calories); ("fat", l_fat);
                  ("carbs", l_carbs); ("protein", l_protein)])]).
  { unfold parse_json. cbv zeta.
    rewrite (getitem_dict _ _ _ Hid), (getitem_dict _ _ _ Hdesc),
      (getitem_dict _ _ _ Hfn), (getitem_dict _ _ _ Hsize),
      (getitem_dict _ _ _ Hunit), !(getitem_dict _ _ _ Hlabels).
    cbn [rbind call_lower iterate].
    rewrite (nutrition_of_entries _ _ _ _ Hes). cbn [rbind].
    rewrite !getitem_nutrition, Henergy, Hfat, Hcarbs, Hprotein. cbn [rbind].
    rewrite Hint. cbn [rbind].
    rewrite Hx1, Hx2, Hx3, Hx4. cbn [rbind]. rewrite Hv1, Hv2, Hv3, Hv4.
    reflexivity. }
  exists t. repeat split; [assumption | assumption |].
  unfold from_json. rewrite Hparse. reflexivity.
Qed.

(** The apple is such a record. *)
Lemma parse_json_valid_record_witness :
  exists t : Z,
    is_truncation (VInt 52) t
    /\ parse_json demo_runtime apple
       = Ok [("food_id", VInt 123);
             ("name", VStr (lower demo_runtime "Apple"));
             ("calories", VInt t);
             ("macronutrients",
              VDict [("fat", VFloat 0.2); ("carbs", VInt 14); ("protein", VFloat 0.3)]);
             ("serving", VDict [("value", VInt 100); ("unit", VStr (lower demo_runtime "G"))]);
             ("nutrition_per_serving",
              VDict [("calories", VInt 52); ("fat", VFloat 0.2);
                     ("carbs", VInt 14); ("protein", VFloat 0.3)])]
    /\ from_json demo_runtime apple
       = Ok (mk_FoodEntry (VInt 123) (VStr (lower demo_runtime "Apple")) (VInt t)
               (VDict [("fat", VFloat 0.2); ("carbs", VInt 14); ("protein", VFloat 0.3)])
               (VDict [("value", VInt 100); ("unit", VStr (lower demo_runtime "G"))])
               (VDict [("calories", VInt 52); ("fat", VFloat 0.2);
                       ("carbs", VInt 14); ("protein", VFloat 0.3)])).
Proof.
  apply (parse_json_valid_record demo_runtime apple_fields (VInt 123) "Apple"
           apple_nutrients
           [("energy", VInt 52); ("total lipid (fat)", VFloat 0.2);
            ("carbohydrate, by difference", VInt 14); ("protein", VFloat 0.3)]
           (VInt 100) "G" apple_labels);
    reflexivity.
Defined.

(** [food_by_id] on an integer and no option: one request, then the
    check of the status, the decoding and the parsing, in that order. *)
Lemma food_by_id_body_int : forall rt self id w,
  food_by_id_body rt self [VInt id] [] w
  = (rbind
       (requests_get rt (sent w)
          (mk_request (base_url ++ "food/" ++ str_of_int id) [("api_key", api_key self)]))
       (fun resp =>
          rbind (check_response resp)
            (fun _ => rbind (json_loads rt (text resp)) (from_json rt))),
     mk_world
       (sent w
        ++ [mk_request (base_url ++ "food/" ++ str_of_int id) [("api_key", api_key self)]])%list
       (food_by_id_cache w) (foods_by_id_cache w) (search_food_by_query_cache w)).
Proof.
  intros rt self id w.
  unfold food_by_id_body, bind, lift, get; cbn.
  destruct (requests_get rt (sent w) _) as [resp | e]; cbn; [| reflexivity].
  destruct (check_response resp); cbn; [| reflexivity].
  destruct (json_loads rt (text resp)); reflexivity.
Qed.

(** ** [parse_json] on records that lack a nutrient *)

(** C7: on a record in the shape the API gives, whose energy, if it has
    one, is a number, and which lacks one of the four required nutrients,
    [parse_json] raises the [KeyError] of a required nutrient the record
    lacks.  Nothing catches it: [FoodEntry.from_json] raises it too, and
    so does [food_by_id] when the server answers with that record, which
    then stores nothing. *)
Theorem parse_json_missing_nutrient :
  forall (rt : runtime) (d : dict) (fdcId : value) (description : string)
         (xs : list value) (es : dict),
  dict_get "fdcId" d = Some fdcId ->
  dict_get "description" d = Some (VStr description) ->
  dict_get "foodNutrients" d = Some (VList xs) ->
  nutrient_entries rt xs = Some es ->
  (forall energy, amount_of "energy" es = Some energy -> is_number energy = true) ->
  (exists n, In n required_nutrients /\ amount_of n es = None) ->
  exists n,
    In n required_nutrients
    /\ amount_of n es = None
    /\ parse_json rt (VDict d) = Err (KeyError n)
    /\ from_json rt (VDict d) = Err (KeyError n)
    /\ forall (self : FCAPI) (id : Z) (w : world) (resp : response),
         let req :=
           mk_request (base_url ++ "food/" ++ str_of_int id) [("api_key", api_key self)] in
         requests_get rt (sent w) req = Ok resp ->
         status_code resp = 200 ->
         json_loads rt (text resp) = Ok (VDict d) ->
         cache_find (mk_key (instance self) [VInt id] []) (food_by_id_cache w) = None ->
         food_by_id rt self [VInt id] [] w
         = (Err (KeyError n),
            mk_world (sent w ++ [req])%list (food_by_id_cache w) (foods_by_id_cache w)
              (search_food_by_query_cache w)).
Proof.
  intros rt d fdcId description xs es Hid Hdesc Hfn Hes Hnum Hmissing.
  assert (Hparse : exists n,
            In n required_nutrients /\ amount_of n es = None
            /\ parse_json rt (VDict d) = Err (KeyError n)).
  { unfold parse_json. cbv zeta.
    rewrite (getitem_dict _ _ _ Hid), (getitem_dict _ _ _ Hdesc), (getitem_dict _ _ _ Hfn).
    cbn [rbind call_lower iterate].
    rewrite (nutrition_of_entries _ _ _ _ Hes). cbn [rbind].
    rewrite !getitem_nutrition.
    destruct (amount_of "energy" es) as [energy |] eqn:He;
      [| exists "energy"; cbn; auto].
    destruct (py_int_truncates rt energy (Hnum _ eq_refl)) as (t & Hint & _).
    cbn [rbind]. rewrite Hint. cbn [rbind].
    destruct (amount_of "total lipid (fat)" es) as [fat |] eqn:Hf;
      [| exists "total lipid (fat)"; cbn; auto].
    cbn [rbind].
    destruct (amount_of "carbohydrate, by difference" es) as [carbs |] eqn:Hc;
      [| exists "carbohydrate, by difference"; cbn; auto].
    cbn [rbind].
    destruct (amount_of "protein" es) as [protein |] eqn:Hp;
      [| exists "protein"; cbn; auto 6].
    exfalso. destruct Hmissing as (n & Hin & Hn).
    cbn in Hin. destruct Hin as [<- | [<- | [<- | [<- | []]]]]; congruence. }
  destruct Hparse as (n & Hin & Hn & Hparse).
  exists n. repeat split; try assumption.
  - unfold from_json. now rewrite Hparse.
  - intros self id w resp req Hget H200 Hjson Hmiss.
    unfold food_by_id, cached. cbv zeta. cbn [key_unhashable key_args key_kwds app map
      first_unhashable unhashable].
    rewrite Hmiss, food_by_id_body_int. fold req. rewrite Hget. cbn [rbind].
    unfold check_response. rewrite H200. cbn [Z.eqb Pos.eqb rbind].
    rewrite Hjson. cbn [rbind]. unfold from_json. now rewrite Hparse.
Qed.

(** The apple without its protein entry, served for food 123. *)
Lemma parse_json_missing_nutrient_witness :
  exists n,
    In n required_nutrients
    /\ amount_of n
         [("energy", VFloat 52.7); ("total lipid (fat)", VFloat 0.2);
          ("carbohydrate, by difference", VInt 14)] = None
    /\ parse_json demo_runtime apple_without_protein = Err (KeyError n)
    /\ from_json demo_runtime apple_without_protein = Err (KeyError n)
    /\ forall (self : FCAPI) (id : Z) (w : world) (resp : response),
         let req :=
           mk_request (base_url ++ "food/" ++ str_of_int id) [("api_key", api_key self)] in
         requests_get demo_runtime (sent w) req = Ok resp ->
         status_code resp = 200 ->
         json_loads demo_runtime (text resp) = Ok apple_without_protein ->
         cache_find (mk_key (instance self) [VInt id] []) (food_by_id_cache w) = None ->
         food_by_id demo_runtime self [VInt id] [] w
         = (Err (KeyError n),
            mk_world (sent w ++ [req])%list (food_by_id_cache w) (foods_by_id_cache w)
              (search_food_by_query_cache w)).
Proof.
  apply (parse_json_missing_nutrient demo_runtime poor_apple_fields (VInt 123) "Apple"
           poor_apple_nutrients
           [("energy", VFloat 52.7); ("total lipid (fat)", VFloat 0.2);
            ("carbohydrate, by difference", VInt 14)]);
    try reflexivity.
  - intros energy H. inversion H; subst. reflexivity.
  - exists "protein". split; [cbn; auto 6 | reflexivity].
Defined.

(** * Further properties *)

(** ** When [parse_json] returns *)

Lemma rbind_Ok : forall (A B : Type) (r : result A) (k : A -> result B) b,
  rbind r k = Ok b -> exists a, r = Ok a /\ k a = Ok b.
Proof.
  intros A B [a | e] k b H; [eauto | discriminate].
Qed.

Lemma getitem_Ok : forall v k x,
  getitem v k = Ok x -> exists d, v = VDict d /\ dict_get k d = Some x.
Proof.
  intros v k x H. destruct v; try discriminate.
  cbn in H. destruct (dict_get k items) eqn:Hget; inversion H; subst. eauto.
Qed.

Lemma call_lower_Ok : forall rt v s,
  call_lower rt v = Ok s -> exists s0, v = VStr s0 /\ s = lower rt s0.
Proof.
  intros rt v s H. destruct v; try discriminate. inversion H; subst. eauto.
Qed.

Lemma nutrition_of_Ok : forall rt xs acc d,
  nutrition_of rt xs acc = Ok d ->
  exists es, nutrient_entries rt xs = Some es /\ d = dict_update acc es.
Proof.
  intros rt. induction xs as [| x rest IH]; intros acc d H.
  - inversion H; subst. exists []. split; reflexivity.
  - cbn [nutrition_of] in H.
    apply rbind_Ok in H. destruct H as (nutrient & Hn & H).
    apply rbind_Ok in H. destruct H as (name & Hname & H).
    apply rbind_Ok in H. destruct H as (k & Hk & H).
    apply rbind_Ok in H. destruct H as (amount & Ha & H).
    apply getitem_Ok in Hn. destruct Hn as (dx & -> & Hn).
    apply getitem_Ok in Hname. destruct Hname as (dn & -> & Hname).
    apply call_lower_Ok in Hk. destruct Hk as (s0 & -> & ->).
    apply getitem_Ok in Ha. destruct Ha as (dx' & Heq & Ha). inversion Heq; subst dx'.
    destruct (IH _ _ H) as (es & Hes & ->).
    exists ((lower rt s0, amount) :: es). split; [| reflexivity].
    cbn [nutrient_entries nutrient_entry]. now rewrite Hn, Ha, Hname, Hes.
Qed.

Lemma label_value_of_steps : forall labels k l v,
  getitem labels k = Ok l -> getitem l "value" = Ok v -> label_value labels k = Some v.
Proof.
  intros labels k l v H1 H2.
  apply getitem_Ok in H1. destruct H1 as (d & -> & H1).
  apply getitem_Ok in H2. destruct H2 as (d' & -> & H2).
  cbn. now rewrite H1.
Qed.

(** [lower_ascii] is the table of the capital letters and their small
    letters. *)
Lemma lower_ascii_translate : forall c,
  lower_ascii c = translate ascii_uppercase ascii_lowercase c.
Proof.
  intros c. destruct c as [[] [] [] [] [] [] [] []]; reflexivity.
Qed.

Lemma ascii_lower_in_lower_case : forall s, ascii_lower s = in_lower_case s.
Proof.
  induction s as [| c rest IH]; [reflexivity |].
  cbn [ascii_lower in_lower_case]. now rewrite lower_ascii_translate, IH.
Qed.

Lemma lower_in_lower_case : forall rt s,
  lower rt s = (if is_ascii s then in_lower_case s else do_lower rt s).
Proof.
  intros rt s. unfold lower. now rewrite ascii_lower_in_lower_case.
Qed.

(** The reads [parse_json] has made when it returns, in their order. *)
Lemma parse_json_reads : forall rt data out,
  parse_json rt data = Ok out ->
  exists d fdcId description foodNutrients xs es energy t fat carbs protein
         servingSize unit labels x1 v1 x2 v2 x3 v3 x4 v4,
    data = VDict d
    /\ dict_get "fdcId" d = Some fdcId
    /\ dict_get "description" d = Some (VStr description)
    /\ dict_get "foodNutrients" d = Some foodNutrients
    /\ iterate foodNutrients = Ok xs
    /\ nutrient_entries rt xs = Some es
    /\ amount_of "energy" es = Some energy
    /\ py_int rt energy = Ok t
    /\ amount_of "total lipid (fat)" es = Some fat
    /\ amount_of "carbohydrate, by difference" es = Some carbs
    /\ amount_of "protein" es = Some protein
    /\ dict_get "servingSize" d = Some servingSize
    /\ dict_get "servingSizeUnit" d = Some (VStr unit)
    /\ dict_get "labelNutrients" d = Some labels
    /\ (getitem labels "calories" = Ok x1 /\ getitem x1 "value" = Ok v1)
    /\ (getitem labels "fat" = Ok x2 /\ getitem x2 "value" = Ok v2)
    /\ (getitem labels "carbohydrates" = Ok x3 /\ getitem x3 "value" = Ok v3)
    /\ (getitem labels "protein" = Ok x4 /\ getitem x4 "value" = Ok v4)
    /\ out
       = [("food_id", fdcId);
          ("name", VStr (lower rt description));
          ("calories", VInt t);
          ("macronutrients", VDict [("fat", fat); ("carbs", carbs); ("protein", protein)]);
          ("serving", VDict [("value", servingSize); ("unit", VStr (lower rt unit))]);
          ("nutrition_per_serving",
           VDict [("calories", v1); ("fat", v2); ("carbs", v3); ("protein", v4)])].
Proof.
  intros rt data out H.
  unfold parse_json in H. cbv zeta in H.
  apply rbind_Ok in H. destruct H as (fdcId & Hid & H).
  apply rbind_Ok in H. destruct H as (desc & Hdesc & H).
  apply rbind_Ok in H. destruct H as (name & Hname & H).
  apply rbind_Ok in H. destruct H as (fn & Hfn & H).
  apply rbind_Ok in H. destruct H as (xs & Hxs & H).
  apply rbind_Ok in H. destruct H as (nutrition & Hnut & H).
  apply rbind_Ok in H. destruct H as (energy & Henergy & H).
  apply rbind_Ok in H. destruct H as (t & Hint & H).
  apply rbind_Ok in H. destruct H as (fat & Hfat & H).
  apply rbind_Ok in H. destruct H as (carbs & Hcarbs & H).
  apply rbind_Ok in H. destruct H as (protein & Hprotein & H).
  apply rbind_Ok in H. destruct H as (size & Hsize & H).
  apply rbind_Ok in H. destruct H as (unitv & Hunitv & H).
  apply rbind_Ok in H. destruct H as (unit & Hunit & H).
  apply rbind_Ok in H. destruct H as (labels1 & Hl1 & H).
  apply rbind_Ok in H. destruct H as (x1 & Hx1 & H).
  apply rbind_Ok in H. destruct H as (v1 & Hv1 & H).
  apply rbind_Ok in H. destruct H as (labels2 & Hl2 & H).
  apply rbind_Ok in H. destruct H as (x2 & Hx2 & H).
  apply rbind_Ok in H. destruct H as (v2 & Hv2 & H).
  apply rbind_Ok in H. destruct H as (labels3 & Hl3 & H).
  apply rbind_Ok in H. destruct H as (x3 & Hx3 & H).
  apply rbind_Ok in H. destruct H as (v3 & Hv3 & H).
  apply rbind_Ok in H. destruct H as (labels4 & Hl4 & H).
  apply rbind_Ok in H. destruct H as (x4 & Hx4 & H).
  apply rbind_Ok in H. destruct H as (v4 & Hv4 & H).
  apply getitem_Ok in Hid. destruct Hid as (d & -> & Hid).
  apply getitem_Ok in Hdesc. destruct Hdesc as (d0 & Heq & Hdesc).
  inversion Heq; subst d0; clear Heq.
  apply call_lower_Ok in Hname. destruct Hname as (description & -> & ->).
  apply getitem_Ok in Hfn. destruct Hfn as (d0 & Heq & Hfn).
  inversion Heq; subst d0; clear Heq.
  apply nutrition_of_Ok in Hnut. destruct Hnut as (es & Hes & ->).
  rewrite getitem_nutrition in Henergy, Hfat, Hcarbs, Hprotein.
  destruct (amount_of "energy" es) as [energy' |] eqn:He; inversion Henergy; subst.
  destruct (amount_of "total lipid (fat)" es) as [fat' |] eqn:Hf; inversion Hfat; subst.
  destruct (amount_of "carbohydrate, by difference" es) as [carbs' |] eqn:Hc;
    inversion Hcarbs; subst.
  destruct (amount_of "protein" es) as [protein' |] eqn:Hp; inversion Hprotein; subst.
  apply getitem_Ok in Hsize. destruct Hsize as (d0 & Heq & Hsize).
  inversion Heq; subst d0; clear Heq.
  apply getitem_Ok in Hunitv. destruct Hunitv as (d0 & Heq & Hunitv).
  inversion Heq; subst d0; clear Heq.
  apply call_lower_Ok in Hunit. destruct Hunit as (unit0 & -> & ->).
  apply getitem_Ok in Hl1. destruct Hl1 as (d0 & Heq & Hl1).
  inversion Heq; subst d0; clear Heq.
  apply getitem_Ok in Hl2. destruct Hl2 as (d0 & Heq & Hl2).
  inversion Heq; subst d0; clear Heq.
  apply getitem_Ok in Hl3. destruct Hl3 as (d0 & Heq & Hl3).
  inversion Heq; subst d0; clear Heq.
  apply getitem_Ok in Hl4. destruct Hl4 as (d0 & Heq & Hl4).
  inversion Heq; subst d0; clear Heq.
  assert (labels2 = labels1) by congruence. assert (labels3 = labels1) by congruence.
  assert (labels4 = labels1) by congruence. subst labels2 labels3 labels4.
  exists d, fdcId, description, fn, xs, es, energy, t, fat, carbs, protein, size, unit0,
    labels1, x1, v1, x2, v2, x3, v3, x4, v4.
  inversion H; subst. repeat split; assumption.
Qed.

(** Whenever [parse_json] returns, whatever it was given, the input was
    a dict with the six keys, a string for the description and for the
    unit, items of the shape [{nutrient: {name}, amount}], an amount for
    each of the four nutrients, an energy [int] accepts, and the four
    label values; and the output is the dict of the six fields below,
    from which [FoodEntry.from_json] builds its entry.  The identifier of
    the entry is the [fdcId] of the record.  Its name is the description
    and its unit the unit of the record after [str.lower]: ASCII text
    with each of the letters [A] to [Z] replaced by its small letter and
    every other character kept, any other text as the tables of the
    interpreter lower it. *)
Theorem parse_json_returns_only_on :
  forall (rt : runtime) (data : value) (out : dict),
  parse_json rt data = Ok out ->
  exists (d : dict) (fdcId : value) (description : string) (foodNutrients : value)
         (xs : list value) (es : dict) (energy : value) (t : Z)
         (fat carbs protein servingSize : value) (unit : string)
         (labels l_calories l_fat l_carbs l_protein : value),
    data = VDict d
    /\ dict_get "fdcId" d = Some fdcId
    /\ dict_get "description" d = Some (VStr description)
    /\ dict_get "foodNutrients" d = Some foodNutrients
    /\ iterate foodNutrients = Ok xs
    /\ nutrient_entries rt xs = Some es
    /\ amount_of "energy" es = Some energy
    /\ py_int rt energy = Ok t
    /\ amount_of "total lipid (fat)" es = Some fat
    /\ amount_of "carbohydrate, by difference" es = Some carbs
    /\ amount_of "protein" es = Some protein
    /\ dict_get "servingSize" d = Some servingSize
    /\ dict_get "servingSizeUnit" d = Some (VStr unit)
    /\ dict_get "labelNutrients" d = Some labels
    /\ label_value labels "calories" = Some l_calories
    /\ label_value labels "fat" = Some l_fat
    /\ label_value labels "carbohydrates" = Some l_carbs
    /\ label_value labels "protein" = Some l_protein
    /\ out
       = [("food_id", fdcId);
          ("name", VStr (lower rt description));
          ("calories", VInt t);
          ("macronutrients", VDict [("fat", fat); ("carbs", carbs); ("protein", protein)]);
          ("serving", VDict [("value", servingSize); ("unit", VStr (lower rt unit))]);
          ("nutrition_per_serving",
           VDict [("calories", l_calories); ("fat", l_fat);
                  ("carbs", l_carbs); ("protein", l_protein)])]
    /\ from_json rt data
       = Ok (mk_FoodEntry fdcId (VStr (lower rt description)) (VInt t)
               (VDict [("fat", fat); ("carbs", carbs); ("protein", protein)])
               (VDict [("value", servingSize); ("unit", VStr (lower rt unit))])
               (VDict [("calories", l_calories); ("fat", l_fat);
                       ("carbs", l_carbs); ("protein", l_protein)]))
    /\ lower rt description
       = (if is_ascii description then in_lower_case description
          else do_lower rt description)
    /\ lower rt unit
       = (if is_ascii unit then in_lower_case unit else do_lower rt unit).
Proof.
  intros rt data out Hparse.
  destruct (parse_json_reads rt data out Hparse)
    as (d & fdcId & description & fn & xs & es & energy & t & fat & carbs & protein
        & size & unit & labels & x1 & v1 & x2 & v2 & x3 & v3 & x4 & v4
        & Hdata & Hid & Hdesc & Hfn & Hxs & Hes & He & Hint & Hf & Hc & Hp
        & Hsize & Hunit & Hlabels & [H1 H1'] & [H2 H2'] & [H3 H3'] & [H4 H4'] & Hout).
  exists d, fdcId, description, fn, xs, es, energy, t, fat, carbs, protein, size, unit,
    labels, v1, v2, v3, v4.
  repeat split; try assumption;
    try (eapply label_value_of_steps; eassumption); try apply lower_in_lower_case.
  unfold from_json. rewrite Hparse, Hout. reflexivity.
Qed.

(** The apple again. *)
Lemma parse_json_returns_only_on_witness :
  exists (d : dict) (fdcId : value) (description : string) (foodNutrients : value)
         (xs : list value) (es : dict) (energy : value) (t : Z)
         (fat carbs protein servingSize : value) (unit : string)
         (labels l_calories l_fat l_carbs l_protein : value),
    apple = VDict d
    /\ dict_get "fdcId" d = Some fdcId
    /\ dict_get "description" d = Some (VStr description)
    /\ dict_get "foodNutrients" d = Some foodNutrients
    /\ iterate foodNutrients = Ok xs
    /\ nutrient_entries demo_runtime xs = Some es
    /\ amount_of "energy" es = Some energy
    /\ py_int demo_runtime energy = Ok t
    /\ amount_of "total lipid (fat)" es = Some fat
    /\ amount_of "carbohydrate, by difference" es = Some carbs
    /\ amount_of "protein" es = Some protein
    /\ dict_get "servingSize" d = Some servingSize
    /\ dict_get "servingSizeUnit" d = Some (VStr unit)
    /\ dict_get "labelNutrients" d = Some labels
    /\ label_value labels "calories" = Some l_calories
    /\ label_value labels "fat" = Some l_fat
    /\ label_value labels "carbohydrates" = Some l_carbs
    /\ label_value labels "protein" = Some l_protein
    /\ apple_parsed
       = [("food_id", fdcId);
          ("name", VStr (lower demo_runtime description));
          ("calories", VInt t);
          ("macronutrients", VDict [("fat", fat); ("carbs", carbs); ("protein", protein)]);
          ("serving", VDict [("value", servingSize); ("unit", VStr (lower demo_runtime unit))]);
          ("nutrition_per_serving",
           VDict [("calories", l_calories); ("fat", l_fat);
                  ("carbs", l_carbs); ("protein", l_protein)])]
    /\ from_json demo_runtime apple
       = Ok (mk_FoodEntry fdcId (VStr (lower demo_runtime description)) (VInt t)
               (VDict [("fat", fat); ("carbs", carbs); ("protein", protein)])
               (VDict [("value", servingSize); ("unit", VStr (lower demo_runtime unit))])
               (VDict [("calories", l_calories); ("fat", l_fat);
                       ("carbs", l_carbs); ("protein", l_protein)]))
    /\ lower demo_runtime description
       = (if is_ascii description then in_lower_case description
          else do_lower demo_runtime description)
    /\ lower demo_runtime unit
       = (if is_ascii unit then in_lower_case unit else do_lower demo_runtime unit).
Proof.
  apply (parse_json_returns_only_on demo_runtime apple apple_parsed). reflexivity.
Defined.

(** Every letter of ASCII text is lowered, on every runtime. *)
Example lower_pangram : forall rt : runtime,
  lower rt "SPHINX OF BLACK QUARTZ, JUDGE MY VOW (2x)"
  = "sphinx of black quartz, judge my vow (2x)".
Proof. reflexivity. Qed.

(** A description with a letter of Latin-1, on a runtime that lowers
    such text as Python does. *)
Example parse_json_lowers_other_text :
  is_ascii "ÉCLAIR" = false
  /\ rbind (parse_json demo_runtime (VDict (dict_set "description" (VStr "ÉCLAIR") apple_fields)))
       (fun out => getitem (VDict out) "name")
     = Ok (VStr "éclair").
Proof. split; reflexivity. Qed.

(** ** What [parse_json] does not read *)

(** [parse_json] reads six keys of the record and, in [foodNutrients],
    the amounts of four nutrients: two records that agree on those give
    the same result, whatever else they hold, entries of other nutrients
    and earlier entries of a repeated nutrient included. *)
Theorem parse_json_discards_the_rest :
  forall (rt : runtime) (d d' : dict) (xs xs' : list value) (es es' : dict),
  (forall k,
     In k ["fdcId"; "description"; "servingSize"; "servingSizeUnit"; "labelNutrients"] ->
     dict_get k d' = dict_get k d) ->
  dict_get "foodNutrients" d = Some (VList xs) ->
  dict_get "foodNutrients" d' = Some (VList xs') ->
  nutrient_entries rt xs = Some es ->
  nutrient_entries rt xs' = Some es' ->
  (forall n, In n required_nutrients -> amount_of n es' = amount_of n es) ->
  parse_json rt (VDict d') = parse_json rt (VDict d)
  /\ from_json rt (VDict d') = from_json rt (VDict d).
Proof.
  intros rt d d' xs xs' es es' Hkeys Hfn Hfn' Hes Hes' Hamounts.
  assert (G : forall k,
            In k ["fdcId"; "description"; "servingSize"; "servingSizeUnit";
                  "labelNutrients"] ->
            getitem (VDict d') k = getitem (VDict d) k).
  { intros k Hk. cbn [getitem]. now rewrite (Hkeys k Hk). }
  assert (Hparse : parse_json rt (VDict d') = parse_json rt (VDict d)).
  { unfold parse_json. cbv zeta.
    rewrite (G "fdcId"), (G "description"), (G "servingSize"), (G "servingSizeUnit"),
      !(G "labelNutrients") by (cbn; auto 10).
    rewrite (getitem_dict _ _ _ Hfn), (getitem_dict _ _ _ Hfn').
    cbn [rbind iterate].
    rewrite (nutrition_of_entries _ _ _ _ Hes), (nutrition_of_entries _ _ _ _ Hes').
    cbn [rbind]. rewrite !getitem_nutrition.
    rewrite !Hamounts by (cbn; auto 10). reflexivity. }
  split; [assumption |]. unfold from_json. now rewrite Hparse.
Qed.

(** The apple with a note, a fibre entry and an energy given twice. *)
Lemma parse_json_discards_the_rest_witness :
  parse_json demo_runtime
    (VDict
       (("note", VStr "fresh")
        :: ("foodNutrients",
            VList (nutrient "Energy" (VInt 50) :: nutrient "Fiber" (VFloat 2.4)
                   :: apple_nutrients))
        :: apple_fields))
  = parse_json demo_runtime (VDict apple_fields)
  /\ from_json demo_runtime
       (VDict
          (("note", VStr "fresh")
           :: ("foodNutrients",
               VList (nutrient "Energy" (VInt 50) :: nutrient "Fiber" (VFloat 2.4)
                      :: apple_nutrients))
           :: apple_fields))
     = from_json demo_runtime (VDict apple_fields).
Proof.
  apply (parse_json_discards_the_rest demo_runtime apple_fields _ apple_nutrients
           (nutrient "Energy" (VInt 50) :: nutrient "Fiber" (VFloat 2.4) :: apple_nutrients)
           [("energy", VInt 52); ("total lipid (fat)", VFloat 0.2);
            ("carbohydrate, by difference", VInt 14); ("protein", VFloat 0.3)]
           [("energy", VInt 50); ("fiber", VFloat 2.4);
            ("energy", VInt 52); ("total lipid (fat)", VFloat 0.2);
            ("carbohydrate, by difference", VInt 14); ("protein", VFloat 0.3)]);
    try reflexivity.
  - intros k Hk. cbn in Hk.
    destruct Hk as [<- | [<- | [<- | [<- | [<- | []]]]]]; reflexivity.
  - intros n Hn. cbn in Hn.
    destruct Hn as [<- | [<- | [<- | [<- | []]]]]; reflexivity.
Defined.

(** ** The requests of the three methods *)

Lemma prefix_append : forall s t, String.prefix s (s ++ t) = true.
Proof.
  induction s as [| c rest IH]; intros t; [destruct t; reflexivity |].
  cbn. destruct (ascii_dec c c) as [_ | Hne]; [apply IH | contradiction].
Qed.

Lemma api_key_after_update : forall k kwargs more,
  dict_get "api_key" (dict_update (("api_key", k) :: more) kwargs) <> None.
Proof.
  intros k kwargs more. rewrite dict_get_update.
  destruct (dict_get "api_key" (rev kwargs)); cbn; discriminate.
Qed.

Lemma food_request_well_addressed : forall rt self food_id kwargs,
  well_addressed (food_request rt self food_id kwargs).
Proof.
  intros. split; [apply prefix_append | apply api_key_after_update].
Qed.

Lemma foods_request_well_addressed : forall rt self ids kwargs,
  well_addressed (foods_request rt self ids kwargs).
Proof.
  intros. split; [apply prefix_append | apply api_key_after_update].
Qed.

Lemma search_request_well_addressed : forall self kwargs,
  well_addressed (search_request self kwargs).
Proof.
  intros. split; [apply prefix_append | apply api_key_after_update].
Qed.

(** With an integer bound to [food_id], the function under [food_by_id]
    sends its request, whatever comes of it. *)
Lemma food_by_id_body_sent : forall rt self args kwds w bound kwargs,
  bind_arguments food_by_id_signature args kwds = Ok (bound, kwargs) ->
  isinstance_int (argument "food_id" bound) = true ->
  exists r,
    food_by_id_body rt self args kwds w
    = (r, mk_world
            (sent w ++ [food_request rt self (argument "food_id" bound) kwargs])%list
            (food_by_id_cache w) (foods_by_id_cache w) (search_food_by_query_cache w)).
Proof.
  intros rt self args kwds w bound kwargs Hbind Hint.
  unfold food_by_id_body, bind, lift, get. rewrite Hbind. cbn [fst snd].
  rewrite Hint. cbn [negb].
  change (mk_request
            (urljoin base_url ("food/" ++ py_str rt (argument "food_id" bound)))
            (dict_update [("api_key", api_key self)] kwargs))
    with (food_request rt self (argument "food_id" bound) kwargs).
  cbn [sent food_by_id_cache foods_by_id_cache search_food_by_query_cache].
  destruct (requests_get rt (sent w) _) as [resp | e]; [| eauto].
  destruct (check_response resp); [| eauto].
  destruct (json_loads rt (text resp)) as [data | e]; eauto.
Qed.

(** With a list of at most twenty ids bound to [food_ids], the function
    under [foods_by_id] sends its request. *)
Lemma foods_by_id_body_sent : forall rt self args kwds w bound kwargs ids,
  bind_arguments foods_by_id_signature args kwds = Ok (bound, kwargs) ->
  argument "food_ids" bound = VList ids ->
  (List.length ids <= 20)%nat ->
  exists r,
    foods_by_id_body rt self args kwds w
    = (r, mk_world (sent w ++ [foods_request rt self ids kwargs])%list
            (food_by_id_cache w) (foods_by_id_cache w) (search_food_by_query_cache w)).
Proof.
  intros rt self args kwds w bound kwargs ids Hbind Hids Hlen.
  unfold foods_by_id_body, bind, lift, get. rewrite Hbind. cbn [fst snd].
  rewrite Hids.
  assert (Hlt : (20 <? List.length ids)%nat = false) by (apply Nat.ltb_ge; exact Hlen).
  rewrite Hlt.
  change (mk_request (urljoin base_url "foods")
            (dict_update
               [("api_key", api_key self);
                ("fdcIds", VStr (String.concat "," (map (py_str rt) ids)))] kwargs))
    with (foods_request rt self ids kwargs).
  cbn [sent food_by_id_cache foods_by_id_cache search_food_by_query_cache].
  destruct (requests_get rt (sent w) _) as [resp | e]; [| eauto].
  destruct (check_response resp); [| eauto].
  destruct (json_loads rt (text resp)) as [data | e]; [| eauto].
  destruct (getitem data "foods") as [foods | e]; [| eauto].
  destruct (iterate foods) as [xs | e]; eauto.
Qed.

Lemma food_by_id_body_effect : forall rt self args kwds w,
  one_request_at_most w (snd (food_by_id_body rt self args kwds w)).
Proof.
  intros rt self args kwds w.
  destruct (bind_arguments food_by_id_signature args kwds) as [[bound kwargs] | e] eqn:Hb.
  - destruct (isinstance_int (argument "food_id" bound)) eqn:Hint.
    + destruct (food_by_id_body_sent rt self args kwds w bound kwargs Hb Hint) as [r ->].
      right. eexists. split; [apply food_request_well_addressed | reflexivity].
    + rewrite (food_by_id_body_not_int rt self args kwds w bound kwargs Hb Hint).
      now left.
  - left. unfold food_by_id_body, bind, lift. now rewrite Hb.
Qed.

Lemma foods_by_id_body_effect : forall rt self args kwds w,
  one_request_at_most w (snd (foods_by_id_body rt self args kwds w)).
Proof.
  intros rt self args kwds w.
  destruct (bind_arguments foods_by_id_signature args kwds) as [[bound kwargs] | e] eqn:Hb.
  - destruct (argument "food_ids" bound) as [| | | | | ids | |] eqn:Hids;
      try (left; unfold foods_by_id_body, bind, lift, raise; rewrite Hb; cbn [fst snd];
           rewrite Hids; reflexivity).
    destruct (Nat.le_gt_cases (List.length ids) 20) as [Hle | Hgt].
    + destruct (foods_by_id_body_sent rt self args kwds w bound kwargs ids Hb Hids Hle)
        as [r ->].
      right. eexists. split; [apply foods_request_well_addressed | reflexivity].
    + left. unfold foods_by_id_body, bind, lift, raise. rewrite Hb. cbn [fst snd].
      rewrite Hids. apply Nat.ltb_lt in Hgt. now rewrite Hgt.
  - left. unfold foods_by_id_body, bind, lift. now rewrite Hb.
Qed.

Lemma search_food_by_query_body_effect : forall rt self args kwds w,
  one_request_at_most w (snd (search_food_by_query_body rt self args kwds w)).
Proof.
  intros rt self args kwds w.
  destruct (bind_arguments search_food_by_query_signature args kwds)
    as [[bound kwargs] | e] eqn:Hb.
  - destruct (search_food_by_query_body_sent rt self args kwds w bound kwargs Hb) as [r ->].
    right. eexists. split; [apply search_request_well_addressed | reflexivity].
  - left. unfold search_food_by_query_body, bind, lift. now rewrite Hb.
Qed.

(** ** One request at most *)

Lemma one_request_at_most_sent : forall w w',
  one_request_at_most w w' -> sends_at_most_one (sent w) (sent w').
Proof.
  intros w w' [-> | (req & Hreq & ->)]; [now left | right; eauto].
Qed.

Lemma cached_sends : forall (A : Type) table store (f : list value -> dict -> M A)
                            self args kwds w,
  (forall t w, sent (store t w) = sent w) ->
  (forall w, one_request_at_most w (snd (f args kwds w))) ->
  sends_at_most_one (sent w) (sent (snd (cached table store f self args kwds w))).
Proof.
  intros A table store f self args kwds w Hstore Hf. unfold cached. cbv zeta.
  destruct (key_unhashable _); [now left |].
  destruct (cache_find _ (table w)); [now left |].
  specialize (Hf w). apply one_request_at_most_sent in Hf.
  destruct (f args kwds w) as [[r | e] w']; cbn [snd] in *; [now rewrite Hstore | assumption].
Qed.

Lemma call_sends : forall rt m self args kwds w,
  sends_at_most_one (sent w) (sent (snd (call rt m self args kwds w))).
Proof.
  intros rt m self args kwds w.
  destruct m; cbn [call]; rewrite snd_outcome_of;
    unfold food_by_id, foods_by_id, search_food_by_query;
    apply cached_sends; try reflexivity; intros w0.
  - apply food_by_id_body_effect.
  - apply foods_by_id_body_effect.
  - apply search_food_by_query_body_effect.
Qed.

Lemma json_spec_body_run : forall rt self w,
  json_spec_body rt self w
  = (rbind (requests_get rt (sent w) (json_spec_request self))
       (fun resp => rbind (check_response resp) (fun _ => json_loads rt (text resp))),
     mk_world (sent w ++ [json_spec_request self])%list (food_by_id_cache w)
       (foods_by_id_cache w) (search_food_by_query_cache w)).
Proof.
  intros rt self w. unfold json_spec_body, bind, lift, get. cbv zeta.
  change (mk_request (urljoin base_url "json-spec") [("api_key", api_key self)])
    with (json_spec_request self).
  destruct (requests_get rt (sent w) _) as [resp | e]; cbn [rbind]; [| reflexivity].
  destruct (check_response resp); reflexivity.
Qed.

Lemma yaml_spec_body_run : forall rt self w,
  yaml_spec_body rt self w
  = (rbind (requests_get rt (sent w) (yaml_spec_request self))
       (fun resp => rbind (check_response resp) (fun _ => Ok (text resp))),
     mk_world (sent w ++ [yaml_spec_request self])%list (food_by_id_cache w)
       (foods_by_id_cache w) (search_food_by_query_cache w)).
Proof.
  intros rt self w. unfold yaml_spec_body, bind, lift, get, ret. cbv zeta.
  change (mk_request (urljoin base_url "yaml-spec") [("api_key", api_key self)])
    with (yaml_spec_request self).
  destruct (requests_get rt (sent w) _) as [resp | e]; cbn [rbind]; [| reflexivity].
  destruct (check_response resp); reflexivity.
Qed.

Lemma spec_request_well_addressed : forall self,
  well_addressed (json_spec_request self) /\ well_addressed (yaml_spec_request self).
Proof.
  intros self. split; (split; [apply prefix_append | cbn; discriminate]).
Qed.

Lemma step_sends : forall rt a s,
  sends_at_most_one (sent (net s)) (sent (net (step rt a s))).
Proof.
  intros rt a s. destruct a as [c | self | self]; cbn [step net].
  - apply call_sends.
  - unfold json_spec, cached_property.
    destruct (attr_find _ _); [now left |]. rewrite json_spec_body_run.
    right. exists (json_spec_request self).
    split; [apply spec_request_well_addressed |].
    destruct (rbind _ _); reflexivity.
  - unfold yaml_spec, cached_property.
    destruct (attr_find _ _); [now left |]. rewrite yaml_spec_body_run.
    right. exists (yaml_spec_request self).
    split; [apply spec_request_well_addressed |].
    destruct (rbind _ _); reflexivity.
Qed.

(** Whatever a program does with its clients, no call and no read of a
    property sends more than one request, requests are only ever added to
    the log, and every request goes to a path under [base_url] and carries
    an [api_key] parameter. *)
Theorem run_session_requests :
  forall (rt : runtime) (actions : list action) (s : session),
  exists reqs : list request,
    sent (net (run_session rt actions s)) = (sent (net s) ++ reqs)%list
    /\ (List.length reqs <= List.length actions)%nat
    /\ Forall well_addressed reqs.
Proof.
  intros rt actions. induction actions as [| a rest IH]; intros s.
  - exists []. cbn. rewrite app_nil_r. repeat split; auto.
  - cbn [run_session]. destruct (IH (step rt a s)) as (reqs & Hsent & Hlen & Hall).
    destruct (step_sends rt a s) as [Hsame | (req & Hreq & Hmore)].
    + exists reqs. rewrite Hsent, Hsame. cbn. repeat split; auto.
    + exists (req :: reqs). rewrite Hsent, Hmore, <- app_assoc. cbn.
      repeat split; auto. lia.
Qed.

(** ** What the tables hold *)

Section CachedEffect.

Variable A : Type.
Variable table : world -> list (key * A).
Variable store : list (key * A) -> world -> world.
Variable f : list value -> dict -> M A.

Hypothesis table_store : forall t w, table (store t w) = t.
Hypothesis f_keeps : forall args kwds w, table (snd (f args kwds w)) = table w.

(** The wrapper adds one entry, the key with the result, when the call
    returns on a miss, and otherwise leaves its table as it was. *)
Lemma cached_table_effect : forall self args kwds w,
  table (snd (cached table store f self args kwds w))
  = (table w
     ++ match fst (cached table store f self args kwds w),
              cache_find (mk_key self args kwds) (table w) with
        | Ok r, None => [(mk_key self args kwds, r)]
        | _, _ => []
        end)%list.
Proof.
  intros self args kwds w. unfold cached. cbv zeta.
  destruct (key_unhashable _); [cbn; now rewrite app_nil_r |].
  destruct (cache_find (mk_key self args kwds) (table w)) as [hit |] eqn:Hfind.
  - cbn. now rewrite app_nil_r.
  - pose proof (f_keeps args kwds w) as Hkeep.
    destruct (f args kwds w) as [[r | e] w']; cbn in *.
    + now rewrite table_store, Hkeep.
    + now rewrite Hkeep, app_nil_r.
Qed.

End CachedEffect.

(** After a call of method [m], the table of [m] has one entry more, the
    key of the call with its result, exactly when the call returned and
    its key was not in the table; in every other case, and for the tables
    of the other methods always, the tables are as they were.  So a call
    that raises stores nothing and a call answered from the table stores
    nothing. *)
Theorem call_table_effect :
  forall (rt : runtime) (m m' : method) (self : FCAPI) (args : list value) (kwds : dict)
         (w : world),
  table_of m' (snd (call rt m self args kwds w))
  = (table_of m' w
     ++ match fst (call rt m self args kwds w),
              cache_find (mk_key (instance self) args kwds) (table_of m w) with
        | Ok r, None =>
            if method_eqb m m' then [(mk_key (instance self) args kwds, r)] else []
        | _, _ => []
        end)%list.
Proof.
  intros rt m m' self args kwds w.
  pose proof (food_by_id_body_keeps_tables rt self) as K1.
  pose proof (foods_by_id_body_keeps_tables rt self) as K2.
  pose proof (search_food_by_query_body_keeps_tables rt self) as K3.
  assert (Hnil : forall (r : result outcome) (o : option outcome),
            match r, o with
            | Ok _, None => @nil (key * outcome)
            | _, _ => []
            end = []).
  { intros [r |] [o |]; reflexivity. }
  destruct m, m'; cbn [call table_of method_eqb];
    rewrite snd_outcome_of, fst_outcome_of, ?Hnil, ?app_nil_r, ?cache_find_map;
    unfold food_by_id, foods_by_id, search_food_by_query.
  - rewrite cached_table_effect; [| reflexivity | intros; apply K1].
    rewrite map_app. f_equal.
    destruct (fst _) as [r | e]; [| reflexivity].
    destruct (cache_find _ _); reflexivity.
  - f_equal. apply (cached_other _ _ _ _ _ foods_by_id_cache); [reflexivity |].
    intros; apply K1.
  - f_equal. apply (cached_other _ _ _ _ _ search_food_by_query_cache); [reflexivity |].
    intros; apply K1.
  - f_equal. apply (cached_other _ _ _ _ _ food_by_id_cache); [reflexivity |].
    intros; apply K2.
  - rewrite cached_table_effect; [| reflexivity | intros; apply K2].
    rewrite map_app. f_equal.
    destruct (fst _) as [r | e]; [| reflexivity].
    destruct (cache_find _ _); reflexivity.
  - f_equal. apply (cached_other _ _ _ _ _ search_food_by_query_cache); [reflexivity |].
    intros; apply K2.
  - f_equal. apply (cached_other _ _ _ _ _ food_by_id_cache); [reflexivity |].
    intros; apply K3.
  - f_equal. apply (cached_other _ _ _ _ _ foods_by_id_cache); [reflexivity |].
    intros; apply K3.
  - rewrite cached_table_effect; [| reflexivity | intros; apply K3].
    rewrite map_app. f_equal.
    destruct (fst _) as [r | e]; [| reflexivity].
    destruct (cache_find _ _); reflexivity.
Qed.

(** ** The cached properties *)

Lemma attr_find_app : forall (A : Type) i (store more : list (nat * A)) v,
  attr_find i store = Some v -> attr_find i (store ++ more)%list = Some v.
Proof.
  intros A i store more v. induction store as [| [j x] rest IH]; cbn; [discriminate |].
  destruct (Nat.eqb j i); auto.
Qed.

Lemma attr_find_last : forall (A : Type) i (store : list (nat * A)) v,
  attr_find i store = None -> attr_find i (store ++ [(i, v)])%list = Some v.
Proof.
  intros A i store v. induction store as [| [j x] rest IH]; cbn.
  - now rewrite Nat.eqb_refl.
  - destruct (Nat.eqb j i); [discriminate | auto].
Qed.

Section CachedProperty.

Variable A : Type.
Variable store : session -> list (nat * A).
Variable put : list (nat * A) -> session -> session.
Variable f : M A.
Variable self : FCAPI.

Hypothesis store_put : forall t s, store (put t s) = t.
Hypothesis store_net : forall w s,
  store (mk_session w (json_spec_store s) (yaml_spec_store s)) = store s.
Hypothesis net_put : forall t s, net (put t s) = net s.

(** A read that returns leaves its value with the instance. *)
Lemma cached_property_holds : forall s v s1,
  cached_property self store put f s = (Ok v, s1) ->
  attr_find (instance self) (store s1) = Some v.
Proof.
  intros s v s1 H. unfold cached_property in H.
  destruct (attr_find (instance self) (store s)) as [held |] eqn:Hfind.
  - inversion H; subst. assumption.
  - destruct (f (net s)) as [[v' | e] w]; inversion H; subst; clear H.
    rewrite store_put, store_net. now apply attr_find_last.
Qed.

(** A read of what the instance holds returns it and changes nothing. *)
Lemma cached_property_held : forall s v,
  attr_find (instance self) (store s) = Some v ->
  cached_property self store put f s = (Ok v, s).
Proof.
  intros s v H. unfold cached_property. now rewrite H.
Qed.

Lemma cached_property_keeps : forall s i v,
  attr_find i (store s) = Some v ->
  attr_find i (store (snd (cached_property self store put f s))) = Some v.
Proof.
  intros s i v H. unfold cached_property.
  destruct (attr_find (instance self) (store s)); [assumption |].
  destruct (f (net s)) as [[v' | e] w]; cbn [snd].
  - rewrite store_put, store_net. now apply attr_find_app.
  - now rewrite store_net.
Qed.

Lemma cached_property_other : forall (B : Type) (other : session -> B) s,
  (forall t s, other (put t s) = other s) ->
  (forall w s, other (mk_session w (json_spec_store s) (yaml_spec_store s)) = other s) ->
  other (snd (cached_property self store put f s)) = other s.
Proof.
  intros B other s Hput Hnet. unfold cached_property.
  destruct (attr_find (instance self) (store s)); [reflexivity |].
  destruct (f (net s)) as [[v' | e] w]; cbn [snd]; [now rewrite Hput, Hnet | apply Hnet].
Qed.

End CachedProperty.

(** Every value an instance holds, it still holds a step later. *)
Lemma step_keeps_specs : forall rt a s,
  (forall i v, attr_find i (json_spec_store s) = Some v ->
               attr_find i (json_spec_store (step rt a s)) = Some v)
  /\ (forall i v, attr_find i (yaml_spec_store s) = Some v ->
                  attr_find i (yaml_spec_store (step rt a s)) = Some v).
Proof.
  intros rt a s. destruct a as [c | self | self]; cbn [step]; split; intros i v H;
    try assumption; unfold json_spec, yaml_spec.
  - now apply cached_property_keeps.
  - now rewrite (cached_property_other _ _ _ _ _ _ yaml_spec_store).
  - now rewrite (cached_property_other _ _ _ _ _ _ json_spec_store).
  - now apply cached_property_keeps.
Qed.

Lemma run_session_keeps_specs : forall rt actions s,
  (forall i v, attr_find i (json_spec_store s) = Some v ->
               attr_find i (json_spec_store (run_session rt actions s)) = Some v)
  /\ (forall i v, attr_find i (yaml_spec_store s) = Some v ->
                  attr_find i (yaml_spec_store (run_session rt actions s)) = Some v).
Proof.
  intros rt actions. induction actions as [| a rest IH]; intros s; cbn [run_session].
  - split; auto.
  - destruct (IH (step rt a s)) as [J Y]. destruct (step_keeps_specs rt a s) as [J0 Y0].
    split; auto.
Qed.

(** A read of [json_spec] that returns either returns what the instance
    already held and changes nothing, or has sent the one request for
    the JSON specification, got a response of status 200 and returns its
    decoded body.  Either way every later read on that instance, whatever
    the program does in between, returns the same document and sends
    nothing. *)
Theorem json_spec_fetched_once :
  forall (rt : runtime) (self : FCAPI) (s s1 : session) (document : value),
  json_spec rt self s = (Ok document, s1) ->
  ((attr_find (instance self) (json_spec_store s) = Some document /\ s1 = s)
   \/ (attr_find (instance self) (json_spec_store s) = None
       /\ sent (net s1)
          = (sent (net s)
             ++ [mk_request (base_url ++ "json-spec") [("api_key", api_key self)]])%list
       /\ exists resp,
            requests_get rt (sent (net s))
              (mk_request (base_url ++ "json-spec") [("api_key", api_key self)])
            = Ok resp
            /\ status_code resp = 200
            /\ json_loads rt (text resp) = Ok document))
  /\ forall later : list action,
       json_spec rt self (run_session rt later s1)
       = (Ok document, run_session rt later s1).
Proof.
  intros rt self s s1 document H. split.
  - unfold json_spec, cached_property in H.
    destruct (attr_find (instance self) (json_spec_store s)) as [held |] eqn:Hfind.
    + inversion H; subst. left. split; reflexivity.
    + right. split; [reflexivity |]. rewrite json_spec_body_run in H.
      fold (json_spec_request self).
      destruct (requests_get rt (sent (net s)) (json_spec_request self)) as [resp | e];
        [| discriminate].
      cbn [rbind] in H.
      destruct (check_response resp) as [ok | e] eqn:Hcheck; [| discriminate].
      cbn [rbind] in H.
      destruct (json_loads rt (text resp)) as [doc | e] eqn:Hjson; [| discriminate].
      inversion H; subst; clear H. split; [reflexivity |].
      exists resp. repeat split; try assumption.
      unfold check_response in Hcheck.
      destruct (Z.eqb_spec (status_code resp) 200); [assumption |].
      destruct (status_code resp =? 400); [discriminate |].
      destruct (status_code resp =? 404); discriminate.
  - intros later.
    assert (Hheld : attr_find (instance self) (json_spec_store s1) = Some document).
    { unfold json_spec in H.
      apply (cached_property_holds _ json_spec_store _ _ self) with (s := s) in H; auto. }
    apply (run_session_keeps_specs rt later s1) in Hheld.
    unfold json_spec. now apply cached_property_held.
Qed.

(** A read of [yaml_spec] that returns either returns what the instance
    already held, or has sent the one request for the YAML specification,
    got a response of status 200 and returns its text as it came, which
    is never decoded.  Either way every later read on that instance
    returns the same text and sends nothing. *)
Theorem yaml_spec_fetched_once :
  forall (rt : runtime) (self : FCAPI) (s s1 : session) (document : string),
  yaml_spec rt self s = (Ok document, s1) ->
  ((attr_find (instance self) (yaml_spec_store s) = Some document /\ s1 = s)
   \/ (attr_find (instance self) (yaml_spec_store s) = None
       /\ sent (net s1)
          = (sent (net s)
             ++ [mk_request (base_url ++ "yaml-spec") [("api_key", api_key self)]])%list
       /\ exists resp,
            requests_get rt (sent (net s))
              (mk_request (base_url ++ "yaml-spec") [("api_key", api_key self)])
            = Ok resp
            /\ status_code resp = 200
            /\ document = text resp))
  /\ forall later : list action,
       yaml_spec rt self (run_session rt later s1)
       = (Ok document, run_session rt later s1).
Proof.
  intros rt self s s1 document H. split.
  - unfold yaml_spec, cached_property in H.
    destruct (attr_find (instance self) (yaml_spec_store s)) as [held |] eqn:Hfind.
    + inversion H; subst. left. split; reflexivity.
    + right. split; [reflexivity |]. rewrite yaml_spec_body_run in H.
      fold (yaml_spec_request self).
      destruct (requests_get rt (sent (net s)) (yaml_spec_request self)) as [resp | e];
        [| discriminate].
      cbn [rbind] in H.
      destruct (check_response resp) as [ok | e] eqn:Hcheck; [| discriminate].
      cbn [rbind] in H. inversion H; subst; clear H. split; [reflexivity |].
      exists resp. repeat split.
      unfold check_response in Hcheck.
      destruct (Z.eqb_spec (status_code resp) 200); [assumption |].
      destruct (status_code resp =? 400); [discriminate |].
      destruct (status_code resp =? 404); discriminate.
  - intros later.
    assert (Hheld : attr_find (instance self) (yaml_spec_store s1) = Some document).
    { unfold yaml_spec in H.
      apply (cached_property_holds _ yaml_spec_store _ _ self) with (s := s) in H; auto. }
    apply (run_session_keeps_specs rt later s1) in Hheld.
    unfold yaml_spec. now apply cached_property_held.
Qed.

(** ** Nothing is evicted *)

Lemma step_grows : forall rt a s, grows (net s) (net (step rt a s)).
Proof.
  intros rt a s. destruct a as [c | self | self]; cbn [step net].
  - apply call_grows.
  - unfold json_spec, cached_property.
    destruct (attr_find _ _); [apply grows_refl |]. rewrite json_spec_body_run.
    destruct (rbind _ _); repeat split; auto.
  - unfold yaml_spec, cached_property.
    destruct (attr_find _ _); [apply grows_refl |]. rewrite yaml_spec_body_run.
    destruct (rbind _ _); repeat split; auto.
Qed.

Lemma run_session_grows : forall rt actions s,
  grows (net s) (net (run_session rt actions s)).
Proof.
  intros rt actions. induction actions as [| a rest IH]; intros s; cbn [run_session].
  - apply grows_refl.
  - eapply grows_trans; [apply step_grows | apply IH].
Qed.

(** The tables and the instances only ever gain entries: a key found in
    the table of a method, and a document an instance holds, are found
    unchanged after anything the program does next. *)
Theorem nothing_is_evicted :
  forall (rt : runtime) (actions : list action) (s : session),
  (forall m k r,
     cache_find k (table_of m (net s)) = Some r ->
     cache_find k (table_of m (net (run_session rt actions s))) = Some r)
  /\ (forall i v,
        attr_find i (json_spec_store s) = Some v ->
        attr_find i (json_spec_store (run_session rt actions s)) = Some v)
  /\ (forall i v,
        attr_find i (yaml_spec_store s) = Some v ->
        attr_find i (yaml_spec_store (run_session rt actions s)) = Some v).
Proof.
  intros rt actions s.
  destruct (run_session_grows rt actions s) as (G1 & G2 & G3).
  destruct (run_session_keeps_specs rt actions s) as [J Y].
  repeat split; auto.
  intros m k r. destruct m; cbn [table_of]; rewrite !cache_find_map.
  - destruct (cache_find k (food_by_id_cache (net s))) as [a |] eqn:Hf; [| discriminate].
    now rewrite (G1 _ _ Hf).
  - destruct (cache_find k (foods_by_id_cache (net s))) as [a |] eqn:Hf; [| discriminate].
    now rewrite (G2 _ _ Hf).
  - destruct (cache_find k (search_food_by_query_cache (net s))) as [a |] eqn:Hf;
      [| discriminate].
    now rewrite (G3 _ _ Hf).
Qed.

(** ** One client never sees what another stored *)

Lemma cache_find_foreign : forall (A : Type) i args kwds (table : list (key * A)),
  Forall (fun kr => key_self (fst kr) <> i) table ->
  cache_find (mk_key i args kwds) table = None.
Proof.
  intros A i args kwds table H. induction H as [| [k r] rest Hk _ IH]; [reflexivity |].
  cbn in *. unfold key_eqb. cbn.
  destruct (Nat.eqb_spec (key_self k) i); [contradiction | exact IH].
Qed.

Lemma attr_find_foreign : forall (A : Type) i (store : list (nat * A)),
  Forall (fun jv => fst jv <> i) store -> attr_find i store = None.
Proof.
  intros A i store H. induction H as [| [j v] rest Hj _ IH]; [reflexivity |].
  cbn in *. destruct (Nat.eqb_spec j i); [contradiction | exact IH].
Qed.

(** What a call adds to a table, if anything, is filed under its key. *)
Lemma call_appends : forall rt m m' self args kwds w,
  exists tail,
    table_of m' (snd (call rt m self args kwds w)) = (table_of m' w ++ tail)%list
    /\ Forall (fun kr => fst kr = mk_key (instance self) args kwds) tail.
Proof.
  intros rt m m' self args kwds w.
  pose proof (food_by_id_body_keeps_tables rt self) as K1.
  pose proof (foods_by_id_body_keeps_tables rt self) as K2.
  pose proof (search_food_by_query_body_keeps_tables rt self) as K3.
  assert (Hown : forall (A : Type) table store (f : list value -> dict -> M A)
                        (wrap : A -> outcome),
            (forall t w, table (store t w) = t) ->
            (forall args kwds w, table (snd (f args kwds w)) = table w) ->
            exists tail,
              map (fun kr => (fst kr, wrap (snd kr)))
                (table (snd (cached table store f (instance self) args kwds w)))
              = (map (fun kr => (fst kr, wrap (snd kr))) (table w) ++ tail)%list
              /\ Forall (fun kr => fst kr = mk_key (instance self) args kwds) tail).
  { intros A table store f wrap H1 H2.
    rewrite (cached_table_effect A table store f H1 H2), map_app.
    eexists. split; [reflexivity |].
    destruct (fst _) as [r | e]; [| constructor].
    destruct (cache_find _ _); repeat constructor. }
  assert (Hsame : forall l : list (key * outcome),
            exists tail, l = (l ++ tail)%list
                         /\ Forall (fun kr => fst kr = mk_key (instance self) args kwds) tail).
  { intros l. exists []. rewrite app_nil_r. split; [reflexivity | constructor]. }
  destruct m, m'; cbn [call table_of]; rewrite snd_outcome_of;
    unfold food_by_id, foods_by_id, search_food_by_query.
  - apply Hown; [reflexivity | intros; apply K1].
  - rewrite (cached_other _ _ _ _ _ foods_by_id_cache); [apply Hsame | reflexivity |].
    intros; apply K1.
  - rewrite (cached_other _ _ _ _ _ search_food_by_query_cache);
      [apply Hsame | reflexivity |]. intros; apply K1.
  - rewrite (cached_other _ _ _ _ _ food_by_id_cache); [apply Hsame | reflexivity |].
    intros; apply K2.
  - apply Hown; [reflexivity | intros; apply K2].
  - rewrite (cached_other _ _ _ _ _ search_food_by_query_cache);
      [apply Hsame | reflexivity |]. intros; apply K2.
  - rewrite (cached_other _ _ _ _ _ food_by_id_cache); [apply Hsame | reflexivity |].
    intros; apply K3.
  - rewrite (cached_other _ _ _ _ _ foods_by_id_cache); [apply Hsame | reflexivity |].
    intros; apply K3.
  - apply Hown; [reflexivity | intros; apply K3].
Qed.

Lemma step_unknown_to : forall rt a s i,
  instance (client_of a) <> i -> unknown_to i s -> unknown_to i (step rt a s).
Proof.
  intros rt a s i Hne (T & J & Y). destruct a as [c | self | self]; cbn [client_of] in Hne.
  - split; [| split; assumption]. intros m. cbn [step net].
    destruct (call_appends rt (inv_method c) m (inv_self c) (inv_args c) (inv_kwds c)
                (net s)) as (tail & -> & Htail).
    apply Forall_app. split; [apply T |].
    eapply Forall_impl; [| exact Htail]. intros kr ->. exact Hne.
  - cbn [step]. unfold json_spec, cached_property.
    destruct (attr_find _ _); [repeat split; assumption |].
    rewrite json_spec_body_run.
    destruct (rbind _ _); cbn [snd]; (split; [| split]); cbn; try assumption.
    apply Forall_app. split; [assumption |]. repeat constructor. exact Hne.
  - cbn [step]. unfold yaml_spec, cached_property.
    destruct (attr_find _ _); [repeat split; assumption |].
    rewrite yaml_spec_body_run.
    destruct (rbind _ _); cbn [snd]; (split; [| split]); cbn; try assumption.
    apply Forall_app. split; [assumption |]. repeat constructor. exact Hne.
Qed.

(** The tables belong to the class, not to the instance, but the key
    starts with the instance: after any program that never used the
    instance [self], no call of [self] is answered from a table and no
    property of [self] is held, so a lookup of an integer id by [self]
    sends its request even if another client looked the same id up. *)
Theorem other_clients_entries_are_not_served :
  forall (rt : runtime) (self : FCAPI) (actions : list action),
  Forall (fun a => instance (client_of a) <> instance self) actions ->
  let s := run_session rt actions new_session in
  (forall m args kwds,
     cache_find (mk_key (instance self) args kwds) (table_of m (net s)) = None)
  /\ attr_find (instance self) (json_spec_store s) = None
  /\ attr_find (instance self) (yaml_spec_store s) = None
  /\ forall id : Z,
       sent (snd (food_by_id rt self [VInt id] [] (net s)))
       = (sent (net s)
          ++ [mk_request (base_url ++ "food/" ++ str_of_int id)
                [("api_key", api_key self)]])%list.
Proof.
  intros rt self actions Hactions s.
  assert (Hunknown : unknown_to (instance self) s).
  { subst s.
    assert (Hgen : forall s0, unknown_to (instance self) s0 ->
                     unknown_to (instance self) (run_session rt actions s0)).
    { induction Hactions as [| a rest Ha _ IH]; intros s0 H0; cbn [run_session];
        [assumption |]. apply IH. now apply step_unknown_to. }
    apply Hgen. split; [| split]; try constructor. intros m. destruct m; constructor. }
  destruct Hunknown as (T & J & Y).
  split; [| split; [| split]].
  - intros m args kwds. apply cache_find_foreign. apply T.
  - now apply attr_find_foreign.
  - now apply attr_find_foreign.
  - intros id. unfold food_by_id, cached. cbv zeta.
    change (key_unhashable (mk_key (instance self) [VInt id] [])) with (@None string).
    assert (Hmiss : cache_find (mk_key (instance self) [VInt id] [])
                      (food_by_id_cache (net s)) = None).
    { specialize (T Food_by_id). cbn [table_of] in T. rewrite Forall_map in T.
      apply cache_find_foreign. exact T. }
    rewrite Hmiss.
    destruct (food_by_id_body_sent rt self [VInt id] [] (net s)
                [("food_id", VInt id)] [] eq_refl eq_refl) as [r ->].
    destruct r; reflexivity.
Qed.

(** One client looks food 123 up and reads both specifications; another
    client then starts from nothing. *)
Lemma other_clients_entries_are_not_served_witness :
  sent (snd (food_by_id demo_runtime (mk_FCAPI 1 (VStr "OTHER_KEY")) [VInt 123] []
               (net (run_session demo_runtime
                       [Invoke (mk_invocation Food_by_id demo_client [VInt 123] []);
                        Read_json_spec demo_client; Read_yaml_spec demo_client]
                       new_session))))
  = (sent (net (run_session demo_runtime
                  [Invoke (mk_invocation Food_by_id demo_client [VInt 123] []);
                   Read_json_spec demo_client; Read_yaml_spec demo_client]
                  new_session))
     ++ [mk_request (base_url ++ "food/" ++ str_of_int 123)
           [("api_key", VStr "OTHER_KEY")]])%list.
Proof.
  apply (other_clients_entries_are_not_served demo_runtime (mk_FCAPI 1 (VStr "OTHER_KEY"))
           [Invoke (mk_invocation Food_by_id demo_client [VInt 123] []);
            Read_json_spec demo_client; Read_yaml_spec demo_client]).
  repeat constructor; cbn; discriminate.
Defined.

(** ** Decimal numerals *)

Lemma int_of_decimal_str_of_int : forall z, int_of_decimal (str_of_int z) = Some z.
Proof.
  intros z. unfold int_of_decimal, str_of_int.
  rewrite NilZero.isi.
  - cbn. now rewrite DecimalZ.of_to.
  - intros H. pose proof (f_equal Z.of_int H) as Hz. rewrite DecimalZ.of_to in Hz.
    subst z. vm_compute in H. discriminate.
  - intros H. pose proof (f_equal Z.of_int H) as Hz. rewrite DecimalZ.of_to in Hz.
    subst z. vm_compute in H. discriminate.
Qed.

Lemma str_of_int_injective : forall z z', str_of_int z = str_of_int z' -> z = z'.
Proof.
  intros z z' H. apply (f_equal int_of_decimal) in H.
  rewrite !int_of_decimal_str_of_int in H. now inversion H.
Qed.

Lemma append_injective : forall s a b, (s ++ a)%string = (s ++ b)%string -> a = b.
Proof.
  induction s as [| c rest IH]; intros a b H; cbn in H; [assumption |].
  inversion H. auto.
Qed.

(** ** [food_by_id] again *)

Lemma food_by_id_miss_sends : forall rt self args kwds w bound kwargs,
  bind_arguments food_by_id_signature args kwds = Ok (bound, kwargs) ->
  isinstance_int (argument "food_id" bound) = true ->
  key_unhashable (mk_key (instance self) args kwds) = None ->
  cache_find (mk_key (instance self) args kwds) (food_by_id_cache w) = None ->
  sent (snd (food_by_id rt self args kwds w))
  = (sent w ++ [food_request rt self (argument "food_id" bound) kwargs])%list.
Proof.
  intros rt self args kwds w bound kwargs Hbind Hint Hhash Hmiss.
  unfold food_by_id, cached. cbv zeta. rewrite Hhash, Hmiss.
  destruct (food_by_id_body_sent rt self args kwds w bound kwargs Hbind Hint) as [r ->].
  destruct r; reflexivity.
Qed.

(** Whenever a call of [food_by_id] binds an integer to [food_id], the
    only request it can send goes to [food/] followed by the decimal
    numeral of the id, and it sends it when the key is hashable and not
    in the table.  Two integers never share a path.  The parameters are
    the dict holding [api_key] updated with the keywords other than
    [food_id]: the id is no parameter, and an option named [api_key]
    takes the place of the key of the client. *)
Theorem food_by_id_request :
  forall (rt : runtime) (self : FCAPI) (args : list value) (kwds : dict) (w : world)
         (bound kwargs : dict),
  bind_arguments food_by_id_signature args kwds = Ok (bound, kwargs) ->
  isinstance_int (argument "food_id" bound) = true ->
  let req :=
    mk_request (base_url ++ "food/" ++ py_str rt (argument "food_id" bound))
      (dict_update [("api_key", api_key self)] kwargs) in
  let sent_after := sent (snd (food_by_id rt self args kwds w)) in
  (sent_after = sent w \/ sent_after = (sent w ++ [req])%list)
  /\ (key_unhashable (mk_key (instance self) args kwds) = None ->
      cache_find (mk_key (instance self) args kwds) (food_by_id_cache w) = None ->
      sent_after = (sent w ++ [req])%list)
  /\ (forall z z' : Z,
        (base_url ++ "food/" ++ py_str rt (VInt z))%string
        = (base_url ++ "food/" ++ py_str rt (VInt z'))%string ->
        z = z')
  /\ kwargs = filter (fun kv => negb (is_parameter ["food_id"] kv)) kwds
  /\ dict_get "food_id" (params req) = None
  /\ NoDup (dict_keys (params req))
  /\ (forall k,
        dict_get k (params req)
        = match dict_get k (rev kwargs) with
          | Some v => Some v
          | None => if String.eqb k "api_key" then Some (api_key self) else None
          end).
Proof.
  intros rt self args kwds w bound kwargs Hbind Hint req sent_after.
  pose proof (bind_arguments_kwargs food_by_id_signature _ _ _ _ eq_refl Hbind) as Hkw.
  change (parameters food_by_id_signature) with ["food_id"] in Hkw.
  assert (Hget : forall k,
            dict_get k (params req)
            = match dict_get k (rev kwargs) with
              | Some v => Some v
              | None => if String.eqb k "api_key" then Some (api_key self) else None
              end).
  { intro k. unfold req. cbn [params]. rewrite dict_get_update. cbn.
    now rewrite (String.eqb_sym k). }
  assert (Hmiss : key_unhashable (mk_key (instance self) args kwds) = None ->
                  cache_find (mk_key (instance self) args kwds) (food_by_id_cache w) = None ->
                  sent_after = (sent w ++ [req])%list).
  { intros Hhash Hnone.
    apply (food_by_id_miss_sends rt self args kwds w bound kwargs); assumption. }
  split; [| split; [exact Hmiss | split; [| split; [exact Hkw | split; [| split]]]]].
  - pose proof (call_sends rt Food_by_id self args kwds w) as Hs.
    cbn [call] in Hs. rewrite snd_outcome_of in Hs.
    destruct (key_unhashable (mk_key (instance self) args kwds)) eqn:Hhash.
    + left. unfold sent_after, food_by_id, cached. cbv zeta. now rewrite Hhash.
    + destruct (cache_find (mk_key (instance self) args kwds) (food_by_id_cache w))
        eqn:Hfind.
      * left. unfold sent_after, food_by_id, cached. cbv zeta. now rewrite Hhash, Hfind.
      * right. now apply Hmiss.
  - intros z z' H. cbn [py_str] in H.
    apply append_injective in H. apply append_injective in H.
    now apply str_of_int_injective.
  - rewrite Hget, Hkw, dict_get_filter_None; reflexivity.
  - unfold req. cbn [params]. apply dict_update_keys_NoDup. repeat constructor; intros [].
  - exact Hget.
Qed.

(** Food 123 in the abridged format, with a key of the caller's own. *)
Lemma food_by_id_request_witness :
  sent (snd (food_by_id demo_runtime demo_client [VInt 123]
               [("format", VStr "abridged"); ("api_key", VStr "MINE")] fresh))
  = [mk_request "https://api.nal.usda.gov/fdc/v1/food/123"
       [("api_key", VStr "MINE"); ("format", VStr "abridged")]].
Proof.
  apply (food_by_id_request demo_runtime demo_client [VInt 123]
           [("format", VStr "abridged"); ("api_key", VStr "MINE")] fresh
           [("food_id", VInt 123)]
           [("format", VStr "abridged"); ("api_key", VStr "MINE")]);
    reflexivity.
Defined.

Lemma cache_find_app_None : forall (A : Type) k (t t' : list (key * A)),
  cache_find k t = None -> cache_find k t' = None -> cache_find k (t ++ t')%list = None.
Proof.
  intros A k t t' H H'. induction t as [| [k0 r] rest IH]; cbn in *; [assumption |].
  destruct (key_eqb k0 k); [discriminate | auto].
Qed.

(** A lookup spelled [food_by_id(food_id=id)] has another key than
    [food_by_id(id)]: on a client whose table holds nothing yet, the
    second spelling after the first sends the same request a second
    time. *)
Theorem food_by_id_by_keyword_is_fetched_again :
  forall (rt : runtime) (self : FCAPI) (id : Z) (w : world),
  Forall (fun kr => key_self (fst kr) <> instance self) (food_by_id_cache w) ->
  sent (run rt
          [mk_invocation Food_by_id self [VInt id] [];
           mk_invocation Food_by_id self [] [("food_id", VInt id)]] w)
  = (sent w
     ++ [mk_request (base_url ++ "food/" ++ str_of_int id) [("api_key", api_key self)];
         mk_request (base_url ++ "food/" ++ str_of_int id) [("api_key", api_key self)]])%list.
Proof.
  intros rt self id w Hforeign. cbn [run inv_method inv_self inv_args inv_kwds].
  set (w1 := snd (call rt Food_by_id self [VInt id] [] w)).
  assert (Hsent1 : sent w1
                   = (sent w ++ [food_request rt self (VInt id) []])%list).
  { subst w1. cbn [call]. rewrite snd_outcome_of.
    apply (food_by_id_miss_sends rt self [VInt id] [] w [("food_id", VInt id)] []);
      try reflexivity.
    now apply cache_find_foreign. }
  assert (Hmiss2 : cache_find (mk_key (instance self) [] [("food_id", VInt id)])
                     (food_by_id_cache w1) = None).
  { destruct (call_appends rt Food_by_id Food_by_id self [VInt id] [] w)
      as (tail & Htable & Htail).
    fold w1 in Htable.
    assert (Hmapped : cache_find (mk_key (instance self) [] [("food_id", VInt id)])
                        (table_of Food_by_id w1) = None).
    { rewrite Htable. apply cache_find_app_None.
      - cbn [table_of]. rewrite cache_find_map.
        now rewrite (cache_find_foreign _ _ _ _ _ Hforeign).
      - clear Htable. induction Htail as [| [k r] rest Hk _ IH]; [reflexivity |].
        cbn in Hk. subst k. cbn [cache_find]. unfold key_eqb at 1. cbn.
        rewrite andb_false_r. exact IH. }
    cbn [table_of] in Hmapped. rewrite cache_find_map in Hmapped.
    destruct (cache_find _ (food_by_id_cache w1)); [discriminate | reflexivity]. }
  cbn [call]. rewrite snd_outcome_of.
  rewrite (food_by_id_miss_sends rt self [] [("food_id", VInt id)] w1
             [("food_id", VInt id)] [] eq_refl eq_refl eq_refl Hmiss2).
  rewrite Hsent1, <- app_assoc. reflexivity.
Qed.

Lemma food_by_id_by_keyword_is_fetched_again_witness :
  sent (run demo_runtime
          [mk_invocation Food_by_id demo_client [VInt 123] [];
           mk_invocation Food_by_id demo_client [] [("food_id", VInt 123)]] fresh)
  = (sent fresh
     ++ [mk_request (base_url ++ "food/" ++ str_of_int 123)
           [("api_key", api_key demo_client)];
         mk_request (base_url ++ "food/" ++ str_of_int 123)
           [("api_key", api_key demo_client)]])%list.
Proof.
  apply (food_by_id_by_keyword_is_fetched_again demo_runtime demo_client 123 fresh).
  constructor.
Defined.

(** ** The ids in [fdcIds] *)

Lemma string_of_uint_comma_free : forall d,
  comma_free (NilEmpty.string_of_uint d) = true.
Proof.
  induction d; cbn; auto.
Qed.

Lemma str_of_int_comma_free : forall z, comma_free (str_of_int z) = true.
Proof.
  intros z. unfold str_of_int. destruct (Z.to_int z) as [d | d]; cbn.
  - destruct d; try reflexivity; apply (string_of_uint_comma_free (_ d)).
  - destruct d; try reflexivity; apply (string_of_uint_comma_free (_ d)).
Qed.

Lemma str_of_int_not_empty : forall z, str_of_int z <> EmptyString.
Proof.
  intros z H. pose proof (int_of_decimal_str_of_int z) as Hz.
  rewrite H in Hz. discriminate.
Qed.

Lemma split_on_comma_free : forall s,
  comma_free s = true -> split_on "," s = [s].
Proof.
  induction s as [| c rest IH]; cbn; [reflexivity |].
  destruct (Ascii.eqb c ","); cbn; [discriminate |].
  intros H. now rewrite (IH H).
Qed.

Lemma split_on_append : forall s rest,
  comma_free s = true ->
  split_on "," (s ++ String "," rest) = s :: split_on "," rest.
Proof.
  induction s as [| c s' IH]; intros rest; cbn.
  - reflexivity.
  - destruct (Ascii.eqb c ","); cbn; [discriminate |].
    intros H. now rewrite (IH rest H).
Qed.

Lemma split_on_concat : forall x xs,
  Forall (fun s => comma_free s = true) (x :: xs) ->
  split_on "," (String.concat "," (x :: xs)) = x :: xs.
Proof.
  intros x xs. revert x. induction xs as [| y ys IH]; intros x H.
  - cbn. apply split_on_comma_free. now inversion H.
  - inversion H as [| ? ? Hx Hrest]; subst.
    change (String.concat "," (x :: y :: ys))
      with (x ++ String "," (String.concat "," (y :: ys)))%string.
    rewrite (split_on_append _ _ Hx). now rewrite (IH y Hrest).
Qed.

(** The comma-separated numerals of a list of integers read back as that
    list. *)
Lemma ids_of_fdcIds_join : forall zs,
  ids_of_fdcIds (String.concat "," (map str_of_int zs)) = Some zs.
Proof.
  intros [| z zs]; [reflexivity |].
  assert (Hsplit : split_on "," (String.concat "," (map str_of_int (z :: zs)))
                   = map str_of_int (z :: zs)).
  { cbn [map]. apply split_on_concat. rewrite <- map_cons.
    apply Forall_map. apply Forall_forall. intros; apply str_of_int_comma_free. }
  assert (Hall : all_some (map int_of_decimal (map str_of_int (z :: zs))) = Some (z :: zs)).
  { generalize (z :: zs) as l. induction l as [| a l IH]; [reflexivity |].
    cbn [map all_some]. rewrite int_of_decimal_str_of_int, IH. reflexivity. }
  unfold ids_of_fdcIds. rewrite Hsplit, Hall.
  destruct (String.concat "," (map str_of_int (z :: zs))) eqn:Hs; [| reflexivity].
  exfalso. cbn [map] in Hs.
  destruct zs as [| z' zs'].
  - cbn in Hs. now apply (str_of_int_not_empty z).
  - change (String.concat "," (str_of_int z :: map str_of_int (z' :: zs')))
      with (str_of_int z ++ String "," (String.concat "," (map str_of_int (z' :: zs'))))%string
      in Hs.
    destruct (str_of_int z) eqn:Hz; [now apply (str_of_int_not_empty z) | discriminate].
Qed.

(** ** The function under [foods_by_id] *)

(** The function that [foods_by_id] decorates, called on a list: with
    more than twenty ids it raises the [ValueError] and sends nothing;
    with twenty or fewer, the empty list included, it sends one request to [foods]
    whose parameters are [api_key] and [fdcIds] updated with the extra
    options.  Unless an option is itself named [fdcIds], the [fdcIds] sent
    for a list of integers is a string that reads back as exactly those
    integers, in order. *)
Theorem foods_by_id_body_request :
  forall (rt : runtime) (self : FCAPI) (args : list value) (kwds : dict) (w : world)
         (bound kwargs : dict) (ids : list value),
  bind_arguments foods_by_id_signature args kwds = Ok (bound, kwargs) ->
  argument "food_ids" bound = VList ids ->
  let req :=
    mk_request (base_url ++ "foods")
      (dict_update
         [("api_key", api_key self);
          ("fdcIds", VStr (String.concat "," (map (py_str rt) ids)))]
         kwargs) in
  ((20 < List.length ids)%nat ->
   foods_by_id_body rt self args kwds w
   = (Err (ValueError "food_ids must be a list of length <= 20"), w))
  /\ ((List.length ids <= 20)%nat ->
      sent (snd (foods_by_id_body rt self args kwds w)) = (sent w ++ [req])%list)
  /\ (forall zs : list Z,
        ids = map VInt zs ->
        dict_get "fdcIds" (rev kwargs) = None ->
        exists s,
          dict_get "fdcIds" (params req) = Some (VStr s)
          /\ ids_of_fdcIds s = Some zs).
Proof.
  intros rt self args kwds w bound kwargs ids Hbind Hids req. split; [| split].
  - intros Hlen. unfold foods_by_id_body, bind, lift, raise. rewrite Hbind. cbn [fst snd].
    rewrite Hids. apply Nat.ltb_lt in Hlen. now rewrite Hlen.
  - intros Hlen.
    destruct (foods_by_id_body_sent rt self args kwds w bound kwargs ids Hbind Hids Hlen)
      as [r ->].
    reflexivity.
  - intros zs -> Hnone. exists (String.concat "," (map str_of_int zs)). split.
    + unfold req. cbn [params]. rewrite dict_get_update, Hnone. cbn.
      rewrite map_map. reflexivity.
    + apply ids_of_fdcIds_join.
Qed.

(** Three ids and a format. *)
Lemma foods_by_id_body_request_witness :
  exists s,
    dict_get "fdcIds"
      (params
         (mk_request (base_url ++ "foods")
            (dict_update
               [("api_key", api_key demo_client);
                ("fdcIds",
                 VStr (String.concat ","
                         (map (py_str demo_runtime) [VInt 534358; VInt 373052; VInt (-1)])))]
               [("format", VStr "full")])))
    = Some (VStr s)
    /\ ids_of_fdcIds s = Some [534358; 373052; -1].
Proof.
  apply (foods_by_id_body_request demo_runtime demo_client
           [VList [VInt 534358; VInt 373052; VInt (-1)]] [("format", VStr "full")] fresh
           [("food_ids", VList [VInt 534358; VInt 373052; VInt (-1)])]
           [("format", VStr "full")]
           [VInt 534358; VInt 373052; VInt (-1)]);
    reflexivity.
Defined.

(** ** The results of a search *)

Lemma map_result_Ok_iff : forall (A B : Type) (f : A -> result B) l ys,
  map_result f l = Ok ys <-> Forall2 (fun x y => f x = Ok y) l ys.
Proof.
  intros A B f. induction l as [| x rest IH]; intros ys; cbn.
  - split; intros H; [inversion H; constructor | inversion H; reflexivity].
  - destruct (f x) as [y | e] eqn:Hx.
    + destruct (map_result f rest) as [ys' | e] eqn:Hrest.
      * split; intros H.
        -- inversion H; subst. constructor; [assumption | now apply IH].
        -- inversion H as [| ? y0 ? ys0 Hy Hrest0]; subst.
           apply IH in Hrest0. congruence.
      * split; intros H; [discriminate |].
        inversion H as [| ? y0 ? ys0 Hy Hrest0]; subst.
        apply IH in Hrest0. discriminate.
    + split; intros H; [discriminate |].
      inversion H as [| ? y0 ? ys0 Hy Hrest0]; subst. congruence.
Qed.

Lemma map_result_Err : forall (A B : Type) (f : A -> result B) l e,
  map_result f l = Err e -> exists x, In x l /\ f x = Err e.
Proof.
  intros A B f. induction l as [| x rest IH]; intros e H; cbn in H; [discriminate |].
  destruct (f x) as [y | e'] eqn:Hx.
  - destruct (map_result f rest) as [ys | e''] eqn:Hrest; [discriminate |].
    inversion H; subst. destruct (IH _ eq_refl) as (x0 & Hin & Hx0).
    exists x0. split; [now right | assumption].
  - inversion H; subst. exists x. split; [now left | assumption].
Qed.

Lemma search_food_by_query_body_run : forall rt self args kwds w bound kwargs,
  bind_arguments search_food_by_query_signature args kwds = Ok (bound, kwargs) ->
  search_food_by_query_body rt self args kwds w
  = (rbind (requests_get rt (sent w) (search_request self kwargs))
       (fun resp =>
          rbind (check_response resp)
            (fun _ =>
               rbind (json_loads rt (text resp))
                 (fun data =>
                    rbind (getitem data "foods")
                      (fun foods =>
                         rbind (iterate foods) (map_result (from_json rt)))))),
     mk_world (sent w ++ [search_request self kwargs])%list (food_by_id_cache w)
       (foods_by_id_cache w) (search_food_by_query_cache w)).
Proof.
  intros rt self args kwds w bound kwargs Hbind.
  unfold search_food_by_query_body, bind, lift, get. rewrite Hbind. cbn [fst snd].
  fold (search_request self kwargs).
  change (urljoin base_url "foods/search") with (base_url ++ "foods/search")%string.
  fold (search_request self kwargs).
  cbn [sent food_by_id_cache foods_by_id_cache search_food_by_query_cache].
  destruct (requests_get rt (sent w) _) as [resp | e]; cbn [rbind]; [| reflexivity].
  destruct (check_response resp); cbn [rbind]; [| reflexivity].
  destruct (json_loads rt (text resp)) as [data | e]; cbn [rbind]; [| reflexivity].
  destruct (getitem data "foods") as [foods | e]; cbn [rbind]; [| reflexivity].
  destruct (iterate foods) as [xs | e]; reflexivity.
Qed.

(** When the server answers a search with status 200 and a body whose
    [foods] are the records [xs], the call returns one entry for each
    record, in the order of the records, provided every record parses;
    the call is then stored under its key.  If a record does not parse,
    the call raises the error of such a record, returns no entry at all
    and stores nothing. *)
Theorem search_returns_all_or_nothing :
  forall (rt : runtime) (self : FCAPI) (args : list value) (kwds : dict) (w : world)
         (bound kwargs : dict) (resp : response) (data foods : value) (xs : list value),
  bind_arguments search_food_by_query_signature args kwds = Ok (bound, kwargs) ->
  key_unhashable (mk_key (instance self) args kwds) = None ->
  cache_find (mk_key (instance self) args kwds) (search_food_by_query_cache w) = None ->
  requests_get rt (sent w)
    (mk_request (base_url ++ "foods/search")
       (dict_update [("api_key", api_key self)] kwargs))
  = Ok resp ->
  status_code resp = 200 ->
  json_loads rt (text resp) = Ok data ->
  getitem data "foods" = Ok foods ->
  iterate foods = Ok xs ->
  let r := search_food_by_query rt self args kwds w in
  (forall ys,
     fst r = Ok ys <-> Forall2 (fun x y => from_json rt x = Ok y) xs ys)
  /\ (forall ys,
        fst r = Ok ys ->
        List.length ys = List.length xs
        /\ search_food_by_query_cache (snd r)
           = (search_food_by_query_cache w
              ++ [(mk_key (instance self) args kwds, ys)])%list)
  /\ (forall e,
        fst r = Err e ->
        (exists x, In x xs /\ from_json rt x = Err e)
        /\ search_food_by_query_cache (snd r) = search_food_by_query_cache w).
Proof.
  intros rt self args kwds w bound kwargs resp data foods xs
    Hbind Hhash Hmiss Hget H200 Hjson Hfoods Hxs r.
  assert (Hr : r = match map_result (from_json rt) xs with
                   | Ok ys =>
                       (Ok ys,
                        mk_world (sent w ++ [search_request self kwargs])%list
                          (food_by_id_cache w) (foods_by_id_cache w)
                          (search_food_by_query_cache w
                           ++ [(mk_key (instance self) args kwds, ys)])%list)
                   | Err e =>
                       (Err e,
                        mk_world (sent w ++ [search_request self kwargs])%list
                          (food_by_id_cache w) (foods_by_id_cache w)
                          (search_food_by_query_cache w))
                   end).
  { subst r. unfold search_food_by_query, cached. cbv zeta. rewrite Hhash, Hmiss.
    rewrite (search_food_by_query_body_run rt self args kwds w bound kwargs Hbind).
    unfold search_request. rewrite Hget. cbn [rbind].
    unfold check_response. rewrite H200. cbn [Z.eqb Pos.eqb rbind].
    rewrite Hjson. cbn [rbind]. rewrite Hfoods. cbn [rbind]. rewrite Hxs. cbn [rbind].
    destruct (map_result (from_json rt) xs); reflexivity. }
  rewrite Hr. clear Hr.
  destruct (map_result (from_json rt) xs) as [ys0 | e0] eqn:Hmap; cbn [fst snd];
    split; [| split | | split].
  - intros ys. rewrite <- map_result_Ok_iff, Hmap. reflexivity.
  - intros ys Hys. inversion Hys; subst. split; [| reflexivity].
    apply map_result_Ok_iff in Hmap. symmetry. eapply Forall2_length; eauto.
  - intros e He. discriminate.
  - intros ys. rewrite <- map_result_Ok_iff, Hmap. reflexivity.
  - intros ys Hys. discriminate.
  - intros e He. inversion He; subst. split; [| reflexivity].
    eapply map_result_Err; eauto.
Qed.

(** The search of the example server, which answers with the apple. *)
Lemma search_returns_all_or_nothing_witness :
  fst (search_food_by_query demo_runtime demo_client [VStr "apple"] [] fresh)
  = Ok [apple_entry]
  <-> Forall2 (fun x y => from_json demo_runtime x = Ok y) [apple] [apple_entry].
Proof.
  apply (search_returns_all_or_nothing demo_runtime demo_client [VStr "apple"] [] fresh
           [("query", VStr "apple"); ("brand", VNone)] []
           (mk_response 200 "foods") (VDict [("foods", VList [apple])]) (VList [apple])
           [apple]);
    reflexivity.
Defined.

(** ** Reads of the specifications *)

Lemma json_spec_fetched_once_witness :
  json_spec spec_runtime demo_client
    (run_session spec_runtime spec_later
       (snd (json_spec spec_runtime demo_client new_session)))
  = (Ok (VDict [("openapi", VStr "3.0.0")]),
     run_session spec_runtime spec_later
       (snd (json_spec spec_runtime demo_client new_session))).
Proof.
  apply (json_spec_fetched_once spec_runtime demo_client new_session
           (snd (json_spec spec_runtime demo_client new_session))
           (VDict [("openapi", VStr "3.0.0")])).
  reflexivity.
Defined.

Lemma yaml_spec_fetched_once_witness :
  yaml_spec spec_runtime demo_client
    (run_session spec_runtime spec_later
       (snd (yaml_spec spec_runtime demo_client new_session)))
  = (Ok "openapi: 3.0.0",
     run_session spec_runtime spec_later
       (snd (yaml_spec spec_runtime demo_client new_session))).
Proof.
  apply (yaml_spec_fetched_once spec_runtime demo_client new_session
           (snd (yaml_spec spec_runtime demo_client new_session)) "openapi: 3.0.0").
  reflexivity.
Defined.

(** A read of [json_spec] that raises had nothing to return from the
    instance and leaves nothing with it: the request it sent is in the
    log, both stores and the three tables are as they were, and the next
    read sends the request again. *)
Theorem json_spec_failure_is_not_kept :
  forall (rt : runtime) (self : FCAPI) (s s1 : session) (e : exn),
  json_spec rt self s = (Err e, s1) ->
  let req := mk_request (base_url ++ "json-spec") [("api_key", api_key self)] in
  attr_find (instance self) (json_spec_store s) = None
  /\ s1
     = mk_session
         (mk_world (sent (net s) ++ [req])%list (food_by_id_cache (net s))
            (foods_by_id_cache (net s)) (search_food_by_query_cache (net s)))
         (json_spec_store s) (yaml_spec_store s)
  /\ sent (net (snd (json_spec rt self s1))) = (sent (net s) ++ [req; req])%list.
Proof.
  intros rt self s s1 e H req.
  unfold json_spec, cached_property in H.
  destruct (attr_find (instance self) (json_spec_store s)) as [held |] eqn:Hfind;
    [discriminate |].
  rewrite json_spec_body_run in H. fold (json_spec_request self) in req.
  assert (Hs1 : s1
                = mk_session
                    (mk_world (sent (net s) ++ [req])%list (food_by_id_cache (net s))
                       (foods_by_id_cache (net s)) (search_food_by_query_cache (net s)))
                    (json_spec_store s) (yaml_spec_store s)).
  { destruct (rbind _ _); inversion H; subst; reflexivity. }
  split; [reflexivity | split; [exact Hs1 |]].
  rewrite Hs1. unfold json_spec, cached_property. cbn [json_spec_store net].
  rewrite Hfind, json_spec_body_run. cbn [sent]. fold req.
  match goal with
  | |- context [match ?r with Ok _ => _ | Err _ => _ end] => destruct r
  end; cbn [snd net sent]; now rewrite <- app_assoc.
Qed.

(** The example server has no specification: it answers 404. *)
Lemma json_spec_failure_is_not_kept_witness :
  sent (net (snd (json_spec demo_runtime demo_client
                    (snd (json_spec demo_runtime demo_client new_session)))))
  = (sent (net new_session)
     ++ [mk_request (base_url ++ "json-spec") [("api_key", api_key demo_client)];
         mk_request (base_url ++ "json-spec") [("api_key", api_key demo_client)]])%list.
Proof.
  apply (json_spec_failure_is_not_kept demo_runtime demo_client new_session
           (snd (json_spec demo_runtime demo_client new_session))
           (ValueError "The status code indicates that the food item was not found.")).
  reflexivity.
Defined.

(** ** What [parse_json] refuses *)

(** [parse_json] raises a [TypeError] on anything that is not a dict, the
    [KeyError] of [fdcId] on a dict without that key whatever else it
    holds, and some error on a dict that lacks any of the six keys;
    [FoodEntry.from_json] raises the same. *)
Theorem parse_json_refuses :
  forall (rt : runtime),
  (forall data,
     (forall d, data <> VDict d) ->
     exists msg,
       parse_json rt data = Err (TypeError msg)
       /\ from_json rt data = Err (TypeError msg))
  /\ (forall d,
        dict_get "fdcId" d = None ->
        parse_json rt (VDict d) = Err (KeyError "fdcId")
        /\ from_json rt (VDict d) = Err (KeyError "fdcId"))
  /\ (forall d k,
        In k ["fdcId"; "description"; "foodNutrients"; "servingSize"; "servingSizeUnit";
              "labelNutrients"] ->
        dict_get k d = None ->
        exists e,
          parse_json rt (VDict d) = Err e /\ from_json rt (VDict d) = Err e).
Proof.
  intros rt. split; [| split].
  - intros data Hnot.
    assert (H : exists msg, getitem data "fdcId" = Err (TypeError msg)).
    { destruct data; cbn; eauto. exfalso. now apply (Hnot items). }
    destruct H as [msg Hmsg]. exists msg.
    assert (Hparse : parse_json rt data = Err (TypeError msg)).
    { unfold parse_json. cbv zeta. now rewrite Hmsg. }
    split; [assumption |]. unfold from_json. now rewrite Hparse.
  - intros d Hnone.
    assert (Hparse : parse_json rt (VDict d) = Err (KeyError "fdcId")).
    { unfold parse_json. cbv zeta. cbn [getitem]. now rewrite Hnone. }
    split; [assumption |]. unfold from_json. now rewrite Hparse.
  - intros d k Hk Hnone.
    destruct (parse_json rt (VDict d)) as [out | e] eqn:Hparse.
    + exfalso.
      destruct (parse_json_reads rt (VDict d) out Hparse)
        as (d0 & fdcId & description & fn & xs & es & energy & t & fat & carbs & protein
            & size & unit & labels & x1 & v1 & x2 & v2 & x3 & v3 & x4 & v4
            & Hdata & Hid & Hdesc & Hfn & Hxs & Hes & He & Hint & Hf & Hc & Hp
            & Hsize & Hunit & Hlabels & _).
      inversion Hdata; subst d0. cbn in Hk.
      destruct Hk as [<- | [<- | [<- | [<- | [<- | [<- | []]]]]]]; congruence.
    + exists e. split; [reflexivity |]. unfold from_json. now rewrite Hparse.
Qed.

(** ** Booleans as ids *)

(** [isinstance(True, int)] holds, so [food_by_id] takes a boolean: on a
    miss it asks for the path [food/True] or [food/False], and its key is
    equal to the key of the integer 1 or 0, with which it therefore
    shares its entry in the table. *)
Theorem food_by_id_takes_booleans :
  forall (rt : runtime) (self : FCAPI) (b : bool) (w : world),
  (cache_find (mk_key (instance self) [VBool b] []) (food_by_id_cache w) = None ->
   sent (snd (food_by_id rt self [VBool b] [] w))
   = (sent w
      ++ [mk_request (base_url ++ "food/" ++ (if b then "True" else "False"))
            [("api_key", api_key self)]])%list)
  /\ key_eqb (mk_key (instance self) [VBool b] [])
       (mk_key (instance self) [VInt (if b then 1 else 0)] [])
     = true
  /\ cache_find (mk_key (instance self) [VBool b] []) (food_by_id_cache w)
     = cache_find (mk_key (instance self) [VInt (if b then 1 else 0)] [])
         (food_by_id_cache w).
Proof.
  intros rt self b w.
  assert (Heq : key_eqb (mk_key (instance self) [VBool b] [])
                  (mk_key (instance self) [VInt (if b then 1 else 0)] []) = true).
  { unfold key_eqb. cbn. rewrite Nat.eqb_refl. now destruct b. }
  split; [| split].
  - intros Hmiss.
    rewrite (food_by_id_miss_sends rt self [VBool b] [] w [("food_id", VBool b)] []
               eq_refl eq_refl eq_refl Hmiss).
    reflexivity.
  - exact Heq.
  - now apply cache_find_congruent.
Qed.

(** ** Every key once *)

Lemma cache_find_None : forall (A : Type) k (table : list (key * A)),
  cache_find k table = None -> Forall (fun kr => key_eqb (fst kr) k = false) table.
Proof.
  intros A k table. induction table as [| [k' r] rest IH]; cbn; intros H; [constructor |].
  destruct (key_eqb k' k) eqn:Hk; [discriminate |]. constructor; auto.
Qed.

Lemma ForallOrdPairs_snoc : forall (A : Type) (R : A -> A -> Prop) l x,
  ForallOrdPairs R l -> Forall (fun a => R a x) l -> ForallOrdPairs R (l ++ [x])%list.
Proof.
  intros A R l x H. induction H as [| a l Ha Hl IH]; intros Hx; cbn.
  - constructor; constructor.
  - inversion Hx; subst. constructor; [| auto].
    apply Forall_app. split; [assumption | repeat constructor; assumption].
Qed.

Lemma each_key_once_snoc : forall (A : Type) (table : list (key * A)) k r,
  each_key_once table ->
  cache_find k table = None ->
  key_unhashable k = None ->
  each_key_once (table ++ [(k, r)])%list.
Proof.
  intros A table k r [Hh Hp] Hnone Hhash. split.
  - apply Forall_app. split; [assumption | repeat constructor; assumption].
  - apply ForallOrdPairs_snoc; [assumption |].
    apply cache_find_None in Hnone. exact Hnone.
Qed.

Lemma cached_each_key_once :
  forall (A : Type) table store (f : list value -> dict -> M A) self args kwds w,
  (forall t w, table (store t w) = t) ->
  (forall args kwds w, table (snd (f args kwds w)) = table w) ->
  each_key_once (table w) ->
  each_key_once (table (snd (cached table store f self args kwds w))).
Proof.
  intros A table store f self args kwds w H1 H2 Hinv. unfold cached. cbv zeta.
  destruct (key_unhashable (mk_key self args kwds)) eqn:Hhash; [assumption |].
  destruct (cache_find (mk_key self args kwds) (table w)) eqn:Hfind; [assumption |].
  pose proof (H2 args kwds w) as Hkeep.
  destruct (f args kwds w) as [[r | e] w']; cbn [snd] in *.
  - rewrite H1, Hkeep. now apply each_key_once_snoc.
  - now rewrite Hkeep.
Qed.

Lemma attr_find_None_In : forall (A : Type) i (store : list (nat * A)),
  attr_find i store = None -> ~ In i (map fst store).
Proof.
  intros A i store. induction store as [| [j v] rest IH]; cbn; intros H; [tauto |].
  destruct (Nat.eqb_spec j i); [discriminate |]. intros [Heq | Hin]; [contradiction |].
  now apply IH.
Qed.

Lemma NoDup_snoc : forall (A : Type) (l : list A) x,
  NoDup l -> ~ In x l -> NoDup (l ++ [x])%list.
Proof.
  intros A l x Hnd Hx. induction Hnd as [| a l Ha Hl IH]; cbn.
  - repeat constructor. intros [].
  - constructor.
    + intros Hin. apply in_app_or in Hin. destruct Hin as [Hin | [Heq | []]].
      * contradiction.
      * subst. apply Hx. now left.
    + apply IH. intros Hin. apply Hx. now right.
Qed.

Lemma step_tidy : forall rt a s, tidy s -> tidy (step rt a s).
Proof.
  intros rt a s (T1 & T2 & T3 & J & Y).
  destruct a as [c | self | self]; cbn [step].
  - pose proof (food_by_id_body_keeps_tables rt (inv_self c)) as K1.
    pose proof (foods_by_id_body_keeps_tables rt (inv_self c)) as K2.
    pose proof (search_food_by_query_body_keeps_tables rt (inv_self c)) as K3.
    unfold tidy. cbn [net json_spec_store yaml_spec_store].
    destruct (inv_method c); cbn [call]; rewrite snd_outcome_of;
      unfold food_by_id, foods_by_id, search_food_by_query.
    + rewrite (cached_other _ _ _ _ _ foods_by_id_cache),
        (cached_other _ _ _ _ _ search_food_by_query_cache);
        try reflexivity; try (intros; apply K1).
      refine (conj _ (conj T2 (conj T3 (conj J Y)))).
      apply cached_each_key_once; auto. intros; apply K1.
    + rewrite (cached_other _ _ _ _ _ food_by_id_cache),
        (cached_other _ _ _ _ _ search_food_by_query_cache);
        try reflexivity; try (intros; apply K2).
      refine (conj T1 (conj _ (conj T3 (conj J Y)))).
      apply cached_each_key_once; auto. intros; apply K2.
    + rewrite (cached_other _ _ _ _ _ food_by_id_cache),
        (cached_other _ _ _ _ _ foods_by_id_cache);
        try reflexivity; try (intros; apply K3).
      refine (conj T1 (conj T2 (conj _ (conj J Y)))).
      apply cached_each_key_once; auto. intros; apply K3.
  - unfold json_spec, cached_property.
    destruct (attr_find (instance self) (json_spec_store s)) eqn:Hfind;
      [exact (conj T1 (conj T2 (conj T3 (conj J Y)))) |].
    rewrite json_spec_body_run.
    destruct (rbind _ _); cbn [snd]; unfold tidy; cbn;
      refine (conj T1 (conj T2 (conj T3 (conj _ Y)))); [| exact J].
    rewrite map_app. apply NoDup_snoc; [assumption |]. now apply attr_find_None_In.
  - unfold yaml_spec, cached_property.
    destruct (attr_find (instance self) (yaml_spec_store s)) eqn:Hfind;
      [exact (conj T1 (conj T2 (conj T3 (conj J Y)))) |].
    rewrite yaml_spec_body_run.
    destruct (rbind _ _); cbn [snd]; unfold tidy; cbn;
      refine (conj T1 (conj T2 (conj T3 (conj J _)))); [| exact Y].
    rewrite map_app. apply NoDup_snoc; [assumption |]. now apply attr_find_None_In.
Qed.

(** Whatever a program does from the start, every key of the three
    tables can be hashed, no table holds two equal keys, and no instance
    holds two documents of one kind. *)
Theorem every_key_is_stored_once :
  forall (rt : runtime) (actions : list action),
  tidy (run_session rt actions new_session).
Proof.
  intros rt actions.
  assert (Hgen : forall s, tidy s -> tidy (run_session rt actions s)).
  { induction actions as [| a rest IH]; intros s Hs; cbn [run_session]; [assumption |].
    apply IH. now apply step_tidy. }
  apply Hgen. unfold tidy, each_key_once. cbn.
  repeat split; constructor.
Qed.

(** ** Exchanges that fail *)

Lemma food_by_id_body_run : forall rt self args kwds w bound kwargs,
  bind_arguments food_by_id_signature args kwds = Ok (bound, kwargs) ->
  isinstance_int (argument "food_id" bound) = true ->
  food_by_id_body rt self args kwds w
  = (rbind
       (requests_get rt (sent w) (food_request rt self (argument "food_id" bound) kwargs))
       (fun resp =>
          rbind (check_response resp)
            (fun _ => rbind (json_loads rt (text resp)) (from_json rt))),
     mk_world (sent w ++ [food_request rt self (argument "food_id" bound) kwargs])%list
       (food_by_id_cache w) (foods_by_id_cache w) (search_food_by_query_cache w)).
Proof.
  intros rt self args kwds w bound kwargs Hbind Hint.
  unfold food_by_id_body, bind, lift, get. rewrite Hbind. cbn [fst snd].
  rewrite Hint. cbn [negb].
  change (mk_request
            (urljoin base_url ("food/" ++ py_str rt (argument "food_id" bound)))
            (dict_update [("api_key", api_key self)] kwargs))
    with (food_request rt self (argument "food_id" bound) kwargs).
  cbn [sent food_by_id_cache foods_by_id_cache search_food_by_query_cache].
  destruct (requests_get rt (sent w) _) as [resp | e]; cbn [rbind]; [| reflexivity].
  destruct (check_response resp); cbn [rbind]; [| reflexivity].
  destruct (json_loads rt (text resp)) as [data | e]; reflexivity.
Qed.

Lemma food_by_id_not_int_state : forall rt self args kwds w bound kwargs,
  bind_arguments food_by_id_signature args kwds = Ok (bound, kwargs) ->
  isinstance_int (argument "food_id" bound) = false ->
  snd (cached food_by_id_cache
         (fun t w =>
            mk_world (sent w) t (foods_by_id_cache w) (search_food_by_query_cache w))
         (food_by_id_body rt self) (instance self) args kwds w)
  = w.
Proof.
  intros rt self args kwds w bound kwargs Hbind Hint. unfold cached. cbv zeta.
  rewrite (food_by_id_body_not_int rt self args kwds w bound kwargs Hbind Hint).
  destruct (key_unhashable _); [reflexivity |].
  destruct (cache_find _ _); reflexivity.
Qed.

Lemma check_response_not_200 : forall resp,
  status_code resp <> 200 -> exists e, check_response resp = Err e.
Proof.
  intros resp H. unfold check_response.
  destruct (Z.eqb_spec (status_code resp) 200); [contradiction |].
  destruct (status_code resp =? 400); [eauto |].
  destruct (status_code resp =? 404); eauto.
Qed.

Lemma rbind_not_answered : forall (A : Type) rt history req (k : response -> result A),
  not_answered rt history req ->
  exists e,
    failure rt history req = Some e
    /\ rbind (requests_get rt history req)
         (fun resp => rbind (check_response resp) (fun _ => k resp))
       = Err e.
Proof.
  intros A rt history req k H. unfold not_answered in H. unfold failure.
  destruct (requests_get rt history req) as [resp | e]; cbn [rbind]; [| eauto].
  destruct (check_response_not_200 resp H) as [e ->]. cbn [rbind]. eauto.
Qed.

Lemma app_one_inv : forall (A : Type) (l : list A) x y,
  (l ++ [x])%list = (l ++ [y])%list -> x = y.
Proof.
  intros A l x y H. apply app_inv_head in H. now inversion H.
Qed.

Lemma app_one_neq : forall (A : Type) (l : list A) x, l <> (l ++ [x])%list.
Proof.
  intros A l x H. apply (f_equal (@List.length A)) in H.
  rewrite length_app in H. cbn in H. lia.
Qed.

(** A call through the wrapper that sent a request and whose function
    raised is the call of the function itself. *)
Lemma cached_failure : forall (A : Type) table store (f : list value -> dict -> M A)
                              self args kwds w req,
  (forall t w, sent (store t w) = sent w) ->
  sent (snd (cached table store f self args kwds w)) = (sent w ++ [req])%list ->
  (forall w', sent w' = (sent w ++ [req])%list ->
              snd (f args kwds w) = w' ->
              exists e, fst (f args kwds w) = Err e) ->
  cached table store f self args kwds w = f args kwds w.
Proof.
  intros A table store f self args kwds w req Hstore Hsent Hf. unfold cached in *.
  cbv zeta in *.
  destruct (key_unhashable _); [exfalso; now apply (app_one_neq _ (sent w) req) |].
  destruct (cache_find _ (table w)); [exfalso; now apply (app_one_neq _ (sent w) req) |].
  destruct (f args kwds w) as [[r | e] w'] eqn:Hfw; cbn [fst snd] in *; [| reflexivity].
  rewrite Hstore in Hsent. destruct (Hf w' Hsent eq_refl) as [e He]. discriminate.
Qed.

(** The wrapper sends what the function under it sends. *)
Lemma cached_log : forall (A : Type) table store (f g : list value -> dict -> M A)
                          self args kwds w,
  (forall t w, sent (store t w) = sent w) ->
  (key_unhashable (mk_key self args kwds) = None ->
   sent (snd (f args kwds w)) = sent (snd (g args kwds w))) ->
  sent (snd (cached table store f self args kwds w))
  = sent (snd (cached table store g self args kwds w)).
Proof.
  intros A table store f g self args kwds w Hstore Hfg. unfold cached. cbv zeta.
  destruct (key_unhashable _); [reflexivity |].
  destruct (cache_find _ (table w)); [reflexivity |].
  specialize (Hfg eq_refl).
  destruct (f args kwds w) as [[r | e] w1], (g args kwds w) as [[r' | e'] w2];
    cbn [snd] in *; rewrite ?Hstore; assumption.
Qed.

Lemma py_str_with_json_loads : forall rt decode v,
  py_str (with_json_loads rt decode) v = py_str rt v.
Proof. intros rt decode v. destruct v; reflexivity. Qed.

Lemma with_json_loads_same : forall rt, with_json_loads rt (json_loads rt) = rt.
Proof. intros [i s l j g]. reflexivity. Qed.

(** What a call or a read sends does not depend on [json.loads]. *)
Lemma step_log_with_json_loads : forall rt decode a s,
  sent (net (step (with_json_loads rt decode) a s)) = sent (net (step rt a s)).
Proof.
  intros rt decode a s.
  destruct a as [[m self args kwds] | self | self];
    cbn [step net inv_method inv_self inv_args inv_kwds].
  - destruct m; cbn [call]; rewrite !snd_outcome_of;
      unfold food_by_id, foods_by_id, search_food_by_query;
      apply cached_log; try reflexivity; intros Hhash.
    + destruct (bind_arguments food_by_id_signature args kwds)
        as [[bound kwargs] | e] eqn:Hb.
      * destruct (isinstance_int (argument "food_id" bound)) eqn:Hint.
        -- destruct (food_by_id_body_sent (with_json_loads rt decode) self args kwds (net s)
                       bound kwargs Hb Hint) as [r ->].
           destruct (food_by_id_body_sent rt self args kwds (net s) bound kwargs Hb Hint)
             as [r' ->].
           unfold food_request. now rewrite py_str_with_json_loads.
        -- now rewrite !(food_by_id_body_not_int _ self args kwds (net s) bound kwargs Hb Hint).
      * unfold food_by_id_body, bind, lift. now rewrite Hb.
    + destruct (foods_by_id_body_hashable (with_json_loads rt decode) self args kwds (net s)
                  Hhash) as [msg ->].
      destruct (foods_by_id_body_hashable rt self args kwds (net s) Hhash) as [msg' ->].
      reflexivity.
    + destruct (bind_arguments search_food_by_query_signature args kwds)
        as [[bound kwargs] | e] eqn:Hb.
      * destruct (search_food_by_query_body_sent (with_json_loads rt decode) self args kwds
                    (net s) bound kwargs Hb) as [r ->].
        destruct (search_food_by_query_body_sent rt self args kwds (net s) bound kwargs Hb)
          as [r' ->].
        reflexivity.
      * unfold search_food_by_query_body, bind, lift. now rewrite Hb.
  - unfold json_spec, cached_property.
    destruct (attr_find _ _); [reflexivity |]. rewrite !json_spec_body_run.
    cbn [requests_get json_loads with_json_loads].
    destruct (requests_get rt (sent (net s)) (json_spec_request self)) as [resp | e];
      cbn [rbind]; [| reflexivity].
    destruct (check_response resp); cbn [rbind]; [| reflexivity].
    destruct (decode (text resp)), (json_loads rt (text resp)); reflexivity.
  - unfold yaml_spec, cached_property.
    destruct (attr_find _ _); [reflexivity |]. rewrite !yaml_spec_body_run.
    reflexivity.
Qed.

(** An exchange that fails: the state and the exception of the action
    that made it. *)
Lemma failed_exchange : forall rt a s req,
  sent (net (step rt a s)) = (sent (net s) ++ [req])%list ->
  not_answered rt (sent (net s)) req ->
  step rt a s
  = mk_session
      (mk_world (sent (net s) ++ [req])%list (food_by_id_cache (net s))
         (foods_by_id_cache (net s)) (search_food_by_query_cache (net s)))
      (json_spec_store s) (yaml_spec_store s)
  /\ exists e, failure rt (sent (net s)) req = Some e /\ raised rt a s = Some e.
Proof.
  intros rt a s req Hsent Hbad.
  destruct a as [[m self args kwds] | self | self];
    cbn [step raised net inv_method inv_self inv_args inv_kwds] in *.
  - destruct m; cbn [call] in *; rewrite snd_outcome_of in *; rewrite fst_outcome_of.
    + unfold food_by_id in *.
      destruct (bind_arguments food_by_id_signature args kwds)
        as [[bound kwargs] | e] eqn:Hb.
      * destruct (isinstance_int (argument "food_id" bound)) eqn:Hint.
        -- pose proof (food_by_id_body_run rt self args kwds (net s) bound kwargs Hb Hint)
             as Hrun.
           assert (Hfail : forall w',
                     sent w' = (sent (net s) ++ [req])%list ->
                     snd (food_by_id_body rt self args kwds (net s)) = w' ->
                     exists e, fst (food_by_id_body rt self args kwds (net s)) = Err e).
           { intros w' Hw' Hsnd. rewrite Hrun in *. cbn [fst snd] in *. subst w'.
             cbn [sent] in Hw'. apply app_one_inv in Hw'. rewrite Hw'.
             destruct (rbind_not_answered FoodEntry rt (sent (net s)) req
                         (fun resp => rbind (json_loads rt (text resp)) (from_json rt)) Hbad)
               as (e & _ & He).
             eauto. }
           assert (Hsame :
                     cached food_by_id_cache
                       (fun t w =>
                          mk_world (sent w) t (foods_by_id_cache w)
                            (search_food_by_query_cache w))
                       (food_by_id_body rt self) (instance self) args kwds (net s)
                     = food_by_id_body rt self args kwds (net s)).
           { apply (cached_failure _ _ _ _ _ _ _ _ req);
               [reflexivity | exact Hsent | exact Hfail]. }
           rewrite Hsame in *. rewrite Hrun in *. cbn [fst snd sent] in *.
           apply app_one_inv in Hsent. rewrite Hsent.
           destruct (rbind_not_answered FoodEntry rt (sent (net s)) req
                       (fun resp => rbind (json_loads rt (text resp)) (from_json rt)) Hbad)
             as (e & Hf & ->).
           split; [reflexivity | exists e; split; [exact Hf | reflexivity]].
        -- exfalso.
           pose proof (food_by_id_not_int_state rt self args kwds (net s) bound kwargs
                         Hb Hint) as Hsame.
           rewrite Hsame in Hsent. now apply (app_one_neq _ (sent (net s)) req).
      * exfalso.
        assert (Hsame : snd (cached food_by_id_cache
                               (fun t w =>
                                  mk_world (sent w) t (foods_by_id_cache w)
                                    (search_food_by_query_cache w))
                               (food_by_id_body rt self) (instance self) args kwds (net s))
                        = net s).
        { unfold cached. cbv zeta.
          destruct (key_unhashable _); [reflexivity |].
          destruct (cache_find _ _); [reflexivity |].
          unfold food_by_id_body, bind, lift. now rewrite Hb. }
        rewrite Hsame in Hsent. now apply (app_one_neq _ (sent (net s)) req).
    + exfalso. unfold foods_by_id in *.
      assert (Hsame : snd (cached foods_by_id_cache
                             (fun t w =>
                                mk_world (sent w) (food_by_id_cache w) t
                                  (search_food_by_query_cache w))
                             (foods_by_id_body rt self) (instance self) args kwds (net s))
                      = net s).
      { unfold cached. cbv zeta.
        destruct (key_unhashable _) eqn:Hhash; [reflexivity |].
        destruct (cache_find _ _); [reflexivity |].
        destruct (foods_by_id_body_hashable rt self args kwds (net s) Hhash) as [msg ->].
        reflexivity. }
      rewrite Hsame in Hsent. now apply (app_one_neq _ (sent (net s)) req).
    + unfold search_food_by_query in *.
      destruct (bind_arguments search_food_by_query_signature args kwds)
        as [[bound kwargs] | e] eqn:Hb.
      * pose proof (search_food_by_query_body_run rt self args kwds (net s) bound kwargs Hb)
          as Hrun.
        assert (Hfail : forall w',
                  sent w' = (sent (net s) ++ [req])%list ->
                  snd (search_food_by_query_body rt self args kwds (net s)) = w' ->
                  exists e,
                    fst (search_food_by_query_body rt self args kwds (net s)) = Err e).
        { intros w' Hw' Hsnd. rewrite Hrun in *. cbn [fst snd] in *. subst w'.
          cbn [sent] in Hw'. apply app_one_inv in Hw'. rewrite Hw'.
          destruct (rbind_not_answered _ rt (sent (net s)) req
                      (fun resp =>
                         rbind (json_loads rt (text resp))
                           (fun data =>
                              rbind (getitem data "foods")
                                (fun foods =>
                                   rbind (iterate foods) (map_result (from_json rt)))))
                      Hbad) as (e & _ & He).
          eauto. }
        assert (Hsame :
                  cached search_food_by_query_cache
                    (fun t w =>
                       mk_world (sent w) (food_by_id_cache w) (foods_by_id_cache w) t)
                    (search_food_by_query_body rt self) (instance self) args kwds (net s)
                  = search_food_by_query_body rt self args kwds (net s)).
        { apply (cached_failure _ _ _ _ _ _ _ _ req);
            [reflexivity | exact Hsent | exact Hfail]. }
        rewrite Hsame in *. rewrite Hrun in *. cbn [fst snd sent] in *.
        apply app_one_inv in Hsent. rewrite Hsent.
        destruct (rbind_not_answered _ rt (sent (net s)) req
                    (fun resp =>
                       rbind (json_loads rt (text resp))
                         (fun data =>
                            rbind (getitem data "foods")
                              (fun foods =>
                                 rbind (iterate foods) (map_result (from_json rt)))))
                    Hbad) as (e & Hf & ->).
        split; [reflexivity | exists e; split; [exact Hf | reflexivity]].
      * exfalso.
        assert (Hsame : snd (cached search_food_by_query_cache
                               (fun t w =>
                                  mk_world (sent w) (food_by_id_cache w)
                                    (foods_by_id_cache w) t)
                               (search_food_by_query_body rt self) (instance self)
                               args kwds (net s))
                        = net s).
        { unfold cached. cbv zeta.
          destruct (key_unhashable _); [reflexivity |].
          destruct (cache_find _ _); [reflexivity |].
          unfold search_food_by_query_body, bind, lift. now rewrite Hb. }
        rewrite Hsame in Hsent. now apply (app_one_neq _ (sent (net s)) req).
  - unfold json_spec, cached_property in *.
    destruct (attr_find (instance self) (json_spec_store s));
      [exfalso; now apply (app_one_neq _ (sent (net s)) req) |].
    rewrite json_spec_body_run in *.
    assert (Hreq : json_spec_request self = req).
    { destruct (rbind _ _); cbn [snd net sent] in Hsent; now apply app_one_inv in Hsent. }
    rewrite Hreq in *.
    destruct (rbind_not_answered value rt (sent (net s)) req
                (fun resp => json_loads rt (text resp)) Hbad) as (e & Hf & ->).
    split; [reflexivity | exists e; split; [exact Hf | reflexivity]].
  - unfold yaml_spec, cached_property in *.
    destruct (attr_find (instance self) (yaml_spec_store s));
      [exfalso; now apply (app_one_neq _ (sent (net s)) req) |].
    rewrite yaml_spec_body_run in *.
    assert (Hreq : yaml_spec_request self = req).
    { destruct (rbind _ _); cbn [snd net sent] in Hsent; now apply app_one_inv in Hsent. }
    rewrite Hreq in *.
    destruct (rbind_not_answered string rt (sent (net s)) req
                (fun resp => Ok (text resp)) Hbad) as (e & Hf & ->).
    split; [reflexivity | exists e; split; [exact Hf | reflexivity]].
Qed.

(** When a call of a method or a read of a property has sent a request
    and the server did not answer it with status 200, be it that the
    transport raised or that the status is another one, the action
    raises the exception of the transport or the one [check_response]
    raises for the status, and the request in the log is all that is left
    of it: the tables and what the instances hold are as before.  The
    body of the response is not decoded: with any other [json.loads] in
    the place of the runtime's own, one that raises on that body or one
    that returns a record, the exception and the state are the same. *)
Theorem failed_exchange_leaves_only_the_log :
  forall (rt : runtime) (a : action) (s : session) (req : request),
  sent (net (step rt a s)) = (sent (net s) ++ [req])%list ->
  not_answered rt (sent (net s)) req ->
  step rt a s
  = mk_session
      (mk_world (sent (net s) ++ [req])%list (food_by_id_cache (net s))
         (foods_by_id_cache (net s)) (search_food_by_query_cache (net s)))
      (json_spec_store s) (yaml_spec_store s)
  /\ exists e : exn,
       failure rt (sent (net s)) req = Some e
       /\ raised rt a s = Some e
       /\ forall decode : string -> result value,
            raised (with_json_loads rt decode) a s = Some e
            /\ step (with_json_loads rt decode) a s = step rt a s.
Proof.
  intros rt a s req Hsent Hbad.
  destruct (failed_exchange rt a s req Hsent Hbad) as (Hstep & e & Hf & He).
  split; [exact Hstep |]. exists e. repeat split; try assumption.
  - destruct (failed_exchange (with_json_loads rt decode) a s req) as (_ & e' & Hf' & He').
    + now rewrite step_log_with_json_loads.
    + exact Hbad.
    + change (failure (with_json_loads rt decode) (sent (net s)) req)
        with (failure rt (sent (net s)) req) in Hf'.
      congruence.
  - destruct (failed_exchange (with_json_loads rt decode) a s req) as (Hstep' & _).
    + now rewrite step_log_with_json_loads.
    + exact Hbad.
    + now rewrite Hstep', Hstep.
Qed.

(** The example server has no specification and answers 404 with an
    empty body, on which the example [json.loads] raises. *)
Lemma failed_exchange_leaves_only_the_log_witness :
  step demo_runtime (Read_json_spec demo_client) new_session
  = mk_session
      (mk_world
         (sent (net new_session)
          ++ [mk_request "https://api.nal.usda.gov/fdc/v1/json-spec"
                [("api_key", VStr "DEMO_KEY")]])%list
         (food_by_id_cache (net new_session)) (foods_by_id_cache (net new_session))
         (search_food_by_query_cache (net new_session)))
      (json_spec_store new_session) (yaml_spec_store new_session)
  /\ exists e : exn,
       failure demo_runtime (sent (net new_session))
         (mk_request "https://api.nal.usda.gov/fdc/v1/json-spec" [("api_key", VStr "DEMO_KEY")])
       = Some e
       /\ raised demo_runtime (Read_json_spec demo_client) new_session = Some e
       /\ forall decode : string -> result value,
            raised (with_json_loads demo_runtime decode) (Read_json_spec demo_client)
              new_session
            = Some e
            /\ step (with_json_loads demo_runtime decode) (Read_json_spec demo_client)
                 new_session
               = step demo_runtime (Read_json_spec demo_client) new_session.
Proof.
  apply (failed_exchange_leaves_only_the_log demo_runtime (Read_json_spec demo_client)
           new_session
           (mk_request "https://api.nal.usda.gov/fdc/v1/json-spec"
              [("api_key", VStr "DEMO_KEY")])).
  - reflexivity.
  - vm_compute. discriminate.
Defined.

(** What the failed read raised, and what the example [json.loads] makes
    of the body that was not decoded. *)
Example failed_read_raises_the_status :
  fst (json_spec demo_runtime demo_client new_session)
  = Err (ValueError "The status code indicates that the food item was not found.")
  /\ json_loads demo_runtime ""
     = Err (ValueError "Expecting value: line 1 column 1 (char 0)").
Proof. split; reflexivity. Qed.
